(** * OTA update extension (src/lib/extension/otaUpdate.ts)

    A shallow embedding of the firmware-update coordinator: the command
    handler [onMQTTMessage], the automatic-check handler [onZigbeeEvent],
    the payload builder [getEntityPublishPayload] and the start-up recovery
    loop of [start], together with the properties of the specification that
    concern them.

    JavaScript runs each handler to its next [await] without interruption;
    between two awaits other handlers may run.  A handler is therefore a
    tree [prog] of state reads, state updates and awaited calls, [sync] runs
    it to its next await, and a pool of suspended handlers with a step
    relation gives the interleavings.

    A [string] holds the bytes of the UTF-8 form of a JavaScript string: an
    ASCII character is one byte, any other character a run of bytes above
    127. *)

From Stdlib Require Import Ascii String QArith Qround Qabs Lqa.
From stdpp Require Import gmap strings list pretty.

Local Open Scope string_scope.
Local Open Scope list_scope.
Local Open Scope Z_scope.

(** ** Strings and the two topic patterns *)

Module Regex.

(** The fragment of regular expressions that the two patterns use. *)
Inductive regex : Type :=
| Lit (s : string)
| AnyPlus
| Alt (r1 r2 : regex)
| Seq (r1 r2 : regex).

Definition is_lower (c : ascii) : bool :=
  (97 <=? Z.of_N (N_of_ascii c)) && (Z.of_N (N_of_ascii c) <=? 122).

(** Canonicalisation of a character under the [i] flag. *)
Definition canonicalize (ignoreCase : bool) (c : ascii) : ascii :=
  if ignoreCase && is_lower c then ascii_of_N (N_of_ascii c - 32) else c.

Definition char_eq (ignoreCase : bool) (a b : ascii) : bool :=
  bool_decide (canonicalize ignoreCase a = canonicalize ignoreCase b).

Fixpoint lit_strip (ignoreCase : bool) (p s : string) : option string :=
  match p, s with
  | EmptyString, _ => Some s
  | String a p', String b s' =>
      if char_eq ignoreCase a b then lit_strip ignoreCase p' s' else None
  | String _ _, EmptyString => None
  end.

(** [.] matches any character but a line terminator: LF, CR, U+2028 and
    U+2029, the last two being three bytes each. *)
Definition line_separator : string :=
  String "226" (String "128" (String "168" EmptyString)).

Definition paragraph_separator : string :=
  String "226" (String "128" (String "169" EmptyString)).

Definition starts_with (p s : string) : bool :=
  match lit_strip false p s with Some _ => true | None => false end.

(** Whether [s] begins with a line terminator. *)
Definition line_terminator_at (s : string) : bool :=
  starts_with (String "010" EmptyString) s
  || starts_with (String "013" EmptyString) s
  || starts_with line_separator s
  || starts_with paragraph_separator s.

Fixpoint any_plus (s : string) : list string :=
  match s with
  | EmptyString => []
  | String c s' => if line_terminator_at s then [] else s' :: any_plus s'
  end.

(** The remainders of [s] after each way of matching [r] at its start. *)
Fixpoint rmatch (ignoreCase : bool) (r : regex) (s : string) : list string :=
  match r with
  | Lit p =>
      match lit_strip ignoreCase p s with Some rest => [rest] | None => [] end
  | AnyPlus => any_plus s
  | Alt r1 r2 => rmatch ignoreCase r1 s ++ rmatch ignoreCase r2 s
  | Seq r1 r2 => rmatch ignoreCase r1 s ≫= rmatch ignoreCase r2
  end.

(** A pattern [^body] or [^body$], with or without the [i] flag. *)
Record pattern : Type := {
  body : regex;
  end_anchored : bool;
  ignore_case : bool }.

Definition pattern_matches (p : pattern) (s : string) : bool :=
  existsb (fun rest => negb (end_anchored p) || bool_decide (rest = ""))
          (rmatch (ignore_case p) (body p) s).

(** The characters with a meaning of their own in the source of a
    pattern. *)
Definition is_syntax_character (c : ascii) : bool :=
  existsb (fun d => bool_decide (c = d))
          (list_ascii_of_string "^$\.*+?()[]{}|").

(** A text that, spliced into the source of a pattern, stands for itself:
    ASCII characters, none of them a syntax character. *)
Definition plain_source (s : string) : bool :=
  forallb (fun c => (Z.of_N (N_of_ascii c) <? 128) && negb (is_syntax_character c))
          (list_ascii_of_string s).

(** [s] with each character canonicalised as under the [i] flag. *)
Fixpoint fold_case (s : string) : string :=
  match s with
  | EmptyString => EmptyString
  | String c s' => String (canonicalize true c) (fold_case s')
  end.

(** The [RegExp] of the runtime, for the sources that are not read here:
    [foreign source i s] tells whether [s.match(new RegExp(source, flags))]
    succeeds, the flags being [i] or none.  Under the flag [i] the runtime
    compares canonicalised characters only, so the case of the ASCII
    letters of [s] makes no difference. *)
Class Engine : Type := {
  foreign : string → bool → string → bool;
  foreign_ignores_case :
    ∀ source s s',
      fold_case s = fold_case s' →
      foreign source true s = foreign source true s' }.

(** A pattern as the module holds it: read here, or left to the runtime
    with its source and its flag. *)
Inductive compiled : Type :=
| Parsed (p : pattern)
| Unparsed (source : string) (ignoreCase : bool).

(** [s.match(p)] as a truth value. *)
Definition matches `{Engine} (c : compiled) (s : string) : bool :=
  match c with
  | Parsed p => pattern_matches p s
  | Unparsed source ignoreCase => foreign source ignoreCase s
  end.

End Regex.

(** [s.lastIndexOf(c)], counting from [i]; [-1] when [c] does not occur. *)
Fixpoint lastIndexOf_from (i : Z) (c : ascii) (s : string) : Z :=
  match s with
  | EmptyString => -1
  | String a s' =>
      let later := lastIndexOf_from (i + 1) c s' in
      if 0 <=? later then later else if bool_decide (a = c) then i else -1
  end.

Definition lastIndexOf (c : ascii) (s : string) : Z := lastIndexOf_from 0 c s.

(** [s.substring(n)]. *)
Fixpoint substring_from (n : nat) (s : string) : string :=
  match n, s with
  | O, _ => s
  | S n', String _ s' => substring_from n' s'
  | S _, EmptyString => EmptyString
  end.

(** Substring test, for reading what a published text mentions. *)
Fixpoint is_prefix_of (p s : string) : bool :=
  match p, s with
  | EmptyString, _ => true
  | String a p', String b s' => bool_decide (a = b) && is_prefix_of p' s'
  | String _ _, EmptyString => false
  end.

Fixpoint mentions (needle s : string) : bool :=
  is_prefix_of needle s ||
  match s with
  | EmptyString => false
  | String _ s' => mentions needle s'
  end.

(** ** Numbers *)

(** [Math.round]: the nearest integer, a tie going up. *)
Definition Math_round (x : Q) : Z := Qfloor (x + (1 # 2))%Q.

(** [x.toFixed(2)]: the sign, then the multiple of 1/100 nearest to the
    magnitude, a tie going up, printed with two decimals. *)
Definition two_digits (n : Z) : string :=
  if n <? 10 then "0" +:+ pretty n else pretty n.

Definition toFixed2 (x : Q) : string :=
  let n := Qfloor (Qabs x * 100 + (1 # 2))%Q in
  (if Qlt_le_dec x 0 then "-" else "") +:+
  pretty (n / 100) +:+ "." +:+ two_digits (n mod 100).

(** A number or [null] or [undefined], as the version fields hold. *)
Inductive jsnum : Type :=
| Undefined
| Null
| Num (n : Z).

(** ** Devices *)

Record Endpoint : Type := {
  ep_ID : Z;
  inputClusters : list string;
  outputClusters : list string }.

Definition supportsInputCluster (c : string) (e : Endpoint) : bool :=
  bool_decide (c ∈ inputClusters e).

Definition supportsOutputCluster (c : string) (e : Endpoint) : bool :=
  bool_decide (c ∈ outputClusters e).

(** [device.definition], with [ota] telling whether an OTA provider is given. *)
Record DeviceDefinition : Type := { ota : bool }.

Record Device : Type := {
  ieeeAddr : string;
  name : string;
  definition : option DeviceDefinition;
  endpoints : list Endpoint }.

(** ** The update record and the published payload *)

Inductive UpdateState : Type := updating | idle | available.

#[global] Instance UpdateState_eq_dec : EqDecision UpdateState.
Proof. solve_decision. Defined.

Record Update : Type := {
  progress : option Q;
  remaining : option Z;
  state : UpdateState;
  installed_version : jsnum;
  latest_version : jsnum }.

Record UpdatePayload : Type := {
  update_available : option bool;
  update : Update }.

Record OtaUpdateAvailableResult : Type := {
  res_available : bool;
  currentFileVersion : Z;
  otaFileVersion : Z }.

(** ** Messages on the bus and from devices *)

(** The parsed body of a bus message, [utils.parseJSON(data.message,
    data.message)]: an object, with its [id] and [transaction] members when
    it has them; [null]; or any other value, kept by its text. *)
Inductive Message : Type :=
| MsgObject (id : option string) (transaction : option string)
| MsgNull
| MsgText (s : string).

Record MQTTMessage : Type := {
  topic : string;
  message : Message }.

(** The image information a device sends with its request. *)
Record ImageInfo : Type := {
  imageType : Z;
  manufacturerCode : Z;
  fileVersion : Z }.

(** [eventdata.DeviceMessage]; [dm_tsn] is
    [data.meta.zclTransactionSequenceNumber]. *)
Record DeviceMessage : Type := {
  dm_type : string;
  dm_device : Device;
  dm_endpoint : Endpoint;
  dm_data : ImageInfo;
  dm_tsn : Z }.

(** What [readSoftwareBuildIDAndDateCode] returns when the read succeeds. *)
Record BuildInfo : Type := {
  softwareBuildID : string;
  dateCode : string }.

(** The result of reading [dateCode] and [swBuildId] from [genBasic]. *)
Record BasicAttributes : Type := {
  attr_swBuildId : string;
  attr_dateCode : string }.

(** [responseData]: [from] and [to] are absent until the update path sets
    them, to [null] ([Some None]) or to the build information. *)
Record ResponseData : Type := {
  id : Message;
  updateAvailable : option bool;
  from : option (option BuildInfo);
  to : option (option BuildInfo) }.

Record MQTTResponse : Type := {
  data : ResponseData;
  status : string;
  error : option string;
  transaction : option string }.

(** The body of a [bridge/log] message of type [ota_update]. *)
Inductive LogText : Type :=
| Text (s : string)
| RequestBody (m : Message).

Inductive MetaExtra : Type :=
| NoExtra
| MetaProgress (p : Q)
| MetaFromTo (from_ to_ : option BuildInfo).

Record OtaLogMeta : Type := {
  meta_status : string;
  meta_device : string;
  meta_extra : MetaExtra }.

Inductive MqttPayload : Type :=
| OtaUpdateLog (text : LogText) (meta : OtaLogMeta)
| ResponseBody (r : MQTTResponse).

(** ** Awaited calls *)

Inductive request : Type :=
| IsUpdateAvailable (d : Device) (hint : option ImageInfo)
| UpdateToLatest (d : Device)
| EndpointRead (d : Device) (e : Endpoint) (sendPolicy : option string)
| ReadSkipped (d : Device)
| CommandResponse (e : Endpoint) (status : Z) (tsn : Z)
| MqttPublish (topic : string) (payload : MqttPayload).

Definition reply (c : request) : Type :=
  match c with
  | IsUpdateAvailable _ _ => OtaUpdateAvailableResult
  | UpdateToLatest _ => Z
  | EndpointRead _ _ _ => BasicAttributes
  | ReadSkipped _ => unit
  | CommandResponse _ _ _ => unit
  | MqttPublish _ _ => unit
  end.

(** A thrown [Error]. *)
Record JsError : Type := {
  err_name : string;
  err_message : string;
  err_stack : option string }.

(** [String(e)] of an [Error]: the name alone when the message is empty,
    the message alone when the name is. *)
Definition err_toString (e : JsError) : string :=
  if bool_decide (err_name e = "") then err_message e
  else if bool_decide (err_message e = "") then err_name e
  else err_name e +:+ ": " +:+ err_message e.

Inductive result (A : Type) : Type :=
| Resolved (a : A)
| Rejected (e : JsError).

Arguments Resolved {A} a.
Arguments Rejected {A} e.

(** ** The state of the extension and what it emits *)

Inductive LogLevel : Type := LDebug | LInfo | LError.

Inductive Event : Type :=
| Logged (level : LogLevel) (text : string)
| Published (topic : string) (payload : MqttPayload)
| EntityState (d : Device) (payload : UpdatePayload)
| Reconfigure (d : Device)
| DevicesChanged
| Called (c : request)
| Thrown (name : string).

(** [inProgress] and [lastChecked] are the fields of the class; [stateStore]
    is the [update] member of each device's entry of [this.state], by the
    device's [ieeeAddr]; [now] is what [Date.now()] returns; [out] lists
    what was emitted, oldest first. *)
Record World : Type := {
  inProgress : gset string;
  lastChecked : gmap string Z;
  stateStore : gmap string Update;
  now : Z;
  out : list Event }.

Definition set_inProgress (f : gset string → gset string) (w : World) : World :=
  {| inProgress := f (inProgress w); lastChecked := lastChecked w;
     stateStore := stateStore w; now := now w; out := out w |}.

Definition set_lastChecked (f : gmap string Z → gmap string Z) (w : World) : World :=
  {| inProgress := inProgress w; lastChecked := f (lastChecked w);
     stateStore := stateStore w; now := now w; out := out w |}.

Definition set_stateStore (f : gmap string Update → gmap string Update) (w : World) : World :=
  {| inProgress := inProgress w; lastChecked := lastChecked w;
     stateStore := f (stateStore w); now := now w; out := out w |}.

Definition set_now (t : Z) (w : World) : World :=
  {| inProgress := inProgress w; lastChecked := lastChecked w;
     stateStore := stateStore w; now := t; out := out w |}.

Definition emit (e : Event) (w : World) : World :=
  {| inProgress := inProgress w; lastChecked := lastChecked w;
     stateStore := stateStore w; now := now w; out := out w ++ [e] |}.

Definition log (level : LogLevel) (text : string) : World → World :=
  emit (Logged level text).

(** [if (b) this.mqtt.publish(topic, payload)], the publication not being
    awaited. *)
Definition publish_when (b : bool) (topic : string) (payload : MqttPayload)
    (w : World) : World :=
  {| inProgress := inProgress w; lastChecked := lastChecked w;
     stateStore := stateStore w; now := now w;
     out := out w ++ (if b then [Published topic payload] else []) |}.

(** ** Handlers as trees *)

(** [Await c onProgress k] suspends on the call [c]; while it is pending
    the callee may invoke [onProgress] any number of times. *)
Inductive prog : Type :=
| Done
| Get (k : World → prog)
| Modify (f : World → World) (k : prog)
| Await (c : request) (onProgress : option (Q → option Q → World → World))
        (k : result (reply c) → prog).

(** Run to the next await; the call started there is recorded. *)
Fixpoint sync (p : prog) (w : World) : World * prog :=
  match p with
  | Done => (w, Done)
  | Get k => sync (k w) w
  | Modify f k => sync k (f w)
  | Await c _ _ => (emit (Called c) w, p)
  end.

(** ** Configuration *)

(** The members of [settings.get()] that the extension reads. *)
Record Settings : Type := {
  mqtt_base_topic : string;
  advanced_legacy_api : bool;
  ota_disable_automatic_update_check : bool;
  ota_update_check_interval : Z }.

(** Modelled from the spec: [utils.getResponse] is not part of this file.
    Section 6 gives the response body as [{ data, status: 'ok'|'error',
    error? }], and section 4.2 has it echo the correlation id of the
    request. *)
Definition getResponse (request : Message) (data : ResponseData)
    (error : option string) : MQTTResponse :=
  {| data := data;
     status := match error with Some _ => "error" | None => "ok" end;
     error := error;
     transaction :=
       match request with MsgObject _ t => t | _ => None end |}.

(** Modelled from the spec: [publishEntityState] belongs to the controller,
    not to this file.  Sections 4.1 and 6 have it merge the payload into the
    device's stored state and publish it: the members the payload has
    replace the stored ones, the others stay. *)
Definition merge_update (payload : Update) (stored : option Update) : Update :=
  {| progress :=
       match progress payload with
       | Some p => Some p
       | None => stored ≫= progress
       end;
     remaining :=
       match remaining payload with
       | Some r => Some r
       | None => stored ≫= remaining
       end;
     state := state payload;
     installed_version := installed_version payload;
     latest_version := latest_version payload |}.

Definition publishEntityState (device : Device) (payload : UpdatePayload)
    (w : World) : World :=
  emit (EntityState device payload)
    (set_stateStore
       (fun s => <[ieeeAddr device := merge_update (update payload) (s !! ieeeAddr device)]> s)
       w).

Definition quoted (s : string) : string :=
  String "034"%char (s +:+ String "034"%char EmptyString).

(** [stringify] of what [readSoftwareBuildIDAndDateCode] returned; the two
    texts are taken to need no escaping. *)
Definition stringify_info (i : option BuildInfo) : string :=
  match i with
  | None => "null"
  | Some b =>
      "{" +:+ quoted "dateCode" +:+ ":" +:+ quoted (dateCode b) +:+ "," +:+
      quoted "softwareBuildID" +:+ ":" +:+ quoted (softwareBuildID b) +:+ "}"
  end.

(** ** The texts of the log entries, errors and notifications *)

Definition requestedText (device : Device) : string :=
  "Device '" +:+ name device +:+ "' requested OTA".

Definition checkFailedText (device : Device) (e : JsError) : string :=
  "Failed to check if update available for '" +:+ name device +:+
  "' (" +:+ err_message e +:+ ")".

Definition updateAvailableText (device : Device) : string :=
  "Update available for '" +:+ name device +:+ "'".

Definition respondedText (device : Device) : string :=
  "Responded to OTA request of '" +:+ name device +:+
  "' with 'NO_IMAGE_AVAILABLE'".

Definition doesNotExistText (ID : string) : string :=
  "Device '" +:+ ID +:+ "' does not exist".

Definition notSupportedText (device : Device) : string :=
  "Device '" +:+ name device +:+ "' does not support OTA updates".

Definition inProgressText (device : Device) : string :=
  "Update or check for update already in progress for '" +:+
  name device +:+ "'".

Definition checkingText (device : Device) : string :=
  "Checking if update available for '" +:+ name device +:+ "'".

Definition availabilityText (device : Device) (available_ : bool) : string :=
  (if available_ then "Update" else "No update") +:+
  " available for '" +:+ name device +:+ "'".

Definition updatingText (device : Device) : string :=
  "Updating '" +:+ name device +:+ "' to latest firmware".

Definition progressText (device : Device) (progress_ : Q)
    (remaining_ : option Q) : string :=
  "Update of '" +:+ name device +:+ "' at " +:+ toFixed2 progress_ +:+ "%" +:+
  match remaining_ with
  | Some r =>
      if Qeq_bool r 0 then ""
      else ", ≈ " +:+ pretty (Math_round (r / 60)) +:+ " minutes remaining"
  | None => ""
  end.

Definition finishedText (device : Device) : string :=
  "Finished update of '" +:+ name device +:+ "'".

Definition updatedText (device : Device) (from_ to_ : option BuildInfo) : string :=
  "Device '" +:+ name device +:+ "' was updated from '" +:+
  stringify_info from_ +:+ "' to '" +:+ stringify_info to_ +:+ "'".

Definition updateFailedText (device : Device) (e : JsError) : string :=
  "Update of '" +:+ name device +:+ "' failed (" +:+ err_message e +:+ ")".

Definition updateFailedDebugText (device : Device) (e : JsError) : string :=
  "Update of '" +:+ name device +:+ "' failed (" +:+ err_toString e +:+ ")".

Definition responseTopic (type : string) : string :=
  "bridge/response/device/ota_update/" +:+ type.

(** The state argument of the payload builder: an availability result or
    one of the three state names. *)
Inductive StateArg : Type :=
| OfResult (r : OtaUpdateAvailableResult)
| OfState (s : UpdateState).

Section OTAUpdate.

(** The settings are read as one fixed record, and [zigbee.resolveEntity]
    as a function giving the device a key names, if it names one. *)
Variable cfg : Settings.
Variable resolveEntity : string → option Device.
Context {engine : Regex.Engine}.

(** The two patterns are built from the base topic, which goes into their
    source as it is.  A base topic of plain text stands for itself there,
    and the pattern is read here; any other gives a source whose meaning is
    the runtime's. *)
Definition legacyTopicRegex : Regex.compiled :=
  if Regex.plain_source (mqtt_base_topic cfg) then
    Regex.Parsed
      {| Regex.body :=
           Regex.Seq (Regex.Lit (mqtt_base_topic cfg +:+ "/bridge/ota_update/"))
                     Regex.AnyPlus;
         Regex.end_anchored := true;
         Regex.ignore_case := false |}
  else
    Regex.Unparsed ("^" +:+ mqtt_base_topic cfg +:+ "/bridge/ota_update/.+$")
      false.

Definition topicRegex : Regex.compiled :=
  if Regex.plain_source (mqtt_base_topic cfg) then
    Regex.Parsed
      {| Regex.body :=
           Regex.Seq
             (Regex.Lit
                (mqtt_base_topic cfg +:+ "/bridge/request/device/ota_update/"))
             (Regex.Alt (Regex.Lit "update") (Regex.Lit "check"));
         Regex.end_anchored := false;
         Regex.ignore_case := true |}
  else
    Regex.Unparsed
      ("^" +:+ mqtt_base_topic cfg
       +:+ "/bridge/request/device/ota_update/(update|check)")
      true.

Definition legacyApi : bool := advanced_legacy_api cfg.

(** *** [start]: the recovery loop over the known devices *)

Definition clearProgress (u : Update) : Update :=
  {| progress := None; remaining := None; state := state u;
     installed_version := installed_version u;
     latest_version := latest_version u |}.

Definition removeProgressAndRemainingFromState (device : Device) : World → World :=
  set_stateStore (alter clearProgress (ieeeAddr device)).

Definition resetUpdating (u : Update) : Update :=
  match state u with
  | updating =>
      {| progress := progress u; remaining := remaining u; state := available;
         installed_version := installed_version u;
         latest_version := latest_version u |}
  | _ => u
  end.

Definition start_device (w : World) (device : Device) : World :=
  set_stateStore (alter resetUpdating (ieeeAddr device))
    (removeProgressAndRemainingFromState device w).

Definition start (devices : list Device) (w : World) : World :=
  foldl start_device w devices.

(** *** [getEntityPublishPayload] *)

Definition getEntityPublishPayload (w : World) (device : Device)
    (st : StateArg) (progress_ : option Q) (remaining_ : option Q) : UpdatePayload :=
  let deviceUpdateState := stateStore w !! ieeeAddr device in
  {| update :=
       {| state :=
            match st with
            | OfState s => s
            | OfResult r => if res_available r then available else idle
            end;
          installed_version :=
            match st with
            | OfState _ =>
                match deviceUpdateState with
                | Some u => installed_version u
                | None => Undefined
                end
            | OfResult r => Num (currentFileVersion r)
            end;
          latest_version :=
            match st with
            | OfState _ =>
                match deviceUpdateState with
                | Some u => latest_version u
                | None => Undefined
                end
            | OfResult r => Num (otaFileVersion r)
            end;
          progress := progress_;
          remaining := Math_round <$> remaining_ |};
     update_available :=
       if legacyApi then
         Some match st with
              | OfState s => bool_decide (s = available)
              | OfResult r => res_available r
              end
       else None |}.

Definition publishState (device : Device) (st : StateArg)
    (progress_ remaining_ : option Q) (w : World) : World :=
  publishEntityState device
    (getEntityPublishPayload w device st progress_ remaining_) w.

Definition otaLog (text : LogText) (status_ : string) (device : Device)
    (extra : MetaExtra) : World → World :=
  publish_when (advanced_legacy_api cfg) "bridge/log"
    (OtaUpdateLog text
       {| meta_status := status_; meta_device := name device;
          meta_extra := extra |}).

(** *** [onZigbeeEvent] *)

Definition supportsOTA (device : Device) : bool :=
  match definition device with
  | Some d => ota d
  | None => false
  end.

(** The closing response, status [0x98] (NO_IMAGE_AVAILABLE). *)
Definition respondNoImage (data : DeviceMessage) : prog :=
  let endpoint :=
    default (dm_endpoint data)
      (find (supportsOutputCluster "genOta") (endpoints (dm_device data))) in
  Await (CommandResponse endpoint 152 (dm_tsn data)) None
    (fun r =>
       match r with
       | Resolved _ =>
           Modify (log LDebug (respondedText (dm_device data))) Done
       | Rejected _ => Done
       end).

Definition afterAutomaticCheck (data : DeviceMessage)
    (r : result OtaUpdateAvailableResult) : prog :=
  let device := dm_device data in
  let availableResult :=
    match r with Resolved a => Some a | Rejected _ => None end in
  Modify
    (match r with
     | Resolved _ => fun w => w
     | Rejected e =>
         log LDebug (checkFailedText device e)
     end)
    (Modify
       (publishState device
          (match availableResult with
           | Some a => OfResult a
           | None => OfState idle
           end) None None)
       (if match availableResult with
           | Some a => res_available a
           | None => false
           end
        then
          let message_ := updateAvailableText device in
          Modify (log LInfo message_)
            (Modify (otaLog (Text message_) "available" device NoExtra)
               (respondNoImage data))
        else respondNoImage data)).

(** The interval in milliseconds, and the rate limit: [check] is true
    when the device was never checked, or longer ago than the interval. *)
Definition updateCheckInterval : Z :=
  ota_update_check_interval cfg * 1000 * 60.

Definition check (w : World) (device : Device) : bool :=
  match lastChecked w !! ieeeAddr device with
  | Some t => updateCheckInterval <? now w - t
  | None => true
  end.

(** The signals the handler does not return from at once. *)
Definition handled (w : World) (data : DeviceMessage) : bool :=
  negb (negb (bool_decide (dm_type data = "commandQueryNextImageRequest"))
        || negb (bool_decide (is_Some (definition (dm_device data))))
        || bool_decide (ieeeAddr (dm_device data) ∈ inProgress w)).

Definition onZigbeeEvent (data : DeviceMessage) : prog :=
  Get (fun w =>
    if negb (handled w data) then Done
    else
      Modify (log LDebug (requestedText (dm_device data)))
        (let automaticOTACheckDisabled := ota_disable_automatic_update_check cfg in
         if supportsOTA (dm_device data) && negb automaticOTACheckDisabled then
           Get (fun w =>
             if negb (check w (dm_device data)) then Done
             else
               Modify (fun w => set_lastChecked
                                  (<[ieeeAddr (dm_device data) := now w]>) w)
                 (Await (IsUpdateAvailable (dm_device data) (Some (dm_data data)))
                    None (afterAutomaticCheck data)))
         else respondNoImage data)).

(** *** [onMQTTMessage] *)

(** [typeof message === 'object' && message.hasOwnProperty('id') ?
    message.id : message].  On [null], whose type is ['object'] too, the
    call of [hasOwnProperty] throws: see [is_null]. *)
Definition request_id (m : Message) : Message :=
  match m with
  | MsgObject (Some i) _ => MsgText i
  | _ => m
  end.

Definition is_null (m : Message) : bool :=
  match m with MsgNull => true | _ => false end.

(** The TypeError of [message.hasOwnProperty] on [null]: the handler ends
    there, nothing of what follows runs. *)
Definition throwTypeError : prog :=
  Modify (emit (Thrown "TypeError")) Done.

(** [zigbee.resolveEntity(ID)] when it gives a [Device]. *)
Definition resolve (ID : Message) : option Device :=
  match ID with
  | MsgText s => resolveEntity s
  | MsgObject _ _ => None
  | MsgNull => None
  end.

(** An identifier inside a template literal. *)
Definition id_text (ID : Message) : string :=
  match ID with
  | MsgText s => s
  | MsgObject _ _ => "[object Object]"
  | MsgNull => "null"
  end.

Definition request_type (data : MQTTMessage) : string :=
  substring_from (Z.to_nat (lastIndexOf "/" (topic data) + 1)) (topic data).

Definition truthy (s : option string) : bool :=
  match s with
  | Some t => negb (bool_decide (t = ""))
  | None => false
  end.

Definition accepted (data : MQTTMessage) : bool :=
  negb ((negb legacyApi || negb (Regex.matches legacyTopicRegex (topic data)))
        && negb (Regex.matches topicRegex (topic data))).

(** The end of the handler: the response, unless the request came on the
    legacy topic, then the error log. *)
Definition logError (error_ errorStack : option string) : prog :=
  if truthy error_ then
    Modify (log LError (default "" error_))
      (if truthy errorStack then
         Modify (log LDebug (default "" errorStack)) Done
       else Done)
  else Done.

Definition respond (data : MQTTMessage) (responseData : ResponseData)
    (error_ errorStack : option string) : prog :=
  let triggeredViaLegacyApi := Regex.matches legacyTopicRegex (topic data) in
  if negb triggeredViaLegacyApi then
    Await (MqttPublish (responseTopic (request_type data))
             (ResponseBody (getResponse (message data) responseData error_)))
      None
      (fun r =>
         match r with
         | Resolved _ => logError error_ errorStack
         | Rejected _ => Done
         end)
  else logError error_ errorStack.

Definition release (device : Device) : World → World :=
  set_inProgress (fun s => s ∖ {[ieeeAddr device]}).

Definition responseOf (data : MQTTMessage) : ResponseData :=
  {| id := request_id (message data); updateAvailable := None;
     from := None; to := None |}.

(** The check branch after its await. *)
Definition afterCheck (data : MQTTMessage) (device : Device)
    (r : result OtaUpdateAvailableResult) : prog :=
  match r with
  | Resolved availableResult =>
      let msg := availabilityText device (res_available availableResult) in
      Modify (log LInfo msg)
        (Modify (otaLog (Text msg)
                   (if res_available availableResult
                    then "available" else "not_available") device NoExtra)
           (Modify (publishState device (OfResult availableResult) None None)
              (Modify (fun w => set_lastChecked (<[ieeeAddr device := now w]>) w)
                 (Modify (release device)
                    (respond data
                       {| id := request_id (message data);
                          updateAvailable := Some (res_available availableResult);
                          from := None; to := None |}
                       None None)))))
  | Rejected e =>
      let error_ := checkFailedText device e in
      Modify (otaLog (Text error_) "check_failed" device NoExtra)
        (Modify (release device)
           (respond data (responseOf data) (Some error_) (err_stack e)))
  end.

Definition checkBranch (data : MQTTMessage) (device : Device) : prog :=
  let msg := checkingText device in
  Modify (log LInfo msg)
    (Modify (otaLog (Text msg) "checking_if_available" device NoExtra)
       (Await (IsUpdateAvailable device None) None (afterCheck data device))).

(** [readSoftwareBuildIDAndDateCode]: [null] when no endpoint has
    [genBasic] (the call on [undefined] throws inside the [try]) or when
    the read fails. *)
Definition readSoftwareBuildIDAndDateCode (device : Device)
    (sendPolicy : option string) (k : option BuildInfo → prog) : prog :=
  match find (supportsInputCluster "genBasic") (endpoints device) with
  | Some endpoint =>
      Await (EndpointRead device endpoint sendPolicy) None
        (fun r =>
           match r with
           | Resolved result_ =>
               k (Some {| softwareBuildID := attr_swBuildId result_;
                          dateCode := attr_dateCode result_ |})
           | Rejected _ => k None
           end)
  | None => Await (ReadSkipped device) None (fun _ => k None)
  end.

Definition onProgress (device : Device) (progress_ : Q)
    (remaining_ : option Q) (w : World) : World :=
  let msg := progressText device progress_ remaining_ in
  otaLog (Text msg) "update_progress" device (MetaProgress progress_)
    (publishState device (OfState updating) (Some progress_) remaining_
       (log LInfo msg w)).

(** The [catch] of the update branch. *)
Definition updateFailed (data : MQTTMessage) (device : Device) (e : JsError) : prog :=
  let error_ := updateFailedText device e in
  Modify (log LDebug (updateFailedDebugText device e))
    (Modify (removeProgressAndRemainingFromState device)
       (Modify (publishState device (OfState available) None None)
          (Modify (otaLog (Text error_) "update_failed" device NoExtra)
             (Modify (release device)
                (respond data (responseOf data) (Some error_) (err_stack e)))))).

(** The update branch once the second identity read has returned. *)
Definition afterSecondRead (data : MQTTMessage) (device : Device)
    (from_ to_ : option BuildInfo) : prog :=
  Modify (log LInfo (updatedText device from_ to_))
    (Modify (emit DevicesChanged)
       (Modify (otaLog (RequestBody (message data)) "update_succeeded" device
                  (MetaFromTo from_ to_))
          (Modify (release device)
             (respond data
                {| id := request_id (message data); updateAvailable := None;
                   from := Some from_; to := Some to_ |}
                None None)))).

(** The update branch once [updateToLatest] has returned. *)
Definition afterUpdate (data : MQTTMessage) (device : Device)
    (from_ : option BuildInfo) (r : result Z) : prog :=
  match r with
  | Resolved fileVersion_ =>
      Modify (log LInfo (finishedText device))
        (Modify (emit (Reconfigure device))
           (Modify (removeProgressAndRemainingFromState device)
              (Modify (publishState device
                         (OfResult {| res_available := false;
                                      currentFileVersion := fileVersion_;
                                      otaFileVersion := fileVersion_ |})
                         None None)
                 (readSoftwareBuildIDAndDateCode device None
                    (afterSecondRead data device from_)))))
  | Rejected e => updateFailed data device e
  end.

Definition afterFirstRead (data : MQTTMessage) (device : Device)
    (from_ : option BuildInfo) : prog :=
  Await (UpdateToLatest device) (Some (onProgress device))
    (afterUpdate data device from_).

Definition updateBranch (data : MQTTMessage) (device : Device) : prog :=
  let msg := updatingText device in
  Modify (log LInfo msg)
    (Modify (otaLog (Text msg) "update_in_progress" device NoExtra)
       (readSoftwareBuildIDAndDateCode device (Some "immediate")
          (afterFirstRead data device))).

Definition onMQTTMessage (data : MQTTMessage) : prog :=
  if negb (accepted data) then Done
  else if is_null (message data) then throwTypeError
  else
    let ID := request_id (message data) in
    match resolve ID with
    | None =>
        respond data (responseOf data)
          (Some (doesNotExistText (id_text ID))) None
    | Some device =>
        if negb (supportsOTA device) then
          let error_ := notSupportedText device in
          Modify (otaLog (Text error_) "not_supported" device NoExtra)
            (respond data (responseOf data) (Some error_) None)
        else
          Get (fun w =>
            if bool_decide (ieeeAddr device ∈ inProgress w) then
              respond data (responseOf data)
                (Some (inProgressText device)) None
            else
              Modify (set_inProgress (fun s => {[ieeeAddr device]} ∪ s))
                (if bool_decide (request_type data = "check")
                 then checkBranch data device
                 else updateBranch data device))
    end.

End OTAUpdate.

(** ** Running handlers *)

(** An environment settles the awaited calls: [answer n c] is how the
    [n]-th awaited call [c] of a run ends, [reports n] the progress the
    callee reports while it is pending, [elapsed n] the time it takes. *)
Record Env : Type := {
  answer : nat → ∀ c : request, result (reply c);
  reports : nat → list (Q * option Q);
  elapsed : nat → N }.

Definition deliver (onProgress_ : Q → option Q → World → World)
    (l : list (Q * option Q)) (w : World) : World :=
  foldl (fun w pr => onProgress_ (fst pr) (snd pr) w) w l.

(** One handler run to its end, alone. *)
Fixpoint run (env : Env) (n : nat) (p : prog) (w : World) : World :=
  match p with
  | Done => w
  | Get k => run env n (k w) w
  | Modify f k => run env n k (f w)
  | Await c onProgress_ k =>
      let w1 :=
        match onProgress_ with
        | Some f => deliver f (reports env n) (emit (Called c) w)
        | None => emit (Called c) w
        end in
      let w2 := set_now (now w1 + Z.of_N (elapsed env n)) w1 in
      run env (S n) (k (answer env n c)) w2
  end.

(** The device a suspended handler holds the lock of: it is between the
    insertion into [inProgress] and the removal exactly when it waits for
    the availability query of a request, for one of the two identity reads,
    or for the update. *)
Definition holder (p : prog) : option string :=
  match p with
  | Await (IsUpdateAvailable d None) _ _ => Some (ieeeAddr d)
  | Await (UpdateToLatest d) _ _ => Some (ieeeAddr d)
  | Await (EndpointRead d _ _) _ _ => Some (ieeeAddr d)
  | Await (ReadSkipped d) _ _ => Some (ieeeAddr d)
  | _ => None
  end.

(** What was emitted after the first [n] events. *)
Definition since (n : nat) (w : World) : list Event := drop n (out w).

Definition count (P : Event → bool) (l : list Event) : nat :=
  length (List.filter P l).

Definition is_query (e : Event) : bool :=
  match e with Called (IsUpdateAvailable _ _) => true | _ => false end.

Definition is_query_of (a : string) (e : Event) : bool :=
  match e with
  | Called (IsUpdateAvailable d _) => bool_decide (ieeeAddr d = a)
  | _ => false
  end.

Definition is_entity_state (e : Event) : bool :=
  match e with EntityState _ _ => true | _ => false end.

Definition is_reconfigure_of (a : string) (e : Event) : bool :=
  match e with Reconfigure d => bool_decide (ieeeAddr d = a) | _ => false end.

Definition is_reconfigure (e : Event) : bool :=
  match e with Reconfigure _ => true | _ => false end.

Definition is_devices_changed (e : Event) : bool :=
  match e with DevicesChanged => true | _ => false end.

Definition is_no_image_response (e : Event) : bool :=
  match e with Called (CommandResponse _ 152 _) => true | _ => false end.

Definition is_response (e : Event) : bool :=
  match e with Called (MqttPublish _ (ResponseBody _)) => true | _ => false end.

(** The responses sent to the requester. *)
Definition responses (l : list Event) : list (string * MQTTResponse) :=
  omap (fun e =>
          match e with
          | Called (MqttPublish t (ResponseBody r)) => Some (t, r)
          | _ => None
          end) l.

(** The payloads published as device state. *)
Definition entity_states (l : list Event) : list (string * UpdatePayload) :=
  omap (fun e =>
          match e with
          | EntityState d p => Some (ieeeAddr d, p)
          | _ => None
          end) l.

(** The device's stored versions, as the builder reads them. *)
Definition stored_installed (w : World) (device : Device) : jsnum :=
  match stateStore w !! ieeeAddr device with
  | Some u => installed_version u
  | None => Undefined
  end.

Definition stored_latest (w : World) (device : Device) : jsnum :=
  match stateStore w !! ieeeAddr device with
  | Some u => latest_version u
  | None => Undefined
  end.

(** What start-up makes of a stored record. *)
Definition recovered (u : Update) : Update :=
  {| progress := None; remaining := None;
     state := match state u with updating => available | s => s end;
     installed_version := installed_version u;
     latest_version := latest_version u |}.

(** The action a request was dispatched to, read off the call its handler
    waits for first: the availability query of a request for a check, the
    first identity read for an update. *)
Inductive Action : Type := CheckAction | UpdateAction.

Definition dispatched (p : prog) : option Action :=
  match p with
  | Await (IsUpdateAvailable _ None) _ _ => Some CheckAction
  | Await (EndpointRead _ _ (Some _)) _ _ => Some UpdateAction
  | Await (ReadSkipped _) _ _ => Some UpdateAction
  | _ => None
  end.

(** What the progress reports of a pending call emitted. *)
Definition reported (onProgress_ : Q → option Q → World → World)
    (l : list (Q * option Q)) (w : World) : list Event :=
  drop (length (out w)) (out (deliver onProgress_ l w)).

Definition is_report_event (e : Event) : bool :=
  match e with
  | Logged LInfo _ => true
  | EntityState _ p => bool_decide (state (update p) = updating)
  | Published _ (OtaUpdateLog _ _) => true
  | _ => false
  end.

(** What an identity read of a run gives: [null] when no endpoint has
    [genBasic] or when the read, the [n]-th call of the run, fails. *)
Definition identity_read (env : Env) (n : nat) (device : Device)
    (sendPolicy : option string) : option BuildInfo :=
  match find (supportsInputCluster "genBasic") (endpoints device) with
  | Some e =>
      match answer env n (EndpointRead device e sendPolicy) with
      | Resolved r =>
          Some {| softwareBuildID := attr_swBuildId r;
                  dateCode := attr_dateCode r |}
      | Rejected _ => None
      end
  | None => None
  end.

(** Whether some response sent to the requester carries the text [needle]
    in its error. *)
Definition requester_receives (needle : string) (l : list Event) : bool :=
  existsb (fun tr =>
             match error (snd tr) with
             | Some e => mentions needle e
             | None => false
             end) (responses l).

(** Whether a call to the OTA provider or to the device was started. *)
Definition is_provider_call (e : Event) : bool :=
  match e with
  | Called (IsUpdateAvailable _ _) => true
  | Called (UpdateToLatest _) => true
  | Called (EndpointRead _ _ _) => true
  | _ => false
  end.

(** How a handler that holds the lock of [h] (of no device when [None])
    may leave the set of busy devices [s] at its next await, where it holds
    [h']: it takes the lock of a free device, keeps what it holds, or
    releases it. *)
Definition lock_step (h : option string) (s s' : gset string)
    (h' : option string) : Prop :=
  match h, h' with
  | None, None => s' = s
  | None, Some a => (a ∉ s) ∧ s' = {[a]} ∪ s
  | Some a, Some b => a = b ∧ s' = s
  | Some a, None => s' = s ∖ {[a]}
  end.

(** [p], entered holding [h], obeys [lock_step] up to its next await. *)
Definition segment (h : option string) (p : prog) : Prop :=
  ∀ w, lock_step h (inProgress w) (inProgress (fst (sync p w)))
         (holder (snd (sync p w))).

(** Every await of [p] is followed by a segment that obeys [lock_step], and
    its progress callback leaves the set of busy devices alone. *)
Fixpoint disciplined (p : prog) : Prop :=
  match p with
  | Done => True
  | Get k => ∀ w, disciplined (k w)
  | Modify _ k => disciplined k
  | Await c onProgress_ k =>
      (∀ f p r w, onProgress_ = Some f → inProgress (f p r w) = inProgress w)
      ∧ (∀ r, segment (holder (Await c onProgress_ k)) (k r))
      ∧ (∀ r, disciplined (k r))
  end.

Section Scheduler.

Variable cfg : Settings.
Variable resolveEntity : string → option Device.
Context {engine : Regex.Engine}.

(** The world and the suspended handlers. *)
Record System : Type := {
  world : World;
  pool : list prog }.

Definition spawn (p : prog) (s : System) : System :=
  {| world := fst (sync p (world s));
     pool := pool s ++ [snd (sync p (world s))] |}.

Definition resume (i : nat) (p : prog) (s : System) : System :=
  {| world := fst (sync p (world s));
     pool := <[i := snd (sync p (world s))]> (pool s) |}.

Inductive step : System → System → Prop :=
| step_mqtt s data :
    step s (spawn (onMQTTMessage cfg resolveEntity data) s)
| step_zigbee s data :
    step s (spawn (onZigbeeEvent cfg data) s)
| step_settle s i c f k (r : result (reply c)) :
    pool s !! i = Some (Await c f k) →
    step s (resume i (k r) s)
| step_progress s i c f k p r :
    pool s !! i = Some (Await c (Some f) k) →
    step s {| world := f p r (world s); pool := pool s |}
| step_clock s t :
    now (world s) ≤ t →
    step s {| world := set_now t (world s); pool := pool s |}.

(** A freshly constructed extension: nothing in progress, no handler. *)
Definition initial (s : System) : Prop :=
  inProgress (world s) = ∅ ∧ pool s = [].

Definition reachable (s : System) : Prop :=
  ∃ s0, initial s0 ∧ rtc step s0 s.

(** The lock the [i]-th suspended handler holds. *)
Definition held (s : System) (i : nat) : option string :=
  (pool s !! i) ≫= holder.

(** The suspended handlers that hold the lock of the device [a]. *)
Definition holders (a : string) (s : System) : list nat :=
  filter (fun i => held s i = Some a) (seq 0 (length (pool s))).

(** The invariant of the scheduler: every suspended handler is
    disciplined, no two hold the lock of one device, and the busy devices
    are those whose lock is held. *)
Definition invariant (s : System) : Prop :=
  (∀ i p, pool s !! i = Some p → disciplined p)
  ∧ (∀ i j a, held s i = Some a → held s j = Some a → i = j)
  ∧ (∀ a, a ∈ inProgress (world s) ↔ (∃ i, held s i = Some a)).

End Scheduler.

(** ** Further observations *)

(** No line terminator in [s]. *)
Fixpoint single_line (s : string) : bool :=
  match s with
  | EmptyString => true
  | String _ s' => negb (Regex.line_terminator_at s) && single_line s'
  end.

(** Whether the character [c] occurs in [s]. *)
Definition occurs (c : ascii) (s : string) : bool :=
  existsb (fun a => bool_decide (a = c)) (list_ascii_of_string s).

Definition is_update_call (e : Event) : bool :=
  match e with Called (UpdateToLatest _) => true | _ => false end.

(** The statuses of the notifications published on [bridge/log]. *)
Definition log_statuses (l : list Event) : list string :=
  omap (fun e =>
          match e with
          | Published t (OtaUpdateLog _ meta) =>
              if bool_decide (t = "bridge/log") then Some (meta_status meta)
              else None
          | _ => None
          end) l.

(** The requester is answered once, on the response topic of the type of
    the request and with the request's identifier; a request that came on
    the legacy topic is not answered. *)
Definition answered_once `{Regex.Engine} (cfg : Settings) (req : MQTTMessage)
    (evs : list Event) : Prop :=
  ∃ r : MQTTResponse,
    id (data r) = request_id (message req)
    ∧ responses evs
      = if Regex.matches (legacyTopicRegex cfg) (topic req) then []
        else [(responseTopic (request_type req), r)].

(** ** Sample data *)

Module Sample.

(** The runtime of the samples; their base topic is plain text, so it is
    never asked. *)
Definition engine : Regex.Engine :=
  {| Regex.foreign := fun _ _ _ => false;
     Regex.foreign_ignores_case := fun _ _ _ _ => eq_refl |}.

Definition cfg : Settings :=
  {| mqtt_base_topic := "zigbee2mqtt";
     advanced_legacy_api := false;
     ota_disable_automatic_update_check := false;
     ota_update_check_interval := 1440 |}.

Definition cfg_legacy : Settings :=
  {| mqtt_base_topic := "zigbee2mqtt";
     advanced_legacy_api := true;
     ota_disable_automatic_update_check := false;
     ota_update_check_interval := 1440 |}.

Definition ep1 : Endpoint :=
  {| ep_ID := 1; inputClusters := ["genBasic"]; outputClusters := ["genOta"] |}.

Definition bulb : Device :=
  {| ieeeAddr := "0x000b57fffec6a5b2"; name := "bulb";
     definition := Some {| ota := true |}; endpoints := [ep1] |}.

Definition plug : Device :=
  {| ieeeAddr := "0x00124b0001ce4beb"; name := "plug";
     definition := Some {| ota := true |}; endpoints := [ep1] |}.

Definition directory (key : string) : option Device :=
  if bool_decide (key = "bulb") || bool_decide (key = ieeeAddr bulb) then Some bulb
  else if bool_decide (key = "plug") || bool_decide (key = ieeeAddr plug) then Some plug
  else None.

Definition record (s : UpdateState) (p : option Q) (r : option Z) : Update :=
  {| progress := p; remaining := r; state := s;
     installed_version := Num 5; latest_version := Num 7 |}.

(** A world at rest: the bulb has an update pending. *)
Definition rest : World :=
  {| inProgress := ∅; lastChecked := ∅;
     stateStore := {[ieeeAddr bulb := record available None None]};
     now := 1700000000000; out := [] |}.

(** The bulb is being updated by some earlier request. *)
Definition busy : World :=
  {| inProgress := {[ieeeAddr bulb]}; lastChecked := ∅;
     stateStore := {[ieeeAddr bulb := record updating (Some (12 # 1)%Q) (Some 340)]};
     now := 1700000000000; out := [] |}.

(** The bulb was checked five minutes ago. *)
Definition checked : World :=
  {| inProgress := ∅;
     lastChecked := {[ieeeAddr bulb := 1700000000000 - 5 * 60 * 1000]};
     stateStore := {[ieeeAddr bulb := record idle None None]};
     now := 1700000000000; out := [] |}.

Definition timeout_error : JsError :=
  {| err_name := "Error"; err_message := "timeout";
     err_stack := Some "Error: timeout at Endpoint.read (endpoint.js:1)" |}.

Definition check_request : MQTTMessage :=
  {| topic := "zigbee2mqtt/bridge/request/device/ota_update/check";
     message := MsgObject (Some "bulb") None |}.

Definition update_request : MQTTMessage :=
  {| topic := "zigbee2mqtt/bridge/request/device/ota_update/update";
     message := MsgObject (Some "bulb") None |}.

Definition checking_request : MQTTMessage :=
  {| topic := "zigbee2mqtt/bridge/request/device/ota_update/checking";
     message := MsgObject (Some "bulb") None |}.

Definition signal : DeviceMessage :=
  {| dm_type := "commandQueryNextImageRequest"; dm_device := bulb;
     dm_endpoint := ep1;
     dm_data := {| imageType := 8705; manufacturerCode := 4476; fileVersion := 5 |};
     dm_tsn := 17 |}.

(** Every call succeeds: an update from 5 to 7 is available, the update
    installs version 7, the reads give a build. *)
Definition succeed (c : request) : result (reply c) :=
  match c with
  | IsUpdateAvailable _ _ =>
      Resolved {| res_available := true; currentFileVersion := 5;
                  otaFileVersion := 7 |}
  | UpdateToLatest _ => Resolved 7
  | EndpointRead _ _ _ =>
      Resolved {| attr_swBuildId := "2.3.086"; attr_dateCode := "20211130" |}
  | ReadSkipped _ => Resolved ()
  | CommandResponse _ _ _ => Resolved ()
  | MqttPublish _ _ => Resolved ()
  end.

(** The provider fails; the reads and the bus work. *)
Definition fail (c : request) : result (reply c) :=
  match c with
  | IsUpdateAvailable _ _ => Rejected timeout_error
  | UpdateToLatest _ => Rejected timeout_error
  | c => succeed c
  end.

Definition env_ok : Env :=
  {| answer := fun _ => succeed;
     reports := fun _ => [((25 # 2)%Q, Some (3401 # 10)%Q); (50 # 1, None)];
     elapsed := fun _ => 2000%N |}.

Definition env_fail : Env :=
  {| answer := fun _ => fail;
     reports := fun _ => [((25 # 2)%Q, Some (3401 # 10)%Q)];
     elapsed := fun _ => 2000%N |}.

(** A sensor without OTA support, and a directory that knows it. *)
Definition sensor : Device :=
  {| ieeeAddr := "0x00158d0001a2b3c4"; name := "sensor";
     definition := Some {| ota := false |}; endpoints := [] |}.

Definition directory_with_sensor (key : string) : option Device :=
  if bool_decide (key = "sensor") then Some sensor else directory key.


Definition sensor_request : MQTTMessage :=
  {| topic := "zigbee2mqtt/bridge/request/device/ota_update/update";
     message := MsgObject (Some "sensor") None |}.

Definition legacy_check_request : MQTTMessage :=
  {| topic := "zigbee2mqtt/bridge/ota_update/check";
     message := MsgText "bulb" |}.

Definition shouted_topic : string :=
  "ZIGBEE2MQTT/BRIDGE/REQUEST/DEVICE/OTA_UPDATE/CHECK".

(** A message of the bulb that is no request for an image. *)
Definition report : DeviceMessage :=
  {| dm_type := "attributeReport"; dm_device := bulb; dm_endpoint := ep1;
     dm_data := {| imageType := 0; manufacturerCode := 0; fileVersion := 0 |};
     dm_tsn := 18 |}.

End Sample.

(** * Properties *)

#[local] Arguments deliver : simpl never.
#[local] Arguments reported : simpl never.
#[local] Arguments Regex.matches : simpl never.
#[local] Arguments request_type : simpl never.
#[local] Arguments String.append : simpl never.
#[local] Arguments pretty : simpl never.
#[local] Arguments toFixed2 : simpl never.
#[local] Arguments truthy : simpl never.

(** ** Running a handler, one step at a time *)

Section Execution.

Variable cfg : Settings.

Lemma Math_round_nearest (x : Q) :
  (Qabs (inject_Z (Math_round x) - x) <= 1 # 2)%Q.
Proof.
  unfold Math_round.
  pose proof (Qfloor_le (x + (1 # 2))) as Hle.
  pose proof (Qlt_floor (x + (1 # 2))) as Hlt.
  rewrite inject_Z_plus in Hlt. change (inject_Z 1) with 1%Q in Hlt.
  apply Qabs_case; intros _; lra.
Qed.

Lemma recovered_once (u : Update) :
  resetUpdating (clearProgress u) = recovered u.
Proof. destruct u as [p r [] i l]; reflexivity. Qed.

Lemma recovered_twice (u : Update) : recovered (recovered u) = recovered u.
Proof. destruct u as [p r [] i l]; reflexivity. Qed.

Lemma resolved_not_null (f : string → option Device) (m : Message)
    (d : Device) :
  resolve f (request_id m) = Some d → is_null m = false.
Proof. by destruct m. Qed.

Lemma char_eq_refl (i : bool) (c : ascii) : Regex.char_eq i c c = true.
Proof. unfold Regex.char_eq. by apply bool_decide_eq_true. Qed.

Lemma lit_strip_app (i : bool) (p s : string) :
  Regex.lit_strip i p (p +:+ s) = Some s.
Proof.
  induction p as [|c p IH]; simpl; [reflexivity|].
  by rewrite char_eq_refl.
Qed.

Lemma run_Done env n w : run env n Done w = w.
Proof. reflexivity. Qed.

Lemma run_Get env n k w : run env n (Get k) w = run env n (k w) w.
Proof. reflexivity. Qed.

Lemma run_Modify env n f k w : run env n (Modify f k) w = run env n k (f w).
Proof. reflexivity. Qed.

Lemma run_Await env n c k w :
  run env n (Await c None k) w
  = run env (S n) (k (answer env n c))
      (set_now (now w + Z.of_N (elapsed env n)) (emit (Called c) w)).
Proof. reflexivity. Qed.

Lemma run_Await_progress env n c f k w :
  run env n (Await c (Some f) k) w
  = run env (S n) (k (answer env n c))
      (set_now (now (deliver f (reports env n) (emit (Called c) w))
                + Z.of_N (elapsed env n))
         (deliver f (reports env n) (emit (Called c) w))).
Proof. reflexivity. Qed.

Lemma sync_Done w : sync Done w = (w, Done).
Proof. reflexivity. Qed.

Lemma sync_Get k w : sync (Get k) w = sync (k w) w.
Proof. reflexivity. Qed.

Lemma sync_Modify f k w : sync (Modify f k) w = sync k (f w).
Proof. reflexivity. Qed.

Lemma sync_Await c f k w :
  sync (Await c f k) w = (emit (Called c) w, Await c f k).
Proof. reflexivity. Qed.

Lemma truthy_text (c : ascii) (s t : string) :
  truthy (Some (String c s +:+ t)) = true.
Proof. reflexivity. Qed.

Lemma truthy_checkFailedText device e :
  truthy (Some (checkFailedText device e)) = true.
Proof. reflexivity. Qed.

Lemma truthy_updateFailedText device e :
  truthy (Some (updateFailedText device e)) = true.
Proof. reflexivity. Qed.

Lemma truthy_doesNotExistText ID : truthy (Some (doesNotExistText ID)) = true.
Proof. reflexivity. Qed.

Lemma truthy_notSupportedText device :
  truthy (Some (notSupportedText device)) = true.
Proof. reflexivity. Qed.

Lemma truthy_inProgressText device :
  truthy (Some (inProgressText device)) = true.
Proof. reflexivity. Qed.

Lemma truthy_false (s : string) : truthy (Some s) = false → s = "".
Proof.
  unfold truthy. intros H. apply negb_false_iff in H.
  by apply bool_decide_eq_true in H.
Qed.

Lemma deliver_cons f p r l w :
  deliver f ((p, r) :: l) w = deliver f l (f p r w).
Proof. reflexivity. Qed.

Lemma deliver_inProgress device l w :
  inProgress (deliver (onProgress cfg device) l w) = inProgress w.
Proof.
  revert w. induction l as [|[p r] l IH]; intros w; [reflexivity|].
  rewrite deliver_cons, IH. reflexivity.
Qed.

Lemma deliver_lastChecked device l w :
  lastChecked (deliver (onProgress cfg device) l w) = lastChecked w.
Proof.
  revert w. induction l as [|[p r] l IH]; intros w; [reflexivity|].
  rewrite deliver_cons, IH. reflexivity.
Qed.

Lemma deliver_now device l w :
  now (deliver (onProgress cfg device) l w) = now w.
Proof.
  revert w. induction l as [|[p r] l IH]; intros w; [reflexivity|].
  rewrite deliver_cons, IH. reflexivity.
Qed.

Lemma onProgress_out device p r w :
  ∃ evs : list Event,
    out (onProgress cfg device p r w) = out w ++ evs
    ∧ Forall (fun e => is_report_event e = true) evs.
Proof.
  unfold onProgress, otaLog. cbn. eexists. rewrite <- !app_assoc.
  split; [reflexivity|].
  destruct (advanced_legacy_api cfg); repeat constructor.
Qed.

Lemma deliver_out_reports device l w :
  ∃ evs : list Event,
    out (deliver (onProgress cfg device) l w) = out w ++ evs
    ∧ Forall (fun e => is_report_event e = true) evs.
Proof.
  revert w. induction l as [|[p r] l IH]; intros w.
  - exists []. split; [symmetry; apply app_nil_r | constructor].
  - rewrite deliver_cons.
    destruct (IH (onProgress cfg device p r w)) as (evs & -> & Hevs).
    destruct (onProgress_out device p r w) as (evs' & -> & Hevs').
    exists (evs' ++ evs). split; [by rewrite app_assoc | by apply Forall_app].
Qed.

Lemma count_app (P : Event → bool) (l1 l2 : list Event) :
  count P (l1 ++ l2) = (count P l1 + count P l2)%nat.
Proof. unfold count. by rewrite List.filter_app, length_app. Qed.

Lemma count_none (P : Event → bool) (l : list Event) :
  Forall (fun e => P e = false) l → count P l = 0%nat.
Proof.
  unfold count. induction 1 as [|e l He _ IH]; [reflexivity|].
  cbn [List.filter]. by rewrite He.
Qed.

Lemma count_cons (P : Event → bool) (e : Event) (l : list Event) :
  count P (e :: l) = ((if P e then 1 else 0) + count P l)%nat.
Proof. unfold count. cbn [List.filter]. by destruct (P e). Qed.

Lemma count_nil (P : Event → bool) : count P [] = 0%nat.
Proof. reflexivity. Qed.

Lemma lock_cycle (a : string) (s : gset string) :
  a ∉ s → ({[a]} ∪ s) ∖ {[a]} = s.
Proof.
  intros Ha. apply set_eq. intros x.
  rewrite elem_of_difference, elem_of_union, elem_of_singleton.
  split; [intros [[->|?] ?]; done | intros ?; split; [by right | congruence]].
Qed.

Lemma since_app (w w' : World) (evs : list Event) :
  out w' = out w ++ evs → since (length (out w)) w' = evs.
Proof. unfold since. intros ->. apply drop_app_length. Qed.

Lemma payload_of_state (w : World) (device : Device) (s : UpdateState)
    (p r : option Q) :
  getEntityPublishPayload cfg w device (OfState s) p r
  = {| update_available :=
         if advanced_legacy_api cfg then Some (bool_decide (s = available))
         else None;
       update :=
         {| progress := p; remaining := Math_round <$> r; state := s;
            installed_version := stored_installed w device;
            latest_version := stored_latest w device |} |}.
Proof. reflexivity. Qed.

Lemma onProgress_store device p r w a :
  stateStore (onProgress cfg device p r w) !! a
  = if decide (ieeeAddr device = a)
    then Some (merge_update
                 {| progress := Some p; remaining := Math_round <$> r;
                    state := updating;
                    installed_version := stored_installed w device;
                    latest_version := stored_latest w device |}
                 (stateStore w !! ieeeAddr device))
    else stateStore w !! a.
Proof.
  unfold onProgress. cbn [stateStore otaLog publish_when publishState
                          publishEntityState emit set_stateStore log].
  rewrite lookup_insert. case_decide; reflexivity.
Qed.

Lemma onProgress_versions device p r w :
  stored_installed (onProgress cfg device p r w) device = stored_installed w device
  ∧ stored_latest (onProgress cfg device p r w) device = stored_latest w device.
Proof.
  unfold stored_installed at 1, stored_latest at 1.
  rewrite onProgress_store, decide_True by reflexivity. auto.
Qed.

(** What the reports of a pending update leave behind: entries in the
    log and published states, all with state [updating]; the versions of
    the device's record and everything else are as before. *)
Lemma deliver_spec device l w :
  ∃ evs : list Event,
    Forall (fun e => is_report_event e = true) evs
    ∧ out (deliver (onProgress cfg device) l w) = out w ++ evs
    ∧ inProgress (deliver (onProgress cfg device) l w) = inProgress w
    ∧ lastChecked (deliver (onProgress cfg device) l w) = lastChecked w
    ∧ now (deliver (onProgress cfg device) l w) = now w
    ∧ stored_installed (deliver (onProgress cfg device) l w) device
      = stored_installed w device
    ∧ stored_latest (deliver (onProgress cfg device) l w) device
      = stored_latest w device
    ∧ (∀ a, a ≠ ieeeAddr device →
         stateStore (deliver (onProgress cfg device) l w) !! a
         = stateStore w !! a).
Proof.
  destruct (deliver_out_reports device l w) as (evs & Hout & Hevs).
  exists evs. split; [exact Hevs|]. split; [exact Hout|].
  split; [apply deliver_inProgress|]. split; [apply deliver_lastChecked|].
  split; [apply deliver_now|].
  clear. revert w. induction l as [|[p r] l IH]; intros w; [by auto|].
  rewrite deliver_cons.
  destruct (IH (onProgress cfg device p r w)) as (-> & -> & Hother).
  destruct (onProgress_versions device p r w) as [-> ->].
  split; [reflexivity|]. split; [reflexivity|].
  intros a Ha. rewrite Hother by done.
  rewrite onProgress_store. by rewrite decide_False.
Qed.

Lemma count_reports (P : Event → bool) (evs : list Event) :
  (∀ e, is_report_event e = true → P e = false) →
  Forall (fun e => is_report_event e = true) evs →
  count P evs = 0%nat.
Proof.
  intros HP Hevs. apply count_none. eapply Forall_impl; [exact Hevs|exact HP].
Qed.

Lemma responses_reports (evs : list Event) :
  Forall (fun e => is_report_event e = true) evs → responses evs = [].
Proof.
  induction 1 as [|e evs He _ IH]; [reflexivity|].
  unfold responses in *. cbn [omap list_omap]. rewrite IH.
  by destruct e as [| | | | |[]|].
Qed.

Lemma responses_app (l1 l2 : list Event) :
  responses (l1 ++ l2) = responses l1 ++ responses l2.
Proof. apply omap_app. Qed.

Lemma entity_states_app (l1 l2 : list Event) :
  entity_states (l1 ++ l2) = entity_states l1 ++ entity_states l2.
Proof. apply omap_app. Qed.

Lemma report_not_reconfigure e : is_report_event e = true → is_reconfigure e = false.
Proof. by destruct e. Qed.

Lemma report_not_devices_changed e :
  is_report_event e = true → is_devices_changed e = false.
Proof. by destruct e. Qed.

Lemma report_not_reconfigure_of a e :
  is_report_event e = true → is_reconfigure_of a e = false.
Proof. by destruct e. Qed.

(** The record left by the [catch] of the update branch. *)
Lemma rolled_back_record device w :
  stateStore
    (publishState cfg device (OfState available) None None
       (removeProgressAndRemainingFromState device w)) !! ieeeAddr device
  = Some {| progress := None; remaining := None; state := available;
            installed_version := stored_installed w device;
            latest_version := stored_latest w device |}.
Proof.
  unfold publishState, publishEntityState.
  cbn [stateStore emit set_stateStore]. rewrite lookup_insert_eq.
  rewrite payload_of_state. unfold merge_update, stored_installed, stored_latest.
  cbn [stateStore removeProgressAndRemainingFromState set_stateStore
       update progress remaining state installed_version latest_version].
  rewrite lookup_alter_eq.
  by destruct (stateStore w !! ieeeAddr device).
Qed.

(** The record left by a successful update to version [v]. *)
Lemma updated_record device v w :
  stateStore
    (publishState cfg device
       (OfResult {| res_available := false; currentFileVersion := v;
                    otaFileVersion := v |}) None None
       (removeProgressAndRemainingFromState device w)) !! ieeeAddr device
  = Some {| progress := None; remaining := None; state := idle;
            installed_version := Num v; latest_version := Num v |}.
Proof.
  unfold publishState, publishEntityState.
  cbn [stateStore emit set_stateStore]. rewrite lookup_insert_eq.
  unfold merge_update, getEntityPublishPayload.
  cbn [stateStore removeProgressAndRemainingFromState set_stateStore
       update progress remaining state installed_version latest_version
       res_available currentFileVersion otaFileVersion fmap option_fmap option_map].
  rewrite lookup_alter_eq.
  by destruct (stateStore w !! ieeeAddr device).
Qed.

Lemma payload_after_clear device st p r w :
  getEntityPublishPayload cfg (removeProgressAndRemainingFromState device w)
    device st p r
  = getEntityPublishPayload cfg w device st p r.
Proof.
  unfold getEntityPublishPayload.
  cbn [stateStore removeProgressAndRemainingFromState set_stateStore].
  rewrite lookup_alter_eq.
  by destruct (stateStore w !! ieeeAddr device).
Qed.

End Execution.

(** ** Tactics that execute a handler *)

Ltac step :=
  repeat progress
    (rewrite ?run_Modify, ?run_Get, ?run_Done, ?run_Await, ?run_Await_progress,
             ?sync_Modify, ?sync_Get, ?sync_Done, ?sync_Await;
     cbn [negb]; cbv beta iota zeta).

(** Case analysis on whatever the next step depends on. *)
Ltac exec env :=
  repeat (step;
          match goal with
          | H : answer env ?n ?c = _ |- context [answer env ?n ?c] => rewrite H
          | |- context [answer env ?n ?c] => destruct (answer env n c) eqn:?
          | |- context [truthy (Some (checkFailedText ?d ?e))] =>
              rewrite (truthy_checkFailedText d e)
          | |- context [truthy (Some (updateFailedText ?d ?e))] =>
              rewrite (truthy_updateFailedText d e)
          | |- context [truthy (Some (doesNotExistText ?i))] =>
              rewrite (truthy_doesNotExistText i)
          | |- context [truthy (Some (notSupportedText ?d))] =>
              rewrite (truthy_notSupportedText d)
          | |- context [truthy (Some (inProgressText ?d))] =>
              rewrite (truthy_inProgressText d)
          | |- context [truthy None] => change (truthy None) with false
          | |- context [truthy ?c] => destruct (truthy c) eqn:?
          | |- context [Regex.matches ?a ?c] => destruct (Regex.matches a c)
          | |- context [find ?f ?l] => destruct (find f l)
          | |- context [res_available ?a] => destruct (res_available a)
          end);
  step.

(** Name the world a run ends in, to execute the run once. *)
Ltac name_run :=
  match goal with
  | |- context [run ?e ?n ?p ?w] =>
      let x := fresh "w'" in
      let H := fresh "Hrun" in
      remember (run e n p w) as x eqn:H; symmetry in H; revert H
  end.

Ltac trace :=
  cbn [out inProgress lastChecked stateStore now emit log set_now
       set_lastChecked set_stateStore set_inProgress publish_when otaLog
       publishState publishEntityState removeProgressAndRemainingFromState
       release];
  repeat match goal with
         | H : advanced_legacy_api _ = _ |- _ => rewrite H
         end;
  rewrite <- ?app_assoc.

Ltac since_is := erewrite since_app by (trace; reflexivity).

(** Enter the branch of a dispatched request. *)
Ltac dispatch Hacc Hres Hota Hfree :=
  unfold onMQTTMessage;
  rewrite Hacc, (resolved_not_null _ _ _ Hres), Hres, Hota; step;
  rewrite bool_decide_eq_false_2 by exact Hfree; step.

(** Replace the world the progress reports left by its description. *)
Ltac delivered :=
  match goal with
  | |- context [deliver (onProgress ?c ?d) ?l ?W] =>
      let Wd := fresh "Wd" in
      let evs := fresh "evs" in
      let Hevs := fresh "Hevs" in
      let Hout := fresh "Hout" in
      let Hlock := fresh "Hlock" in
      let Hchecked := fresh "Hchecked" in
      let Hnow := fresh "Hnow" in
      let Hinst := fresh "Hinst" in
      let Hlatest := fresh "Hlatest" in
      let Hother := fresh "Hother" in
      destruct (deliver_spec c d l W)
        as (evs & Hevs & Hout & Hlock & Hchecked & Hnow & Hinst & Hlatest & Hother);
      set (Wd := deliver (onProgress c d) l W) in *;
      clearbody Wd;
      unfold stored_installed, stored_latest in Hinst, Hlatest;
      cbn [out inProgress lastChecked stateStore now emit log set_now
           set_lastChecked set_stateStore set_inProgress publish_when otaLog]
        in Hout, Hlock, Hchecked, Hnow, Hinst, Hlatest, Hother
  end.

Ltac fields :=
  cbn [out inProgress lastChecked stateStore now emit log set_now
       set_lastChecked set_stateStore set_inProgress publish_when otaLog
       release].

Ltac all_fields :=
  cbn [out inProgress lastChecked stateStore now emit log set_now
       set_lastChecked set_stateStore set_inProgress publish_when otaLog
       release publishState publishEntityState
       removeProgressAndRemainingFromState].

(** The events since the request, as an explicit list around the
    reports [evs]. *)
Ltac since_reports :=
  erewrite since_app
    by (all_fields;
        match goal with H : out _ = _ ++ _ |- _ => rewrite H end;
        repeat match goal with
               | H : advanced_legacy_api _ = _ |- _ => rewrite H
               end;
        rewrite <- ?app_assoc; reflexivity);
  cbn [app].

(** Find an event in an explicit list of events. *)
Ltac find_event :=
  repeat first [ apply list_elem_of_here
               | apply list_elem_of_further
               | rewrite elem_of_app; right ].

Ltac count_reports_in Hnot Hevs :=
  rewrite ?count_cons, ?count_app, ?count_cons, ?count_nil;
  rewrite (count_reports _ _ Hnot Hevs);
  reflexivity.

Section Properties.

Variable cfg : Settings.
Variable resolveEntity : string → option Device.
Context {engine : Regex.Engine}.

(** ** The payload builder *)

(** C8: the payload builder returns the state and the two versions (a
    state name carries the stored versions over, an availability result
    gives [available] or [idle] and its own versions); [progress] is there
    exactly when a progress was given, [remaining] exactly when a
    remaining time was given, and then it is that time rounded to the
    nearest integer; [update_available] is there exactly under the legacy
    setting and tells whether an update is available.  The builder only
    reads the device's stored record: worlds that agree on it give the
    same payload. *)
Theorem payload_builder_shape (w : World) (device : Device) (st : StateArg)
    (progress_ remaining_ : option Q) :
  let p := getEntityPublishPayload cfg w device st progress_ remaining_ in
  match st with
  | OfState s =>
      state (update p) = s
      ∧ installed_version (update p) = stored_installed w device
      ∧ latest_version (update p) = stored_latest w device
  | OfResult r =>
      state (update p) = (if res_available r then available else idle)
      ∧ installed_version (update p) = Num (currentFileVersion r)
      ∧ latest_version (update p) = Num (otaFileVersion r)
  end
  ∧ progress (update p) = progress_
  ∧ (is_Some (remaining (update p)) ↔ is_Some remaining_)
  ∧ (∀ r, remaining_ = Some r →
       remaining (update p) = Some (Math_round r)
       ∧ (Qabs (inject_Z (Math_round r) - r) <= 1 # 2)%Q)
  ∧ (is_Some (update_available p) ↔ advanced_legacy_api cfg = true)
  ∧ (∀ b, update_available p = Some b →
       (b = true ↔
        match st with
        | OfState s => s = available
        | OfResult r => res_available r = true
        end))
  ∧ (∀ w', stateStore w' !! ieeeAddr device = stateStore w !! ieeeAddr device →
       getEntityPublishPayload cfg w' device st progress_ remaining_ = p).
Proof.
  cbv zeta. unfold getEntityPublishPayload, stored_installed, stored_latest, legacyApi.
  split; [destruct st; simpl; auto|].
  split; [reflexivity|].
  split; [simpl; destruct remaining_; simpl; split; intros [? ?]; eauto; discriminate|].
  split; [intros r ->; simpl; split; [reflexivity | apply Math_round_nearest]|].
  split.
  { simpl. destruct (advanced_legacy_api cfg); split; intros H; eauto;
      try discriminate; destruct H; discriminate. }
  split.
  { simpl. intros b. destruct (advanced_legacy_api cfg); [|discriminate].
    intros [= <-]. destruct st; simpl; [tauto|].
    rewrite bool_decide_eq_true. tauto. }
  intros w' ->. reflexivity.
Qed.

(** ** Start-up recovery *)

Lemma start_device_lookup (w : World) (device : Device) (a : string) :
  stateStore (start_device w device) !! a =
  if decide (ieeeAddr device = a) then recovered <$> stateStore w !! a
  else stateStore w !! a.
Proof.
  unfold start_device, removeProgressAndRemainingFromState. simpl.
  destruct (decide (ieeeAddr device = a)) as [<-|Hne].
  - rewrite !lookup_alter_eq.
    destruct (stateStore w !! ieeeAddr device); simpl; [|reflexivity].
    by rewrite recovered_once.
  - by rewrite !lookup_alter_ne.
Qed.

Lemma start_lookup (devices : list Device) (w : World) (a : string) :
  stateStore (start devices w) !! a =
  if decide (a ∈ ieeeAddr <$> devices) then recovered <$> stateStore w !! a
  else stateStore w !! a.
Proof.
  unfold start. revert w. induction devices as [|d ds IH]; intros w.
  - rewrite decide_False; [reflexivity|]. rewrite fmap_nil. apply not_elem_of_nil.
  - cbn [foldl]. rewrite IH, start_device_lookup, fmap_cons.
    destruct (decide (ieeeAddr d = a)) as [->|Hne].
    + rewrite (decide_True (P := _ ∈ _ :: _)) by apply list_elem_of_here.
      case_decide; [|reflexivity].
      destruct (stateStore w !! _); simpl; [|reflexivity].
      by rewrite recovered_twice.
    + destruct (decide (a ∈ ieeeAddr <$> ds)) as [Hin|Hout].
      * rewrite decide_True by (by apply list_elem_of_further). reflexivity.
      * rewrite decide_False; [reflexivity|].
        rewrite elem_of_cons. intros [?|?]; congruence.
Qed.

Lemma start_keeps_rest (devices : list Device) (w : World) :
  inProgress (start devices w) = inProgress w
  ∧ lastChecked (start devices w) = lastChecked w
  ∧ out (start devices w) = out w.
Proof.
  unfold start. revert w. induction devices as [|d ds IH]; intros w; simpl.
  - auto.
  - destruct (IH (start_device w d)) as (-> & -> & ->). auto.
Qed.

(** C6: on start-up the stored record of every known device loses
    [progress] and [remaining]; its state becomes [available] when it was
    [updating] and is kept otherwise; the versions are kept, and so are
    the records of all other devices. *)
Theorem start_recovers (devices : list Device) (w : World) :
  (∀ device, device ∈ devices →
     stateStore (start devices w) !! ieeeAddr device =
     recovered <$> stateStore w !! ieeeAddr device)
  ∧ (∀ device u, device ∈ devices →
       stateStore (start devices w) !! ieeeAddr device = Some u →
       progress u = None ∧ remaining u = None ∧ state u ≠ updating)
  ∧ (∀ a, a ∉ ieeeAddr <$> devices →
       stateStore (start devices w) !! a = stateStore w !! a).
Proof.
  split; [|split].
  - intros device Hin. rewrite start_lookup.
    rewrite decide_True; [reflexivity|]. by apply list_elem_of_fmap_2.
  - intros device u Hin. rewrite start_lookup.
    rewrite decide_True by (by apply list_elem_of_fmap_2).
    destruct (stateStore w !! ieeeAddr device) as [v|]; simpl; [|discriminate].
    intros [= <-]. destruct v as [p r [] i l]; simpl; auto.
  - intros a Hout. rewrite start_lookup. by rewrite decide_False.
Qed.

(** ** Topics and dispatch *)

(** ** The lock is released *)

Lemma run_respond_inProgress env n data rd err stack w :
  inProgress (run env n (respond cfg data rd err stack) w) = inProgress w.
Proof. unfold respond, logError. exec env; reflexivity. Qed.

Lemma run_dispatched_inProgress env n data device w :
  ieeeAddr device ∉ inProgress w →
  inProgress
    (run env n
       (Modify (set_inProgress (fun s => {[ieeeAddr device]} ∪ s))
          (if bool_decide (request_type data = "check")
           then checkBranch cfg data device
           else updateBranch cfg data device)) w)
  = inProgress w.
Proof.
  intros Hfree. case_bool_decide.
  - unfold checkBranch, afterCheck.
    exec env; rewrite run_respond_inProgress; cbn; by apply lock_cycle.
  - unfold updateBranch, readSoftwareBuildIDAndDateCode, afterFirstRead,
      afterUpdate, updateFailed, afterSecondRead,
      readSoftwareBuildIDAndDateCode.
    exec env; rewrite run_respond_inProgress; cbn;
      rewrite ?deliver_inProgress; cbn; by apply lock_cycle.
Qed.

(** C2: whatever the provider, the device and the bus answer, when the
    handler of a request has finished the set of busy devices is what it
    was before the request; in particular the device of a dispatched
    request, which was not in the set, is not left in it. *)
Theorem lock_released (env : Env) (n : nat) (data : MQTTMessage) (w : World) :
  (∀ device,
     accepted cfg data = true →
     resolve resolveEntity (request_id (message data)) = Some device →
     supportsOTA device = true →
     ieeeAddr device ∉ inProgress w →
     ieeeAddr device
     ∉ inProgress (run env n (onMQTTMessage cfg resolveEntity data) w))
  ∧ inProgress (run env n (onMQTTMessage cfg resolveEntity data) w)
    = inProgress w.
Proof.
  assert (inProgress (run env n (onMQTTMessage cfg resolveEntity data) w)
          = inProgress w) as Heq.
  { unfold onMQTTMessage.
    destruct (accepted cfg data); [|reflexivity].
    destruct (is_null (message data)); [reflexivity|].
    destruct (resolve _ _) as [device|]; cbn [negb];
      [|apply run_respond_inProgress].
    destruct (supportsOTA device); cbn [negb]; step;
      [|by rewrite run_respond_inProgress].
    case_bool_decide as Hbusy; [apply run_respond_inProgress|].
    by apply run_dispatched_inProgress. }
  split; [|exact Heq].
  intros device _ _ _ Hfree. by rewrite Heq.
Qed.

(** ** A check that fails *)

(** C9, amended: when the availability query of a request for a check
    fails, no device state is published, the time of the last check and
    the stored records stay as they were, and the lock is released.  The
    requester, unless the request came on the legacy topic, is sent one
    response of status [error] whose text embeds the message of the
    failure; the stack of the failure is not in it: it goes to the debug
    log, the last entry logged, once the response is out. *)
Theorem failed_check_leaves_state (env : Env) (n : nat)
    (data : MQTTMessage) (device : Device) (e : JsError) (w : World) :
  accepted cfg data = true →
  resolve resolveEntity (request_id (message data)) = Some device →
  supportsOTA device = true →
  ieeeAddr device ∉ inProgress w →
  request_type data = "check" →
  answer env n (IsUpdateAvailable device None) = Rejected e →
  let w' := run env n (onMQTTMessage cfg resolveEntity data) w in
  let error_ := checkFailedText device e in
  let response :=
    MqttPublish (responseTopic "check")
      (ResponseBody (getResponse (message data) (responseOf data) (Some error_))) in
  entity_states (since (length (out w)) w') = []
  ∧ lastChecked w' = lastChecked w
  ∧ stateStore w' = stateStore w
  ∧ inProgress w' = inProgress w
  ∧ responses (since (length (out w)) w')
    = (if Regex.matches (legacyTopicRegex cfg) (topic data) then []
       else [(responseTopic "check",
              getResponse (message data) (responseOf data) (Some error_))])
  ∧ (∀ stack,
       err_stack e = Some stack → stack ≠ "" →
       Regex.matches (legacyTopicRegex cfg) (topic data) = true
       ∨ answer env (S n) response = Resolved () →
       last (since (length (out w)) w') = Some (Logged LDebug stack)).
Proof.
  intros Hacc Hres Hota Hfree Htype Hfail. cbv zeta.
  destruct (advanced_legacy_api cfg) eqn:Hlegacy.
  all: name_run; dispatch Hacc Hres Hota Hfree.
  all: rewrite bool_decide_eq_true_2 by done.
  all: unfold checkBranch, afterCheck, respond, logError; rewrite Htype.
  all: destruct (Regex.matches (legacyTopicRegex cfg) (topic data)).
  all: exec env.
  all: intros <-.
  all: (split; [since_is; reflexivity|]).
  all: (split; [reflexivity|]).
  all: (split; [reflexivity|]).
  all: (split; [by apply lock_cycle|]).
  all: (split; [since_is; reflexivity|]).
  all: intros stack Hstack Hne Hsent.
  all: try (destruct Hsent; discriminate).
  all: try match goal with
           | H : truthy (err_stack _) = false |- _ =>
               rewrite Hstack in H; apply truthy_false in H; contradiction
           end.
  all: since_is; rewrite Hstack; reflexivity.
Qed.

(** ** An update that fails *)

(** C5, amended: when the update fails at the provider, [progress] and
    [remaining] are cleared from the device's record, the state published
    last is [available] with the versions the record had before the
    request, no reconfigure and no devices-changed event is emitted, and
    the lock is released.  The requester, unless the request came on the
    legacy topic, is sent one response of status [error] whose text embeds
    the message of the failure; the stack of the failure is not in it: it
    goes to the debug log, the last entry logged, once the response is
    out. *)
Theorem failed_update_rolls_back (env : Env) (n : nat)
    (data : MQTTMessage) (device : Device) (e : JsError) (w : World) :
  accepted cfg data = true →
  resolve resolveEntity (request_id (message data)) = Some device →
  supportsOTA device = true →
  ieeeAddr device ∉ inProgress w →
  request_type data ≠ "check" →
  answer env (S n) (UpdateToLatest device) = Rejected e →
  let w' := run env n (onMQTTMessage cfg resolveEntity data) w in
  let rolled_back :=
    {| progress := None; remaining := None; state := available;
       installed_version := stored_installed w device;
       latest_version := stored_latest w device |} in
  stateStore w' !! ieeeAddr device = Some rolled_back
  ∧ last (entity_states (since (length (out w)) w'))
    = Some (ieeeAddr device,
            {| update_available :=
                 if advanced_legacy_api cfg then Some true else None;
               update := rolled_back |})
  ∧ count is_reconfigure (since (length (out w)) w') = 0%nat
  ∧ count is_devices_changed (since (length (out w)) w') = 0%nat
  ∧ inProgress w' = inProgress w
  ∧ responses (since (length (out w)) w')
    = (if Regex.matches (legacyTopicRegex cfg) (topic data) then []
       else [(responseTopic (request_type data),
              getResponse (message data) (responseOf data)
                (Some (updateFailedText device e)))])
  ∧ (∀ stack,
       err_stack e = Some stack → stack ≠ "" →
       Regex.matches (legacyTopicRegex cfg) (topic data) = true
       ∨ answer env (S (S n))
           (MqttPublish (responseTopic (request_type data))
              (ResponseBody
                 (getResponse (message data) (responseOf data)
                    (Some (updateFailedText device e))))) = Resolved () →
       last (since (length (out w)) w') = Some (Logged LDebug stack)).
Proof.
  intros Hacc Hres Hota Hfree Htype Hfail. cbv zeta.
  destruct (advanced_legacy_api cfg) eqn:Hlegacy.
  all: name_run; dispatch Hacc Hres Hota Hfree.
  all: rewrite bool_decide_eq_false_2 by done.
  all: unfold updateBranch, readSoftwareBuildIDAndDateCode, afterFirstRead,
         afterUpdate, updateFailed, respond, logError.
  all: destruct (Regex.matches (legacyTopicRegex cfg) (topic data)).
  all: exec env.
  all: intros <-; delivered.
  all: (split;
        [fields; rewrite rolled_back_record;
         unfold stored_installed, stored_latest; fields;
         rewrite Hinst, Hlatest; reflexivity|]).
  all: (split;
        [since_reports; unfold entity_states;
         cbn [omap list_omap]; rewrite omap_app, last_app;
         cbn [omap list_omap last];
         rewrite payload_after_clear, payload_of_state, Hlegacy;
         unfold stored_installed, stored_latest; fields;
         rewrite Hinst, Hlatest; reflexivity|]).
  all: (split;
        [since_reports; count_reports_in report_not_reconfigure Hevs|]).
  all: (split;
        [since_reports; count_reports_in report_not_devices_changed Hevs|]).
  all: (split; [all_fields; rewrite Hlock; by apply lock_cycle|]).
  all: (split;
        [since_reports; unfold responses; cbn [omap list_omap];
         rewrite omap_app; fold (responses evs);
         rewrite (responses_reports evs Hevs); reflexivity|]).
  all: intros stack Hstack Hne Hsent.
  all: try (destruct Hsent; discriminate).
  all: try match goal with
           | H : truthy (err_stack _) = false |- _ =>
               rewrite Hstack in H; apply truthy_false in H; contradiction
           end.
  all: since_reports; rewrite ?last_cons_cons, app_comm_cons, last_app;
       cbn [last]; rewrite Hstack; reflexivity.
Qed.

(** ** An update that succeeds *)

(** C4: when the provider installs version [v], [progress] and [remaining]
    are cleared from the device's record, the state published last is
    [idle] with both versions [v], exactly one reconfigure event, for this
    device, and one devices-changed event are emitted, the lock is
    released, and the response, sent unless the request came on the legacy
    topic, carries the identities read before and after the update, each
    [null] when its read failed.  The same pair is in the line logged at
    level info and, under the legacy setting, in the message published on
    [bridge/log]. *)
Theorem successful_update_converges (env : Env) (n : nat)
    (data : MQTTMessage) (device : Device) (v : Z) (w : World) :
  accepted cfg data = true →
  resolve resolveEntity (request_id (message data)) = Some device →
  supportsOTA device = true →
  ieeeAddr device ∉ inProgress w →
  request_type data ≠ "check" →
  answer env (S n) (UpdateToLatest device) = Resolved v →
  let w' := run env n (onMQTTMessage cfg resolveEntity data) w in
  let installed :=
    {| progress := None; remaining := None; state := idle;
       installed_version := Num v; latest_version := Num v |} in
  let from_ := identity_read env n device (Some "immediate") in
  let to_ := identity_read env (S (S n)) device None in
  stateStore w' !! ieeeAddr device = Some installed
  ∧ last (entity_states (since (length (out w)) w'))
    = Some (ieeeAddr device,
            {| update_available :=
                 if advanced_legacy_api cfg then Some false else None;
               update := installed |})
  ∧ count (is_reconfigure_of (ieeeAddr device)) (since (length (out w)) w') = 1%nat
  ∧ count is_reconfigure (since (length (out w)) w') = 1%nat
  ∧ count is_devices_changed (since (length (out w)) w') = 1%nat
  ∧ inProgress w' = inProgress w
  ∧ responses (since (length (out w)) w')
    = (if Regex.matches (legacyTopicRegex cfg) (topic data) then []
       else [(responseTopic (request_type data),
              getResponse (message data)
                {| id := request_id (message data); updateAvailable := None;
                   from := Some from_; to := Some to_ |}
                None)])
  ∧ Logged LInfo (updatedText device from_ to_) ∈ since (length (out w)) w'
  ∧ (advanced_legacy_api cfg = true →
     Published "bridge/log"
       (OtaUpdateLog (RequestBody (message data))
          {| meta_status := "update_succeeded"; meta_device := name device;
             meta_extra := MetaFromTo from_ to_ |})
     ∈ since (length (out w)) w').
Proof.
  intros Hacc Hres Hota Hfree Htype Hdone. cbv zeta. unfold identity_read.
  destruct (advanced_legacy_api cfg) eqn:Hlegacy.
  all: name_run; dispatch Hacc Hres Hota Hfree.
  all: rewrite bool_decide_eq_false_2 by done.
  all: unfold updateBranch, readSoftwareBuildIDAndDateCode, afterFirstRead,
         afterUpdate, afterSecondRead, readSoftwareBuildIDAndDateCode,
         respond, logError.
  all: destruct (Regex.matches (legacyTopicRegex cfg) (topic data)).
  all: exec env.
  all: intros <-; delivered.
  all: (split; [fields; apply updated_record|]).
  all: (split;
        [since_reports; unfold entity_states;
         cbn [omap list_omap]; rewrite omap_app, last_app;
         cbn [omap list_omap last];
         rewrite payload_after_clear; unfold getEntityPublishPayload, legacyApi;
         rewrite Hlegacy; reflexivity|]).
  all: (split;
        [since_reports;
         rewrite ?count_cons, ?count_app, ?count_cons, ?count_nil;
         rewrite (count_reports _ _ (report_not_reconfigure_of _) Hevs);
         cbn [is_reconfigure_of]; rewrite bool_decide_eq_true_2 by reflexivity;
         reflexivity|]).
  all: (split;
        [since_reports; count_reports_in report_not_reconfigure Hevs|]).
  all: (split;
        [since_reports; count_reports_in report_not_devices_changed Hevs|]).
  all: (split; [all_fields; rewrite Hlock; by apply lock_cycle|]).
  all: (split;
        [since_reports; unfold responses; cbn [omap list_omap];
         rewrite omap_app; fold (responses evs);
         rewrite (responses_reports evs Hevs); reflexivity|]).
  all: (split; [since_reports; find_event|]).
  all: intros Hon; try discriminate Hon.
  all: since_reports; find_event.
Qed.

(** ** The automatic check *)

Lemma handled_free (w : World) (data : DeviceMessage) :
  handled w data = true → ieeeAddr (dm_device data) ∉ inProgress w.
Proof.
  unfold handled. rewrite negb_true_iff, !orb_false_iff.
  intros [_ H]. by apply bool_decide_eq_false in H.
Qed.

Lemma handled_same_lock (w w' : World) (data : DeviceMessage) :
  inProgress w' = inProgress w → handled w' data = handled w data.
Proof. unfold handled. by intros ->. Qed.

(** A signal inside the interval: the handler logs the request and
    returns. *)
Lemma run_rate_limited (env : Env) (n : nat) (data : DeviceMessage) (w : World) :
  handled w data = true →
  supportsOTA (dm_device data) = true →
  ota_disable_automatic_update_check cfg = false →
  check cfg w (dm_device data) = false →
  run env n (onZigbeeEvent cfg data) w
  = log LDebug (requestedText (dm_device data)) w
  ∧ sync (onZigbeeEvent cfg data) w
    = (log LDebug (requestedText (dm_device data)) w, Done).
Proof.
  intros Hh Hota Hauto Hdue. unfold onZigbeeEvent.
  rewrite !run_Get, !sync_Get, Hh, Hota, Hauto. cbn [negb andb].
  rewrite run_Modify, run_Get, sync_Modify, sync_Get.
  unfold check in *. cbn [lastChecked now log emit]. rewrite Hdue.
  split; reflexivity.
Qed.

(** A signal outside the interval, run to its end. *)
Lemma run_due (env : Env) (n : nat) (data : DeviceMessage) (w : World) :
  handled w data = true →
  supportsOTA (dm_device data) = true →
  ota_disable_automatic_update_check cfg = false →
  check cfg w (dm_device data) = true →
  let w' := run env n (onZigbeeEvent cfg data) w in
  lastChecked w' = <[ieeeAddr (dm_device data) := now w]> (lastChecked w)
  ∧ inProgress w' = inProgress w
  ∧ now w ≤ now w'
  ∧ ∃ evs : list Event, out w' = out w ++ evs ∧ count is_query evs = 1%nat.
Proof.
  intros Hh Hota Hauto Hdue. cbv zeta.
  destruct (advanced_legacy_api cfg) eqn:Hlegacy.
  all: name_run; unfold onZigbeeEvent.
  all: rewrite !run_Get, Hh, Hota, Hauto; cbn [negb andb].
  all: rewrite run_Modify, run_Get.
  all: unfold check in Hdue |- *; cbn [lastChecked now log emit]; rewrite Hdue.
  all: unfold afterAutomaticCheck, respondNoImage.
  all: exec env.
  all: intros <-.
  all: (split; [reflexivity|]).
  all: (split; [reflexivity|]).
  all: (split; [all_fields; lia|]).
  all: eexists; split;
         [all_fields;
          repeat match goal with
                 | H : advanced_legacy_api cfg = _ |- _ => rewrite H
                 end;
          rewrite <- ?app_assoc; reflexivity
         |reflexivity].
Qed.

Lemma sync_due (data : DeviceMessage) (w : World) :
  handled w data = true →
  supportsOTA (dm_device data) = true →
  ota_disable_automatic_update_check cfg = false →
  check cfg w (dm_device data) = true →
  sync (onZigbeeEvent cfg data) w
  = (emit (Called (IsUpdateAvailable (dm_device data) (Some (dm_data data))))
       (set_lastChecked (<[ieeeAddr (dm_device data) := now w]>)
          (log LDebug (requestedText (dm_device data)) w)),
     Await (IsUpdateAvailable (dm_device data) (Some (dm_data data))) None
       (afterAutomaticCheck cfg data)).
Proof.
  intros Hh Hota Hauto Hdue. unfold onZigbeeEvent.
  rewrite !sync_Get, Hh, Hota, Hauto. cbn [negb andb].
  rewrite sync_Modify, sync_Get.
  unfold check in Hdue |- *. cbn [lastChecked now log emit]. rewrite Hdue.
  reflexivity.
Qed.

Lemma check_within (w : World) (device : Device) (t t2 : Z) :
  lastChecked w !! ieeeAddr device = Some t →
  now w = t2 →
  t2 - t ≤ ota_update_check_interval cfg * 1000 * 60 →
  check cfg w device = false.
Proof.
  intros Ht Hnow Hwithin. unfold check, updateCheckInterval.
  rewrite Ht, Hnow. apply Z.ltb_ge. lia.
Qed.

(** C7: for a handled signal of a device with OTA support, automatic
    checks being enabled, the availability query is issued exactly when
    the device has no entry in the map of last checks or its entry is
    older than the interval.  When it is skipped the handler only logs the
    request: nothing is queried or published and the map is unchanged.
    When it is issued the entry is set to the current time before the
    query starts.  So of two signals within the interval the first, when
    due, starts a query and the second starts none, whether it arrives
    after the first handler has finished or while its query is pending. *)
Theorem automatic_check_rate_limit (data : DeviceMessage) (w : World) :
  handled w data = true →
  supportsOTA (dm_device data) = true →
  ota_disable_automatic_update_check cfg = false →
  let device := dm_device data in
  let query := IsUpdateAvailable device (Some (dm_data data)) in
  (check cfg w device = true
   ↔ lastChecked w !! ieeeAddr device = None
     ∨ ∃ t, lastChecked w !! ieeeAddr device = Some t
            ∧ ota_update_check_interval cfg * 1000 * 60 < now w - t)
  ∧ (check cfg w device = false →
     sync (onZigbeeEvent cfg data) w
     = (log LDebug (requestedText device) w, Done)
     ∧ ∀ env n,
         run env n (onZigbeeEvent cfg data) w
         = log LDebug (requestedText device) w)
  ∧ (check cfg w device = true →
     sync (onZigbeeEvent cfg data) w
     = (emit (Called query)
          (set_lastChecked (<[ieeeAddr device := now w]>)
             (log LDebug (requestedText device) w)),
        Await query None (afterAutomaticCheck cfg data)))
  ∧ (check cfg w device = true →
     ∀ env n env' n' t2,
       let w1 := run env n (onZigbeeEvent cfg data) w in
       let pending := fst (sync (onZigbeeEvent cfg data) w) in
       now w1 ≤ t2 →
       t2 - now w ≤ ota_update_check_interval cfg * 1000 * 60 →
       count is_query
         (since (length (out w))
            (run env' n' (onZigbeeEvent cfg data) (set_now t2 w1))) = 1%nat
       ∧ count is_query
           (since (length (out w))
              (fst (sync (onZigbeeEvent cfg data) (set_now t2 pending)))) = 1%nat).
Proof.
  intros Hh Hota Hauto. cbv zeta.
  split; [|split; [|split]].
  - unfold check, updateCheckInterval.
    destruct (lastChecked w !! ieeeAddr (dm_device data)) as [t|].
    + rewrite Z.ltb_lt. split.
      * intros H. right. exists t. auto.
      * intros [?|(t' & [= <-] & H)]; [discriminate | exact H].
    + split; auto.
  - intros Hdue.
    destruct (run_rate_limited (Build_Env (fun _ c => Rejected
                {| err_name := ""; err_message := ""; err_stack := None |})
                (fun _ => []) (fun _ => 0%N)) 0 data w Hh Hota Hauto Hdue)
      as [_ Hsync].
    split; [exact Hsync|].
    intros env n. by apply run_rate_limited.
  - intros Hdue. by apply sync_due.
  - intros Hdue env n env' n' t2 Hlater Hwithin.
    destruct (run_due env n data w Hh Hota Hauto Hdue)
      as (Hchecked & Hlock & Hnow & evs & Hout & Hcount).
    split.
    + set (w1 := run env n (onZigbeeEvent cfg data) w) in *.
      assert (handled (set_now t2 w1) data = true) as Hh2.
      { rewrite <- Hh. apply handled_same_lock. exact Hlock. }
      assert (check cfg (set_now t2 w1) (dm_device data) = false) as Hskip.
      { apply (check_within _ _ (now w) t2); [|reflexivity|exact Hwithin].
        cbn [lastChecked set_now]. rewrite Hchecked. apply lookup_insert_eq. }
      destruct (run_rate_limited env' n' data _ Hh2 Hota Hauto Hskip) as [-> _].
      erewrite since_app
        by (cbn [out log emit set_now]; rewrite Hout, <- app_assoc; reflexivity).
      by rewrite count_app, Hcount.
    + rewrite (sync_due data w Hh Hota Hauto Hdue). cbn [fst].
      set (pending := emit _ _).
      assert (handled (set_now t2 pending) data = true) as Hh2.
      { rewrite <- Hh. by apply handled_same_lock. }
      assert (check cfg (set_now t2 pending) (dm_device data) = false) as Hskip.
      { apply (check_within _ _ (now w) t2); [|reflexivity|exact Hwithin].
        apply lookup_insert_eq. }
      destruct (run_rate_limited env n data _ Hh2 Hota Hauto Hskip) as [_ ->].
      cbn [fst]. erewrite since_app
        by (subst pending; cbn [out log emit set_now set_lastChecked];
            rewrite <- ?app_assoc; reflexivity).
      reflexivity.
Qed.

(** On every handled signal that the rate limit does not stop (the device
    has no OTA support, or automatic checks are disabled, or the check is
    due, whatever its outcome) the handler sends the response
    NO_IMAGE_AVAILABLE, once. *)
Lemma no_image_response_elsewhere (env : Env) (n : nat)
    (data : DeviceMessage) (w : World) :
  handled w data = true →
  supportsOTA (dm_device data) = false
  ∨ ota_disable_automatic_update_check cfg = true
  ∨ check cfg w (dm_device data) = true →
  count is_no_image_response
    (since (length (out w)) (run env n (onZigbeeEvent cfg data) w)) = 1%nat.
Proof.
  intros Hh Hcase.
  destruct (advanced_legacy_api cfg) eqn:Hlegacy.
  all: name_run; unfold onZigbeeEvent.
  all: rewrite !run_Get, Hh; cbn [negb]; rewrite run_Modify.
  all: destruct (supportsOTA (dm_device data)) eqn:Hota;
       destruct (ota_disable_automatic_update_check cfg) eqn:Hauto;
       cbn [negb andb].
  all: try (rewrite run_Get;
            destruct Hcase as [?|[?|Hdue]]; try discriminate;
            unfold check in Hdue |- *; cbn [lastChecked now log emit];
            rewrite Hdue).
  all: unfold afterAutomaticCheck, respondNoImage.
  all: exec env.
  all: intros <-.
  all: erewrite since_app
         by (all_fields;
             repeat match goal with
                    | H : advanced_legacy_api cfg = _ |- _ => rewrite H
                    end;
             rewrite <- ?app_assoc; reflexivity);
       reflexivity.
Qed.

(** ** One operation per device *)

Lemma disciplined_sync (p : prog) (w : World) :
  disciplined p → disciplined (snd (sync p w)).
Proof.
  revert w. induction p as [|k IH|f k IH|c f k IH]; intros w Hp.
  - exact I.
  - rewrite sync_Get. apply IH, Hp.
  - rewrite sync_Modify. apply IH, Hp.
  - exact Hp.
Qed.

Lemma segment_Modify (h : option string) (f : World → World) (p : prog) :
  (∀ w, inProgress (f w) = inProgress w) →
  segment h p → segment h (Modify f p).
Proof.
  intros Hf Hp w. rewrite sync_Modify. specialize (Hp (f w)).
  by rewrite Hf in Hp.
Qed.

Lemma sync_respond_lock data rd err stack w :
  inProgress (fst (sync (respond cfg data rd err stack) w)) = inProgress w
  ∧ holder (snd (sync (respond cfg data rd err stack) w)) = None.
Proof.
  unfold respond, logError.
  destruct (Regex.matches _ _), (truthy err), (truthy stack); by split.
Qed.

Lemma disciplined_respond data rd err stack :
  disciplined (respond cfg data rd err stack).
Proof.
  unfold respond, logError. destruct (Regex.matches _ _); cbn [negb].
  - destruct (truthy err); [destruct (truthy stack)|]; exact I.
  - cbn [disciplined]. split; [discriminate|].
    split; intros [[]|e].
    + intros w. destruct (truthy err); [destruct (truthy stack)|]; reflexivity.
    + by intros w.
    + destruct (truthy err); [destruct (truthy stack)|]; exact I.
    + exact I.
Qed.

Lemma segment_respond data rd err stack :
  segment None (respond cfg data rd err stack).
Proof.
  intros w. destruct (sync_respond_lock data rd err stack w) as [-> ->].
  reflexivity.
Qed.

(** After the release, the handler goes on to answer the requester. *)
Lemma segment_release device data rd err stack :
  segment (Some (ieeeAddr device))
    (Modify (release device) (respond cfg data rd err stack)).
Proof.
  intros w. rewrite sync_Modify.
  destruct (sync_respond_lock data rd err stack (release device w)) as [-> ->].
  reflexivity.
Qed.

(** Steps that leave the set of busy devices alone. *)
Ltac quiet_steps :=
  repeat (apply segment_Modify; [reflexivity|]).

Lemma segment_afterCheck data device r :
  segment (Some (ieeeAddr device)) (afterCheck cfg data device r)
  ∧ disciplined (afterCheck cfg data device r).
Proof.
  unfold afterCheck. destruct r as [a|e].
  - split; [quiet_steps; apply segment_release|].
    cbn [disciplined]. apply disciplined_respond.
  - split; [quiet_steps; apply segment_release|].
    cbn [disciplined]. apply disciplined_respond.
Qed.

Lemma segment_await (h : option string) c f k :
  holder (Await c f k) = h → segment h (Await c f k).
Proof. intros <- w. rewrite sync_Await. cbn [fst snd]. by destruct (holder _). Qed.

Lemma segment_checkBranch data device :
  segment (Some (ieeeAddr device)) (checkBranch cfg data device)
  ∧ disciplined (checkBranch cfg data device).
Proof.
  unfold checkBranch. split.
  - quiet_steps. by apply segment_await.
  - cbn [disciplined]. split; [discriminate|].
    split; intros r; apply segment_afterCheck.
Qed.

Lemma segment_read device policy k :
  (∀ i, segment (Some (ieeeAddr device)) (k i) ∧ disciplined (k i)) →
  segment (Some (ieeeAddr device))
    (readSoftwareBuildIDAndDateCode device policy k)
  ∧ disciplined (readSoftwareBuildIDAndDateCode device policy k).
Proof.
  intros Hk. unfold readSoftwareBuildIDAndDateCode.
  destruct (find _ _) as [e|].
  - split; [by apply segment_await|].
    cbn [disciplined]. split; [discriminate|].
    split; intros [r|err]; apply Hk.
  - split; [by apply segment_await|].
    cbn [disciplined]. split; [discriminate|].
    split; intros r; apply Hk.
Qed.

Lemma segment_afterSecondRead data device from_ to_ :
  segment (Some (ieeeAddr device)) (afterSecondRead cfg data device from_ to_)
  ∧ disciplined (afterSecondRead cfg data device from_ to_).
Proof.
  unfold afterSecondRead. split; [quiet_steps; apply segment_release|].
  cbn [disciplined]. apply disciplined_respond.
Qed.

Lemma segment_updateFailed data device e :
  segment (Some (ieeeAddr device)) (updateFailed cfg data device e)
  ∧ disciplined (updateFailed cfg data device e).
Proof.
  unfold updateFailed. split; [quiet_steps; apply segment_release|].
  cbn [disciplined]. apply disciplined_respond.
Qed.

Lemma segment_afterUpdate data device from_ r :
  segment (Some (ieeeAddr device)) (afterUpdate cfg data device from_ r)
  ∧ disciplined (afterUpdate cfg data device from_ r).
Proof.
  unfold afterUpdate. destruct r as [v|e]; [|apply segment_updateFailed].
  pose proof (segment_read device None (afterSecondRead cfg data device from_)
                (segment_afterSecondRead data device from_)) as [Hs Hd].
  split; [quiet_steps; exact Hs|].
  cbn [disciplined]. exact Hd.
Qed.

Lemma segment_afterFirstRead data device from_ :
  segment (Some (ieeeAddr device)) (afterFirstRead cfg data device from_)
  ∧ disciplined (afterFirstRead cfg data device from_).
Proof.
  unfold afterFirstRead. split; [by apply segment_await|].
  cbn [disciplined]. split; [by intros f p r w [= <-]|].
  split; intros r; apply segment_afterUpdate.
Qed.

Lemma segment_updateBranch data device :
  segment (Some (ieeeAddr device)) (updateBranch cfg data device)
  ∧ disciplined (updateBranch cfg data device).
Proof.
  unfold updateBranch.
  pose proof (segment_read device (Some "immediate")
                (afterFirstRead cfg data device)
                (segment_afterFirstRead data device)) as [Hs Hd].
  split; [quiet_steps; exact Hs|].
  cbn [disciplined]. exact Hd.
Qed.

(** The command handler takes the lock of a free device or none. *)
Lemma segment_onMQTTMessage data :
  segment None (onMQTTMessage cfg resolveEntity data)
  ∧ disciplined (onMQTTMessage cfg resolveEntity data).
Proof.
  unfold onMQTTMessage.
  destruct (accepted cfg data); cbn [negb]; [|by split].
  destruct (is_null (message data));
    [split; [intros w; reflexivity | exact I]|].
  destruct (resolve _ _) as [device|];
    [|split; [apply segment_respond | apply disciplined_respond]].
  destruct (supportsOTA device); cbn [negb];
    [|split; [quiet_steps; apply segment_respond
             |cbn [disciplined]; apply disciplined_respond]].
  assert (segment (Some (ieeeAddr device))
            (if bool_decide (request_type data = "check")
             then checkBranch cfg data device
             else updateBranch cfg data device)
          ∧ disciplined
              (if bool_decide (request_type data = "check")
               then checkBranch cfg data device
               else updateBranch cfg data device)) as [Hs Hd].
  { case_bool_decide; [apply segment_checkBranch | apply segment_updateBranch]. }
  split.
  - intros w. rewrite sync_Get.
    destruct (bool_decide (ieeeAddr device ∈ inProgress w)) eqn:Hbusy.
    + apply segment_respond.
    + apply bool_decide_eq_false in Hbusy. rewrite sync_Modify.
      specialize (Hs (set_inProgress (fun s => {[ieeeAddr device]} ∪ s) w)).
      cbn [inProgress set_inProgress] in Hs.
      destruct (holder _) as [b|]; cbn [lock_step] in *.
      * destruct Hs as [<- ->]. by split.
      * rewrite Hs. by apply lock_cycle.
  - cbn [disciplined]. intros w.
    destruct (bool_decide (ieeeAddr device ∈ inProgress w)).
    + apply disciplined_respond.
    + cbn [disciplined]. exact Hd.
Qed.

(** The automatic check never touches the lock. *)
Lemma segment_respondNoImage data :
  segment None (respondNoImage data) ∧ disciplined (respondNoImage data).
Proof.
  unfold respondNoImage. split; [by apply segment_await|].
  cbn [disciplined]. split; [discriminate|].
  split; intros [[]|e]; first [by intros w | exact I].
Qed.

Lemma segment_afterAutomaticCheck data r :
  segment None (afterAutomaticCheck cfg data r)
  ∧ disciplined (afterAutomaticCheck cfg data r).
Proof.
  unfold afterAutomaticCheck.
  destruct (segment_respondNoImage data) as [Hs Hd].
  destruct r as [a|e]; [destruct (res_available a)|];
    (split; [quiet_steps; exact Hs | cbn [disciplined]; exact Hd]).
Qed.

Lemma segment_onZigbeeEvent data :
  segment None (onZigbeeEvent cfg data) ∧ disciplined (onZigbeeEvent cfg data).
Proof.
  unfold onZigbeeEvent. split.
  - intros w. rewrite sync_Get.
    destruct (handled w data); cbn [negb]; [|reflexivity].
    rewrite sync_Modify.
    destruct (supportsOTA _ && negb _).
    + rewrite sync_Get. destruct (check cfg _ _); cbn [negb]; reflexivity.
    + apply (segment_Modify None (log LDebug (requestedText (dm_device data))));
        [reflexivity | apply segment_respondNoImage].
  - cbn [disciplined]. intros w.
    destruct (handled w data); cbn [negb disciplined]; [|exact I].
    destruct (supportsOTA _ && negb _).
    + cbn [disciplined]. intros w'.
      destruct (check cfg _ _); cbn [negb disciplined]; [|exact I].
      split; [discriminate|].
      split; intros r; apply segment_afterAutomaticCheck.
    + apply segment_respondNoImage.
Qed.

(** *** The invariant of the scheduler *)

Lemma lock_step_preserves (H H' : nat → option string)
    (s s' : gset string) (i0 : nat) :
  (∀ j, j ≠ i0 → H' j = H j) →
  lock_step (H i0) s s' (H' i0) →
  (∀ i j a, H i = Some a → H j = Some a → i = j) →
  (∀ a, a ∈ s ↔ (∃ i, H i = Some a)) →
  (∀ i j a, H' i = Some a → H' j = Some a → i = j)
  ∧ (∀ a, a ∈ s' ↔ (∃ i, H' i = Some a)).
Proof.
  intros Hrest Hstep Huniq Hmem.
  assert (∀ j a, j ≠ i0 → H' j = Some a → a ∈ s) as Hold.
  { intros j a Hj Ha. apply Hmem. exists j. by rewrite <- Hrest. }
  destruct (H i0) as [a0|] eqn:Hi0, (H' i0) as [b|] eqn:Hi0';
    cbn [lock_step] in Hstep.
  - destruct Hstep as [<- ->]. split.
    + intros i j a Hi Hj.
      destruct (decide (i = i0)) as [->|Hni], (decide (j = i0)) as [->|Hnj];
        [done| | |].
      * rewrite Hrest in Hj by done. apply (Huniq i0 j a); congruence.
      * rewrite Hrest in Hi by done. apply (Huniq i i0 a); congruence.
      * rewrite Hrest in Hi, Hj by done. by apply (Huniq i j a).
    + intros a. rewrite Hmem. split; intros [i Hi].
      * destruct (decide (i = i0)) as [->|Hni]; [exists i0; congruence|].
        exists i. by rewrite Hrest.
      * destruct (decide (i = i0)) as [->|Hni]; [exists i0; congruence|].
        exists i. by rewrite <- Hrest.
  - subst s'. split.
    + intros i j a Hi Hj.
      destruct (decide (i = i0)) as [->|Hni]; [congruence|].
      destruct (decide (j = i0)) as [->|Hnj]; [congruence|].
      rewrite Hrest in Hi, Hj by done. by apply (Huniq i j a).
    + intros a. rewrite elem_of_difference, elem_of_singleton, Hmem.
      split.
      * intros [[i Hi] Hne]. exists i.
        destruct (decide (i = i0)) as [->|Hni]; [congruence|]. by rewrite Hrest.
      * intros [i Hi].
        destruct (decide (i = i0)) as [->|Hni]; [congruence|].
        rewrite Hrest in Hi by done. split; [by exists i|].
        intros ->. apply Hni. by apply (Huniq i i0 a0).
  - destruct Hstep as [Hfree ->]. split.
    + intros i j a Hi Hj.
      destruct (decide (i = i0)) as [->|Hni], (decide (j = i0)) as [->|Hnj];
        [done| | |].
      * exfalso. apply Hfree. apply (Hold j); congruence.
      * exfalso. apply Hfree. apply (Hold i); congruence.
      * rewrite Hrest in Hi, Hj by done. by apply (Huniq i j a).
    + intros a. rewrite elem_of_union, elem_of_singleton, Hmem. split.
      * intros [->|[i Hi]]; [by exists i0|].
        exists i. destruct (decide (i = i0)) as [->|Hni]; [congruence|].
        by rewrite Hrest.
      * intros [i Hi].
        destruct (decide (i = i0)) as [->|Hni]; [left; congruence|].
        right. exists i. by rewrite <- Hrest.
  - subst s'. split.
    + intros i j a Hi Hj.
      destruct (decide (i = i0)) as [->|Hni]; [congruence|].
      destruct (decide (j = i0)) as [->|Hnj]; [congruence|].
      rewrite Hrest in Hi, Hj by done. by apply (Huniq i j a).
    + intros a. rewrite Hmem. split; intros [i Hi].
      * destruct (decide (i = i0)) as [->|Hni]; [congruence|].
        exists i. by rewrite Hrest.
      * destruct (decide (i = i0)) as [->|Hni]; [congruence|].
        exists i. by rewrite <- Hrest.
Qed.

Lemma invariant_initial (s : System) : initial s → invariant s.
Proof.
  intros [Hset Hpool]. unfold invariant, held. rewrite Hset, Hpool.
  split; [|split].
  - intros i p Hp. by rewrite lookup_nil in Hp.
  - intros i j a Hi. by rewrite lookup_nil in Hi.
  - intros a. split; [by intros ?%not_elem_of_empty|].
    intros [i Hi]. by rewrite lookup_nil in Hi.
Qed.

Lemma invariant_spawn (p : prog) (s : System) :
  segment None p → disciplined p → invariant s → invariant (spawn p s).
Proof.
  intros Hseg Hdis (Hd & Hu & Hm). unfold invariant, spawn. cbn [world pool].
  split.
  - intros i q Hq. apply lookup_app_Some in Hq as [Hq|[_ Hq]]; [by eapply Hd|].
    apply list_lookup_singleton_Some in Hq as [_ <-].
    by apply disciplined_sync.
  - apply (lock_step_preserves (held s) _ (inProgress (world s)) _
             (length (pool s))); [| |exact Hu|exact Hm].
    + intros j Hj.
      destruct (decide (j < length (pool s))%nat) as [Hlt|Hge].
      * unfold held; cbn [pool]. by rewrite lookup_app_l.
      * unfold held; cbn [pool]. rewrite lookup_app_r by lia.
        rewrite (lookup_ge_None_2 (pool s)) by lia.
        rewrite lookup_ge_None_2; [done|]. cbn [length]. lia.
    + unfold held; cbn [pool]. rewrite lookup_ge_None_2 by lia.
      rewrite lookup_app_r, Nat.sub_diag by lia. apply Hseg.
Qed.

Lemma invariant_resume (i : nat) c f k (r : result (reply c)) (s : System) :
  pool s !! i = Some (Await c f k) →
  invariant s → invariant (resume i (k r) s).
Proof.
  intros Hi (Hd & Hu & Hm). unfold invariant, resume. cbn [world pool].
  pose proof (Hd i _ Hi) as (_ & Hseg & Hdis). cbn [disciplined] in *.
  assert (i < length (pool s))%nat as Hlt by by eapply lookup_lt_Some.
  split.
  - intros j q Hq. apply list_lookup_insert_Some in Hq as [(-> & <- & _)|[_ Hq]].
    + apply disciplined_sync, Hdis.
    + by eapply Hd.
  - apply (lock_step_preserves (held s) _ (inProgress (world s)) _ i);
      [| |exact Hu|exact Hm].
    + intros j Hj. unfold held; cbn [pool]. by rewrite list_lookup_insert_ne.
    + unfold held; cbn [pool]. rewrite Hi, list_lookup_insert_eq by done.
      apply Hseg.
Qed.

Lemma invariant_step (s s' : System) :
  step cfg resolveEntity s s' → invariant s → invariant s'.
Proof.
  intros Hstep Hinv. destruct Hstep as [s data|s data|s i c f k r Hi|s i c f k p r Hi|s t Ht].
  - apply invariant_spawn; [apply segment_onMQTTMessage..|exact Hinv].
  - apply invariant_spawn; [apply segment_onZigbeeEvent..|exact Hinv].
  - by eapply invariant_resume.
  - destruct Hinv as (Hd & Hu & Hm). split; [exact Hd|]. split; [exact Hu|].
    cbn [world pool]. destruct (Hd i _ Hi) as (Hf & _).
    intros a. rewrite (Hf f p r (world s) eq_refl). apply Hm.
  - exact Hinv.
Qed.

Lemma invariant_reachable (s : System) :
  reachable cfg resolveEntity s → invariant s.
Proof.
  intros (s0 & H0 & Hsteps). apply invariant_initial in H0.
  induction Hsteps as [|s1 s2 s3 Hstep _ IH]; [exact H0|].
  apply IH. by eapply invariant_step.
Qed.

Lemma holders_spec (a : string) (s : System) (i : nat) :
  i ∈ holders a s ↔ held s i = Some a.
Proof.
  unfold holders, held. rewrite list_elem_of_filter, elem_of_seq. split.
  - by intros [H _].
  - intros H. split; [exact H|].
    destruct (pool s !! i) eqn:Hi; [|discriminate].
    apply lookup_lt_Some in Hi. lia.
Qed.

Lemma holders_at_most_one (a : string) (s : System) :
  invariant s → (length (holders a s) ≤ 1)%nat.
Proof.
  intros (_ & Hu & _).
  assert (NoDup (holders a s)) as Hnd.
  { unfold holders. apply NoDup_filter, NoDup_seq. }
  destruct (holders a s) as [|i [|j l]] eqn:Heq; cbn [length]; [lia..|].
  exfalso. apply NoDup_cons in Hnd as [Hnot _]. apply Hnot.
  assert (i = j) as ->; [|by left].
  apply (Hu i j a); apply holders_spec; rewrite Heq; set_solver.
Qed.

(** *** A request for a busy device, and requests for other devices *)

Lemma acquire_comm (a b : string) (w : World) :
  set_inProgress (fun s => {[a]} ∪ s) (set_inProgress (fun s => {[b]} ∪ s) w)
  = set_inProgress (fun s => {[b]} ∪ s) (set_inProgress (fun s => {[a]} ∪ s) w).
Proof.
  unfold set_inProgress. cbn [inProgress lastChecked stateStore now out].
  f_equal. rewrite !(assoc_L (∪)). f_equal. apply (comm_L (∪)).
Qed.

Lemma busy_elsewhere (a b : string) (s : gset string) :
  a ≠ b →
  bool_decide (a ∈ {[b]} ∪ s) = bool_decide (a ∈ s).
Proof.
  intros Hne. apply bool_decide_ext.
  rewrite elem_of_union, elem_of_singleton. tauto.
Qed.

Lemma sync_respond_elsewhere data rd err stack f w :
  sync (respond cfg data rd err stack) (set_inProgress f w)
  = (set_inProgress f (fst (sync (respond cfg data rd err stack) w)),
     snd (sync (respond cfg data rd err stack) w)).
Proof.
  unfold respond, logError.
  destruct (Regex.matches _ _), (truthy err), (truthy stack); reflexivity.
Qed.

Lemma sync_branch_elsewhere data device f w :
  let p :=
    if bool_decide (request_type data = "check")
    then checkBranch cfg data device
    else updateBranch cfg data device in
  sync p (set_inProgress f w)
  = (set_inProgress f (fst (sync p w)), snd (sync p w)).
Proof.
  cbv zeta. case_bool_decide.
  - reflexivity.
  - unfold updateBranch, readSoftwareBuildIDAndDateCode.
    destruct (find _ _); reflexivity.
Qed.

Lemma other_devices_unaffected (data : MQTTMessage) (b : string) (w : World) :
  (∀ device,
     resolve resolveEntity (request_id (message data)) = Some device →
     ieeeAddr device ≠ b) →
  sync (onMQTTMessage cfg resolveEntity data)
    (set_inProgress (fun s => {[b]} ∪ s) w)
  = (set_inProgress (fun s => {[b]} ∪ s)
       (fst (sync (onMQTTMessage cfg resolveEntity data) w)),
     snd (sync (onMQTTMessage cfg resolveEntity data) w)).
Proof.
  intros Hother. unfold onMQTTMessage.
  destruct (accepted cfg data); cbn [negb]; [|reflexivity].
  destruct (is_null (message data)); [reflexivity|].
  destruct (resolve _ _) as [device|]; [|apply sync_respond_elsewhere].
  specialize (Hother device eq_refl).
  destruct (supportsOTA device); cbn [negb].
  - rewrite !sync_Get. cbn [inProgress set_inProgress].
    rewrite busy_elsewhere by done.
    destruct (bool_decide (ieeeAddr device ∈ inProgress w)).
    + apply sync_respond_elsewhere.
    + rewrite !sync_Modify, acquire_comm. apply sync_branch_elsewhere.
  - rewrite !sync_Modify.
    apply (sync_respond_elsewhere data _ _ _ _
             (otaLog cfg (Text (notSupportedText device)) "not_supported"
                device NoExtra w)).
Qed.

Lemma busy_request (env : Env) (n : nat) (data : MQTTMessage)
    (device : Device) (w : World) :
  accepted cfg data = true →
  resolve resolveEntity (request_id (message data)) = Some device →
  supportsOTA device = true →
  ieeeAddr device ∈ inProgress w →
  let w' := run env n (onMQTTMessage cfg resolveEntity data) w in
  sync (onMQTTMessage cfg resolveEntity data) w
  = sync (respond cfg data (responseOf data) (Some (inProgressText device)) None) w
  ∧ holder (snd (sync (onMQTTMessage cfg resolveEntity data) w)) = None
  ∧ inProgress w' = inProgress w
  ∧ lastChecked w' = lastChecked w
  ∧ stateStore w' = stateStore w
  ∧ count is_provider_call (since (length (out w)) w') = 0%nat
  ∧ entity_states (since (length (out w)) w') = []
  ∧ responses (since (length (out w)) w')
    = (if Regex.matches (legacyTopicRegex cfg) (topic data) then []
       else [(responseTopic (request_type data),
              getResponse (message data) (responseOf data)
                (Some (inProgressText device)))]).
Proof.
  intros Hacc Hres Hota Hbusy. cbv zeta.
  assert (sync (onMQTTMessage cfg resolveEntity data) w
          = sync (respond cfg data (responseOf data)
                    (Some (inProgressText device)) None) w) as Hsync.
  { unfold onMQTTMessage.
    rewrite Hacc, (resolved_not_null _ _ _ Hres), Hres, Hota. cbn [negb].
    rewrite sync_Get. by rewrite bool_decide_eq_true_2. }
  split; [exact Hsync|]. split; [rewrite Hsync; apply sync_respond_lock|].
  name_run. unfold onMQTTMessage.
    rewrite Hacc, (resolved_not_null _ _ _ Hres), Hres, Hota. step.
  rewrite bool_decide_eq_true_2 by done.
  unfold respond, logError.
  destruct (Regex.matches (legacyTopicRegex cfg) (topic data)).
  all: exec env.
  all: intros <-.
  all: repeat (split; [reflexivity|]).
  all: repeat (split; [since_is; reflexivity|]).
  all: since_is; reflexivity.
Qed.

(** C1: in every state the scheduler can reach, at most one suspended
    handler holds the lock of a device, and the device is in the set of
    busy devices exactly when one does.  A request for a device in the set
    goes straight to the error "already in progress": it waits for no
    lock and no provider, starts no call to the provider, publishes no
    state, leaves the set, the times of the last checks and the stored
    records as they are, and answers the requester (unless it came on the
    legacy topic).  A request for another device runs as if the busy
    device were free. *)
Theorem one_operation_per_device :
  (∀ s a,
     reachable cfg resolveEntity s →
     (length (holders a s) ≤ 1)%nat
     ∧ (a ∈ inProgress (world s) ↔ holders a s ≠ []))
  ∧ (∀ env n data device w,
       accepted cfg data = true →
       resolve resolveEntity (request_id (message data)) = Some device →
       supportsOTA device = true →
       ieeeAddr device ∈ inProgress w →
       let w' := run env n (onMQTTMessage cfg resolveEntity data) w in
       sync (onMQTTMessage cfg resolveEntity data) w
       = sync (respond cfg data (responseOf data)
                 (Some (inProgressText device)) None) w
       ∧ holder (snd (sync (onMQTTMessage cfg resolveEntity data) w)) = None
       ∧ inProgress w' = inProgress w
       ∧ lastChecked w' = lastChecked w
       ∧ stateStore w' = stateStore w
       ∧ count is_provider_call (since (length (out w)) w') = 0%nat
       ∧ entity_states (since (length (out w)) w') = []
       ∧ responses (since (length (out w)) w')
         = (if Regex.matches (legacyTopicRegex cfg) (topic data) then []
            else [(responseTopic (request_type data),
                   getResponse (message data) (responseOf data)
                     (Some (inProgressText device)))]))
  ∧ (∀ data b w,
       (∀ device,
          resolve resolveEntity (request_id (message data)) = Some device →
          ieeeAddr device ≠ b) →
       sync (onMQTTMessage cfg resolveEntity data)
         (set_inProgress (fun s => {[b]} ∪ s) w)
       = (set_inProgress (fun s => {[b]} ∪ s)
            (fst (sync (onMQTTMessage cfg resolveEntity data) w)),
          snd (sync (onMQTTMessage cfg resolveEntity data) w))).
Proof.
  split; [|split].
  - intros s a Hreach. apply invariant_reachable in Hreach as Hinv.
    split; [by apply holders_at_most_one|].
    destruct Hinv as (_ & _ & Hm). rewrite Hm. split.
    + intros [i Hi]. apply holders_spec in Hi. intros Hnil.
      rewrite Hnil in Hi. by apply elem_of_nil in Hi.
    + destruct (holders a s) as [|i l] eqn:Heq; [done|]. intros _.
      exists i. apply holders_spec. rewrite Heq. by left.
  - intros env n data device w. apply busy_request.
  - apply other_devices_unaffected.
Qed.
End Properties.

Section OnSamples.

#[local] Existing Instance Sample.engine.

(** * The properties on the sample data *)

(** C1 on the samples: while the bulb is being updated, a request to check
    it is answered with the error and changes nothing. *)
Lemma one_operation_per_device_witness :
  ieeeAddr Sample.bulb ∈ inProgress Sample.busy
  ∧ responses
      (out (run Sample.env_ok 0
              (onMQTTMessage Sample.cfg Sample.directory Sample.check_request)
              Sample.busy))
    = [("bridge/response/device/ota_update/check",
        {| data := {| id := MsgText "bulb"; updateAvailable := None;
                      from := None; to := None |};
           status := "error";
           error := Some "Update or check for update already in progress for 'bulb'";
           transaction := None |})]
  ∧ stateStore
      (run Sample.env_ok 0
         (onMQTTMessage Sample.cfg Sample.directory Sample.check_request)
         Sample.busy)
    = stateStore Sample.busy.
Proof.
  assert (ieeeAddr Sample.bulb ∈ inProgress Sample.busy) as Hbusy
    by (apply (bool_decide_unpack _); vm_compute; exact I).
  split; [exact Hbusy|].
  pose proof (proj1 (proj2 (one_operation_per_device Sample.cfg Sample.directory))
                Sample.env_ok 0%nat Sample.check_request Sample.bulb Sample.busy
                eq_refl eq_refl eq_refl Hbusy) as H.
  cbv zeta in H. destruct H as (_ & _ & _ & _ & Hstore & _ & _ & Hresp).
  split; [exact Hresp | exact Hstore].
Defined.

(** C2 on the samples: after an update of the bulb that fails, the bulb is
    not busy. *)
Lemma lock_released_witness :
  (ieeeAddr Sample.bulb ∉ inProgress Sample.rest)
  ∧ ieeeAddr Sample.bulb
    ∉ inProgress
        (run Sample.env_fail 0
           (onMQTTMessage Sample.cfg Sample.directory Sample.update_request)
           Sample.rest).
Proof.
  assert (ieeeAddr Sample.bulb ∉ inProgress Sample.rest) as Hfree
    by apply not_elem_of_empty.
  split; [exact Hfree|].
  exact (proj1 (lock_released Sample.cfg Sample.directory Sample.env_fail 0%nat
                  Sample.update_request Sample.rest)
           Sample.bulb eq_refl eq_refl eq_refl Hfree).
Defined.

(** C3 at the failing input: the bulb was checked five minutes ago and asks
    for its next image.  The signal is handled, the rate limit stops the
    query, and the handler returns having only logged the request: the
    response NO_IMAGE_AVAILABLE is not sent. *)
Theorem rate_limited_signal_gets_no_response :
  handled Sample.checked Sample.signal = true
  ∧ supportsOTA (dm_device Sample.signal) = true
  ∧ ota_disable_automatic_update_check Sample.cfg = false
  ∧ check Sample.cfg Sample.checked (dm_device Sample.signal) = false
  ∧ out (run Sample.env_ok 0 (onZigbeeEvent Sample.cfg Sample.signal) Sample.checked)
    = [Logged LDebug "Device 'bulb' requested OTA"]
  ∧ count is_no_image_response
      (out (run Sample.env_ok 0 (onZigbeeEvent Sample.cfg Sample.signal)
              Sample.checked)) = 0%nat.
Proof. repeat split; vm_compute; reflexivity. Qed.

(** C4 on the samples: the update of the bulb to version 7. *)
Lemma successful_update_converges_witness :
  (ieeeAddr Sample.bulb ∉ inProgress Sample.rest)
  ∧ request_type Sample.update_request ≠ "check"
  ∧ stateStore
      (run Sample.env_ok 0
         (onMQTTMessage Sample.cfg Sample.directory Sample.update_request)
         Sample.rest) !! ieeeAddr Sample.bulb
    = Some {| progress := None; remaining := None; state := idle;
              installed_version := Num 7; latest_version := Num 7 |}.
Proof.
  assert (ieeeAddr Sample.bulb ∉ inProgress Sample.rest) as Hfree
    by apply not_elem_of_empty.
  assert (request_type Sample.update_request ≠ "check") as Htype
    by (intros H; vm_compute in H; discriminate H).
  split; [exact Hfree|]. split; [exact Htype|].
  exact (proj1 (successful_update_converges Sample.cfg Sample.directory
                  Sample.env_ok 0%nat Sample.update_request Sample.bulb 7
                  Sample.rest eq_refl eq_refl eq_refl Hfree Htype eq_refl)).
Defined.

(** C5 as stated fails: the update of the bulb fails with a stack, and no
    response to the requester carries that stack; the response carries the
    message. *)
Lemma failed_update_response_has_no_stack :
  answer Sample.env_fail 1 (UpdateToLatest Sample.bulb)
  = Rejected Sample.timeout_error
  ∧ err_stack Sample.timeout_error
    = Some "Error: timeout at Endpoint.read (endpoint.js:1)"
  ∧ requester_receives "Error: timeout at Endpoint.read (endpoint.js:1)"
      (out (run Sample.env_fail 0
              (onMQTTMessage Sample.cfg Sample.directory Sample.update_request)
              Sample.rest)) = false
  ∧ responses
      (out (run Sample.env_fail 0
              (onMQTTMessage Sample.cfg Sample.directory Sample.update_request)
              Sample.rest))
    = [("bridge/response/device/ota_update/update",
        {| data := {| id := MsgText "bulb"; updateAvailable := None;
                      from := None; to := None |};
           status := "error";
           error := Some "Update of 'bulb' failed (timeout)";
           transaction := None |})].
Proof. repeat split; vm_compute; reflexivity. Qed.

(** C5, amended, on the samples. *)
Lemma failed_update_rolls_back_witness :
  (ieeeAddr Sample.bulb ∉ inProgress Sample.rest)
  ∧ request_type Sample.update_request ≠ "check"
  ∧ stateStore
      (run Sample.env_fail 0
         (onMQTTMessage Sample.cfg Sample.directory Sample.update_request)
         Sample.rest) !! ieeeAddr Sample.bulb
    = Some {| progress := None; remaining := None; state := available;
              installed_version := Num 5; latest_version := Num 7 |}.
Proof.
  assert (ieeeAddr Sample.bulb ∉ inProgress Sample.rest) as Hfree
    by apply not_elem_of_empty.
  assert (request_type Sample.update_request ≠ "check") as Htype
    by (intros H; vm_compute in H; discriminate H).
  split; [exact Hfree|]. split; [exact Htype|].
  exact (proj1 (failed_update_rolls_back Sample.cfg Sample.directory
                  Sample.env_fail 0%nat Sample.update_request Sample.bulb
                  Sample.timeout_error Sample.rest
                  eq_refl eq_refl eq_refl Hfree Htype eq_refl)).
Defined.

(** C6 on the samples: a restart while the bulb was being updated. *)
Lemma start_recovers_witness :
  Sample.bulb ∈ [Sample.bulb; Sample.plug]
  ∧ stateStore (start [Sample.bulb; Sample.plug] Sample.busy) !! ieeeAddr Sample.bulb
    = Some {| progress := None; remaining := None; state := available;
              installed_version := Num 5; latest_version := Num 7 |}.
Proof.
  assert (Sample.bulb ∈ [Sample.bulb; Sample.plug]) as Hin by apply list_elem_of_here.
  split; [exact Hin|].
  exact (proj1 (start_recovers [Sample.bulb; Sample.plug] Sample.busy)
           Sample.bulb Hin).
Defined.

(** C7 on the samples: a bulb never checked asks twice, five minutes apart. *)
Lemma automatic_check_rate_limit_witness :
  handled Sample.rest Sample.signal = true
  ∧ check Sample.cfg Sample.rest (dm_device Sample.signal) = true
  ∧ count is_query
      (since (length (out Sample.rest))
         (run Sample.env_ok 0 (onZigbeeEvent Sample.cfg Sample.signal)
            (set_now (1700000000000 + 5 * 60 * 1000)
               (run Sample.env_ok 0 (onZigbeeEvent Sample.cfg Sample.signal)
                  Sample.rest)))) = 1%nat.
Proof.
  split; [reflexivity|]. split; [reflexivity|].
  refine (proj1 (proj2 (proj2 (proj2
            (automatic_check_rate_limit Sample.cfg Sample.signal Sample.rest
               eq_refl eq_refl eq_refl))) eq_refl
            Sample.env_ok 0%nat Sample.env_ok 0%nat
            (1700000000000 + 5 * 60 * 1000) _ _)).
  - vm_compute. discriminate.
  - vm_compute. discriminate.
Defined.

(** C8 on the samples: a progress report of 12.5 % with 340.1 seconds to go. *)
Lemma payload_builder_shape_witness :
  remaining
    (update (getEntityPublishPayload Sample.cfg Sample.rest Sample.bulb
               (OfState updating) (Some (25 # 2)%Q) (Some (3401 # 10)%Q)))
  = Some 340.
Proof.
  exact (proj1 (proj1 (proj2 (proj2 (proj2
           (payload_builder_shape Sample.cfg Sample.rest Sample.bulb
              (OfState updating) (Some (25 # 2)%Q) (Some (3401 # 10)%Q)))))
           (3401 # 10)%Q eq_refl)).
Defined.

(** C9 as stated fails: the check of the bulb fails with a stack, and no
    response to the requester carries that stack; the response carries the
    message. *)
Lemma failed_check_response_has_no_stack :
  answer Sample.env_fail 0 (IsUpdateAvailable Sample.bulb None)
  = Rejected Sample.timeout_error
  ∧ err_stack Sample.timeout_error
    = Some "Error: timeout at Endpoint.read (endpoint.js:1)"
  ∧ requester_receives "Error: timeout at Endpoint.read (endpoint.js:1)"
      (out (run Sample.env_fail 0
              (onMQTTMessage Sample.cfg Sample.directory Sample.check_request)
              Sample.rest)) = false
  ∧ responses
      (out (run Sample.env_fail 0
              (onMQTTMessage Sample.cfg Sample.directory Sample.check_request)
              Sample.rest))
    = [("bridge/response/device/ota_update/check",
        {| data := {| id := MsgText "bulb"; updateAvailable := None;
                      from := None; to := None |};
           status := "error";
           error := Some "Failed to check if update available for 'bulb' (timeout)";
           transaction := None |})].
Proof. repeat split; vm_compute; reflexivity. Qed.

(** C9, amended, on the samples. *)
Lemma failed_check_leaves_state_witness :
  (ieeeAddr Sample.bulb ∉ inProgress Sample.rest)
  ∧ stateStore
      (run Sample.env_fail 0
         (onMQTTMessage Sample.cfg Sample.directory Sample.check_request)
         Sample.rest)
    = stateStore Sample.rest.
Proof.
  assert (ieeeAddr Sample.bulb ∉ inProgress Sample.rest) as Hfree
    by apply not_elem_of_empty.
  split; [exact Hfree|].
  pose proof (failed_check_leaves_state Sample.cfg Sample.directory
                Sample.env_fail 0%nat Sample.check_request Sample.bulb
                Sample.timeout_error Sample.rest
                eq_refl eq_refl eq_refl Hfree eq_refl eq_refl) as H.
  cbv zeta in H. exact (proj1 (proj2 (proj2 H))).
Defined.

End OnSamples.

(** * Further properties of the handlers *)

Section Further.

Variable cfg : Settings.
Variable resolveEntity : string → option Device.
Context {engine : Regex.Engine}.

(** ** The two topic patterns *)

Lemma lit_strip_exact (p t r : string) :
  Regex.lit_strip false p t = Some r ↔ t = p +:+ r.
Proof.
  revert t. induction p as [|a p IH]; intros t.
  - simpl. split; [by intros [= ->] | by intros ->].
  - destruct t as [|b t]; simpl; [split; discriminate|].
    unfold Regex.char_eq, Regex.canonicalize. cbn [andb].
    case_bool_decide as Hab.
    + subst b. rewrite IH. split; [by intros -> | by intros [= ->]].
    + split; [discriminate | intros [= ? _]; congruence].
Qed.

Lemma lit_strip_prefix (i : bool) (p q s : string) :
  Regex.lit_strip i (p +:+ q) (p +:+ s) = Regex.lit_strip i q s.
Proof.
  induction p as [|c p IH]; simpl; [reflexivity|].
  by rewrite char_eq_refl.
Qed.

Lemma append_assoc (a b c : string) : (a +:+ b) +:+ c = a +:+ (b +:+ c).
Proof.
  induction a as [|x a IH]; [reflexivity|].
  change (String x ((a +:+ b) +:+ c) = String x (a +:+ (b +:+ c))).
  by rewrite IH.
Qed.

Lemma any_plus_end (s : string) :
  EmptyString ∈ Regex.any_plus s ↔ s ≠ EmptyString ∧ single_line s = true.
Proof.
  induction s as [|c s IH].
  - cbn [Regex.any_plus]. rewrite elem_of_nil. split; [done | by intros [? _]].
  - cbn [Regex.any_plus single_line].
    destruct (Regex.line_terminator_at (String c s)); cbn [negb andb].
    + rewrite elem_of_nil. split; [done | by intros [_ ?]].
    + rewrite elem_of_cons, IH. split.
      * intros [<- | [_ H]]; [by split | by split].
      * intros [_ H]. destruct s; [by left | right; by split].
Qed.


Lemma null_unresolved (m : Message) :
  is_null m = true → m = MsgNull ∧ resolve resolveEntity (request_id m) = None.
Proof. by destruct m as [[i|] t| |]. Qed.

Lemma legacy_match_iff (t : string) :
  Regex.plain_source (mqtt_base_topic cfg) = true →
  Regex.matches (legacyTopicRegex cfg) t = true
  ↔ ∃ rest,
      t = (mqtt_base_topic cfg +:+ "/bridge/ota_update/") +:+ rest
      ∧ rest ≠ "" ∧ single_line rest = true.
Proof.
  intros Hplain. unfold Regex.matches, legacyTopicRegex. rewrite Hplain.
  unfold Regex.pattern_matches.
  cbn [Regex.body Regex.end_anchored Regex.ignore_case Regex.rmatch negb orb].
  destruct (Regex.lit_strip false _ t) as [r|] eqn:Hstrip.
  - apply lit_strip_exact in Hstrip as ->.
    cbn [mbind list_bind]. rewrite app_nil_r.
    rewrite existsb_exists. split.
    + intros (x & Hin & Hx). apply bool_decide_eq_true in Hx as ->.
      exists r. split; [reflexivity|].
      apply any_plus_end. by apply list_elem_of_In.
    + intros (rest & Heq & Hne & Hline).
      assert (r = rest) as ->.
      { apply lit_strip_exact in Heq. rewrite lit_strip_app in Heq. congruence. }
      exists EmptyString. split; [|reflexivity].
      apply list_elem_of_In, any_plus_end. by split.
  - cbn [mbind list_bind existsb]. split; [discriminate|].
    intros (rest & Heq & _). apply lit_strip_exact in Heq. congruence.
Qed.

(** X1: for a base topic of plain text, the legacy pattern matches exactly
    the topics that continue the legacy prefix with at least one character
    and hold no line terminator (LF, CR, U+2028, U+2029) after it. *)
Theorem legacy_topic_shape (t : string) :
  Regex.plain_source (mqtt_base_topic cfg) = true →
  Regex.matches (legacyTopicRegex cfg) t = true
  ↔ ∃ rest,
      t = (mqtt_base_topic cfg +:+ "/bridge/ota_update/") +:+ rest
      ∧ rest ≠ "" ∧ single_line rest = true.
Proof. apply legacy_match_iff. Qed.

Lemma patterns_disjoint (t : string) :
  Regex.plain_source (mqtt_base_topic cfg) = true →
  Regex.matches (legacyTopicRegex cfg) t = true →
  Regex.matches (topicRegex cfg) t = false.
Proof.
  intros Hplain (rest & -> & _)%(legacy_match_iff _ Hplain).
  unfold Regex.matches, topicRegex. rewrite Hplain.
  unfold Regex.pattern_matches.
  cbn [Regex.body Regex.end_anchored Regex.ignore_case Regex.rmatch].
  rewrite !append_assoc, lit_strip_prefix.
  reflexivity.
Qed.

(** X2: for a base topic of plain text and with the legacy setting off, a
    request on the legacy topic is not for this handler: it returns at
    once, having done nothing. *)
Theorem legacy_topic_needs_legacy_api (env : Env) (n : nat)
    (data : MQTTMessage) (w : World) :
  Regex.plain_source (mqtt_base_topic cfg) = true →
  advanced_legacy_api cfg = false →
  Regex.matches (legacyTopicRegex cfg) (topic data) = true →
  accepted cfg data = false
  ∧ sync (onMQTTMessage cfg resolveEntity data) w = (w, Done)
  ∧ run env n (onMQTTMessage cfg resolveEntity data) w = w.
Proof.
  intros Hplain Hoff Hlegacy.
  assert (accepted cfg data = false) as Hacc.
  { unfold accepted, legacyApi.
    rewrite Hoff, (patterns_disjoint _ Hplain Hlegacy). reflexivity. }
  unfold onMQTTMessage. rewrite Hacc. auto.
Qed.

Lemma lit_strip_fold (p s s' : string) :
  Regex.fold_case s = Regex.fold_case s' →
  match Regex.lit_strip true p s, Regex.lit_strip true p s' with
  | Some r, Some r' => Regex.fold_case r = Regex.fold_case r'
  | None, None => True
  | _, _ => False
  end.
Proof.
  revert s s'. induction p as [|a p IH]; intros s s' Heq; [exact Heq|].
  destruct s as [|b s], s' as [|b' s']; try discriminate; [exact I|].
  injection Heq as Hb Hs. cbn [Regex.lit_strip].
  unfold Regex.char_eq. rewrite Hb.
  case_bool_decide; [by apply IH | exact I].
Qed.

Lemma topic_match (t : string) :
  Regex.plain_source (mqtt_base_topic cfg) = true →
  Regex.matches (topicRegex cfg) t
  = match Regex.lit_strip true
            (mqtt_base_topic cfg +:+ "/bridge/request/device/ota_update/") t with
    | Some r =>
        bool_decide (is_Some (Regex.lit_strip true "update" r))
        || bool_decide (is_Some (Regex.lit_strip true "check" r))
    | None => false
    end.
Proof.
  intros Hplain. unfold Regex.matches, topicRegex. rewrite Hplain.
  unfold Regex.pattern_matches.
  cbn [Regex.body Regex.end_anchored Regex.ignore_case Regex.rmatch].
  destruct (Regex.lit_strip true _ t) as [r|]; [|reflexivity].
  cbn [mbind list_bind]. rewrite app_nil_r.
  destruct (Regex.lit_strip true "update" r), (Regex.lit_strip true "check" r);
    reflexivity.
Qed.

Lemma current_topic_matches (keyword rest : string) :
  Regex.plain_source (mqtt_base_topic cfg) = true →
  keyword = "update" ∨ keyword = "check" →
  Regex.matches (topicRegex cfg)
    ((mqtt_base_topic cfg +:+ "/bridge/request/device/ota_update/")
     +:+ keyword +:+ rest) = true.
Proof.
  intros Hplain Hk. rewrite (topic_match _ Hplain), lit_strip_app.
  destruct Hk as [-> | ->].
  - by rewrite (lit_strip_app true "update" rest).
  - rewrite (lit_strip_app true "check" rest). apply orb_true_r.
Qed.

(** X3: the pattern of the current protocol ignores the case of letters: of
    two topics that differ in case only, both are matched or neither. *)
Theorem current_topic_ignores_case (t t' : string) :
  Regex.fold_case t = Regex.fold_case t' →
  Regex.matches (topicRegex cfg) t = Regex.matches (topicRegex cfg) t'.
Proof.
  intros Heq.
  destruct (Regex.plain_source (mqtt_base_topic cfg)) eqn:Hplain.
  - rewrite !(topic_match _ Hplain).
    pose proof (lit_strip_fold
                  (mqtt_base_topic cfg +:+ "/bridge/request/device/ota_update/")
                  t t' Heq) as H.
    destruct (Regex.lit_strip true _ t) as [r|],
      (Regex.lit_strip true _ t') as [r'|]; try done.
    pose proof (lit_strip_fold "update" r r' H) as Hu.
    pose proof (lit_strip_fold "check" r r' H) as Hc.
    destruct (Regex.lit_strip true "update" r), (Regex.lit_strip true "update" r'),
      (Regex.lit_strip true "check" r), (Regex.lit_strip true "check" r');
      try done.
  - unfold Regex.matches, topicRegex. rewrite Hplain.
    by apply Regex.foreign_ignores_case.
Qed.

(** ** The type of a request *)

Lemma lastIndexOf_from_absent (i : Z) (c : ascii) (s : string) :
  occurs c s = false → lastIndexOf_from i c s = -1.
Proof.
  revert i. induction s as [|a s IH]; intros i; [reflexivity|].
  unfold occurs. cbn [list_ascii_of_string existsb lastIndexOf_from].
  intros [Ha Hs]%orb_false_iff. rewrite (IH _ Hs), Ha. reflexivity.
Qed.

Lemma lastIndexOf_from_last (i : Z) (c : ascii) (p s : string) :
  occurs c s = false → 0 ≤ i →
  lastIndexOf_from i c (p +:+ String c s) = i + Z.of_nat (String.length p).
Proof.
  intros Hs. revert i. induction p as [|a p IH]; intros i Hi.
  - change (EmptyString +:+ String c s) with (String c s).
    cbn [lastIndexOf_from String.length].
    rewrite (lastIndexOf_from_absent _ _ _ Hs).
    rewrite bool_decide_eq_true_2 by reflexivity.
    change (0 <=? -1) with false. cbv iota. lia.
  - change (String a p +:+ String c s) with (String a (p +:+ String c s)).
    cbn [lastIndexOf_from String.length]. rewrite IH by lia.
    rewrite (proj2 (Z.leb_le _ _)) by lia. lia.
Qed.

Lemma substring_from_app (p s : string) :
  substring_from (String.length p) (p +:+ s) = s.
Proof. induction p as [|a p IH]; [by destruct s | exact IH]. Qed.

Lemma request_type_segment (prefix seg : string) (body : Message) :
  occurs "/" seg = false →
  request_type {| topic := prefix +:+ "/" +:+ seg; message := body |} = seg.
Proof.
  intros Hseg. unfold request_type, lastIndexOf. cbn [topic].
  change ("/" +:+ seg) with (String "/" seg).
  rewrite lastIndexOf_from_last by (done || lia).
  replace (Z.to_nat (0 + Z.of_nat (String.length prefix) + 1))
    with (String.length (prefix +:+ "/")).
  - change (String "/" seg) with ("/" +:+ seg).
    rewrite <- append_assoc. apply substring_from_app.
  - clear. induction prefix as [|a p IH]; [reflexivity|].
    change (String a p +:+ "/") with (String a (p +:+ "/")).
    cbn [String.length]. rewrite IH. lia.
Qed.

(** X4: the type of a request is what follows the last [/] of its topic, and
    the whole topic when it has none. *)
Theorem request_type_last_segment (body : Message) :
  (∀ prefix seg,
     occurs "/" seg = false →
     request_type {| topic := prefix +:+ "/" +:+ seg; message := body |} = seg)
  ∧ (∀ t,
       occurs "/" t = false →
       request_type {| topic := t; message := body |} = t).
Proof.
  split.
  - intros prefix seg. apply request_type_segment.
  - intros t Ht. unfold request_type, lastIndexOf. cbn [topic].
    rewrite lastIndexOf_from_absent by done. reflexivity.
Qed.

(** ** Start-up, again *)

Lemma start_now (devices : list Device) (w : World) :
  now (start devices w) = now w.
Proof.
  unfold start. revert w. induction devices as [|d ds IH]; intros w; simpl;
    [reflexivity | by rewrite IH].
Qed.

Lemma World_eq (w1 w2 : World) :
  inProgress w1 = inProgress w2 → lastChecked w1 = lastChecked w2 →
  stateStore w1 = stateStore w2 → now w1 = now w2 → out w1 = out w2 →
  w1 = w2.
Proof. destruct w1, w2; simpl; intros; by subst. Qed.

(** X5: start-up recovery gives the same result in whatever order the devices
    are listed, and running it again changes nothing; it leaves the busy
    devices, the times of the last checks and what was emitted alone. *)
Theorem start_order_and_repeat (devices devices' : list Device) (w : World) :
  devices ≡ₚ devices' →
  start devices w = start devices' w
  ∧ start devices' (start devices w) = start devices w
  ∧ inProgress (start devices w) = inProgress w
  ∧ lastChecked (start devices w) = lastChecked w
  ∧ out (start devices w) = out w.
Proof.
  intros Hperm.
  assert (∀ a, a ∈ ieeeAddr <$> devices ↔ a ∈ ieeeAddr <$> devices') as Hsame.
  { intros a. by rewrite Hperm. }
  destruct (start_keeps_rest devices w) as (Hl & Hc & Ho).
  destruct (start_keeps_rest devices' w) as (Hl' & Hc' & Ho').
  destruct (start_keeps_rest devices' (start devices w)) as (Hl2 & Hc2 & Ho2).
  split; [|split; [|by auto]].
  - apply World_eq; rewrite ?start_now; try congruence.
    apply map_eq. intros a. rewrite !start_lookup.
    destruct (decide (a ∈ ieeeAddr <$> devices)) as [Hin|Hout].
    + by rewrite decide_True by (by apply Hsame).
    + by rewrite decide_False by (by rewrite <- Hsame).
  - apply World_eq; rewrite ?start_now; try congruence.
    apply map_eq. intros a. rewrite !start_lookup.
    destruct (decide (a ∈ ieeeAddr <$> devices)) as [Hin|Hout].
    + rewrite decide_True by (by apply Hsame).
      destruct (stateStore w !! a); simpl; [|reflexivity].
      by rewrite recovered_twice.
    + by rewrite decide_False by (by rewrite <- Hsame).
Qed.

(** ** Rounding *)

Lemma Math_round_integer (n : Z) : Math_round (inject_Z n) = n.
Proof.
  unfold Math_round.
  pose proof (Qfloor_le (inject_Z n + (1 # 2))) as Hle.
  pose proof (Qlt_floor (inject_Z n + (1 # 2))) as Hlt.
  set (f := Qfloor (inject_Z n + (1 # 2))) in *. clearbody f.
  unfold Qle, Qlt, Qplus, inject_Z in Hle, Hlt. simpl in Hle, Hlt. lia.
Qed.

Lemma Math_round_half (n : Z) : Math_round (inject_Z n + (1 # 2)) = n + 1.
Proof.
  unfold Math_round.
  pose proof (Qfloor_le (inject_Z n + (1 # 2) + (1 # 2))) as Hle.
  pose proof (Qlt_floor (inject_Z n + (1 # 2) + (1 # 2))) as Hlt.
  set (f := Qfloor (inject_Z n + (1 # 2) + (1 # 2))) in *. clearbody f.
  unfold Qle, Qlt, Qplus, inject_Z in Hle, Hlt. simpl in Hle, Hlt. lia.
Qed.

(** X6: [Math.round], as the builder applies it to the remaining time, keeps
    integers, sends a half up, below zero too, and is monotone. *)
Theorem remaining_rounding (w : World) (device : Device) (st : StateArg)
    (p : option Q) :
  let shown r :=
    remaining (update (getEntityPublishPayload cfg w device st p (Some r))) in
  (∀ n : Z, shown (inject_Z n) = Some n)
  ∧ (∀ n : Z, shown (inject_Z n + (1 # 2))%Q = Some (n + 1))
  ∧ (∀ x y a b, (x <= y)%Q → shown x = Some a → shown y = Some b → a ≤ b).
Proof.
  cbv zeta. unfold getEntityPublishPayload.
  cbn [update remaining fmap option_fmap option_map].
  split; [|split].
  - intros n. by rewrite Math_round_integer.
  - intros n. by rewrite Math_round_half.
  - intros x y a b Hxy [= <-] [= <-]. unfold Math_round.
    apply Qfloor_resp_le. lra.
Qed.

(** ** Requests that are turned down *)


(** X8: a request for a device without OTA support is answered with the error
    that the device does not support OTA updates; under the legacy setting
    the error is also published on [bridge/log] with status
    [not_supported].  Nothing else happens: no lock, no call to the
    provider or the device, no state published, nothing stored. *)
Theorem unsupported_device_rejected (env : Env) (n : nat)
    (data : MQTTMessage) (device : Device) (w : World) :
  accepted cfg data = true →
  resolve resolveEntity (request_id (message data)) = Some device →
  supportsOTA device = false →
  let w' := run env n (onMQTTMessage cfg resolveEntity data) w in
  let error_ := notSupportedText device in
  holder (snd (sync (onMQTTMessage cfg resolveEntity data) w)) = None
  ∧ inProgress w' = inProgress w
  ∧ lastChecked w' = lastChecked w
  ∧ stateStore w' = stateStore w
  ∧ count is_provider_call (since (length (out w)) w') = 0%nat
  ∧ entity_states (since (length (out w)) w') = []
  ∧ responses (since (length (out w)) w')
    = (if Regex.matches (legacyTopicRegex cfg) (topic data) then []
       else [(responseTopic (request_type data),
              getResponse (message data) (responseOf data) (Some error_))])
  ∧ (Published "bridge/log"
       (OtaUpdateLog (Text error_)
          {| meta_status := "not_supported"; meta_device := name device;
             meta_extra := NoExtra |})
     ∈ since (length (out w)) w'
     ↔ advanced_legacy_api cfg = true).
Proof.
  intros Hacc Hres Hota. cbv zeta.
  split.
  { unfold onMQTTMessage.
  rewrite Hacc, (resolved_not_null _ _ _ Hres), Hres, Hota. cbn [negb].
    rewrite sync_Modify. apply sync_respond_lock. }
  destruct (advanced_legacy_api cfg) eqn:Hlegacy.
  all: name_run; unfold onMQTTMessage;
       rewrite Hacc, (resolved_not_null _ _ _ Hres), Hres, Hota; cbn [negb].
  all: unfold respond, logError.
  all: destruct (Regex.matches (legacyTopicRegex cfg) (topic data)).
  all: exec env.
  all: intros <-.
  all: do 3 (split; [reflexivity|]).
  all: do 3 (split; [since_is; reflexivity|]).
  all: since_is; cbn [app].
  all: split.
  all: try discriminate.
  all: try (intros _; reflexivity).
  all: try solve [intros _; find_event].
  all: rewrite ?elem_of_cons, elem_of_nil; intuition discriminate.
Qed.

(** ** A check that succeeds *)

(** A successful check, run to its end: the time of the last check is the
    time at which the query returned. *)
Lemma run_check_ok (env : Env) (n : nat) (data : MQTTMessage)
    (device : Device) (r : OtaUpdateAvailableResult) (w : World) :
  accepted cfg data = true →
  resolve resolveEntity (request_id (message data)) = Some device →
  supportsOTA device = true →
  ieeeAddr device ∉ inProgress w →
  request_type data = "check" →
  answer env n (IsUpdateAvailable device None) = Resolved r →
  let w' := run env n (onMQTTMessage cfg resolveEntity data) w in
  lastChecked w'
  = <[ieeeAddr device := now w + Z.of_N (elapsed env n)]> (lastChecked w)
  ∧ inProgress w' = inProgress w.
Proof.
  intros Hacc Hres Hota Hfree Htype Hok. cbv zeta.
  name_run; dispatch Hacc Hres Hota Hfree.
  rewrite bool_decide_eq_true_2 by done.
  unfold checkBranch, afterCheck, respond, logError.
  exec env.
  all: intros <-.
  all: split; [reflexivity | by apply lock_cycle].
Qed.

(** X9: when the availability query of a request for a check succeeds, the
    result is published as the device's state, once, and stored: state
    [available] or [idle] as the result says, with the result's two
    versions.  The time of the device's last check becomes the time at
    which the query returned, the lock is released, and the response,
    unless the request came on the legacy topic, tells whether an update
    is available. *)
Theorem successful_check_publishes (env : Env) (n : nat)
    (data : MQTTMessage) (device : Device) (r : OtaUpdateAvailableResult)
    (w : World) :
  accepted cfg data = true →
  resolve resolveEntity (request_id (message data)) = Some device →
  supportsOTA device = true →
  ieeeAddr device ∉ inProgress w →
  request_type data = "check" →
  answer env n (IsUpdateAvailable device None) = Resolved r →
  let w' := run env n (onMQTTMessage cfg resolveEntity data) w in
  let found :=
    {| progress := None; remaining := None;
       state := if res_available r then available else idle;
       installed_version := Num (currentFileVersion r);
       latest_version := Num (otaFileVersion r) |} in
  entity_states (since (length (out w)) w')
  = [(ieeeAddr device,
      {| update_available :=
           if advanced_legacy_api cfg then Some (res_available r) else None;
         update := found |})]
  ∧ stateStore w' !! ieeeAddr device
    = Some (merge_update found (stateStore w !! ieeeAddr device))
  ∧ lastChecked w' !! ieeeAddr device
    = Some (now w + Z.of_N (elapsed env n))
  ∧ inProgress w' = inProgress w
  ∧ responses (since (length (out w)) w')
    = (if Regex.matches (legacyTopicRegex cfg) (topic data) then []
       else [(responseTopic "check",
              getResponse (message data)
                {| id := request_id (message data);
                   updateAvailable := Some (res_available r);
                   from := None; to := None |}
                None)])
  ∧ count (fun e => match e with Logged LError _ => true | _ => false end)
      (since (length (out w)) w') = 0%nat.
Proof.
  intros Hacc Hres Hota Hfree Htype Hok. cbv zeta.
  destruct (advanced_legacy_api cfg) eqn:Hlegacy.
  all: name_run; dispatch Hacc Hres Hota Hfree.
  all: rewrite bool_decide_eq_true_2 by done.
  all: unfold checkBranch, afterCheck, respond, logError; rewrite Htype.
  all: unfold publishState, getEntityPublishPayload, legacyApi.
  all: destruct (Regex.matches (legacyTopicRegex cfg) (topic data)).
  all: exec env.
  all: intros <-.
  all: (split; [since_is; reflexivity|]).
  all: (split; [all_fields; rewrite lookup_insert_eq; reflexivity|]).
  all: (split; [all_fields; apply lookup_insert_eq|]).
  all: (split; [by apply lock_cycle|]).
  all: (split; [since_is; reflexivity|]).
  all: since_is; reflexivity.
Qed.

(** X10: a successful check on request counts for the rate limit of the
    automatic checks: a signal of the same device that arrives within the
    interval after the query returned starts no availability query. *)
Theorem manual_check_counts_for_rate_limit (env env' : Env) (n n' : nat)
    (data : MQTTMessage) (device : Device) (r : OtaUpdateAvailableResult)
    (signal : DeviceMessage) (t2 : Z) (w : World) :
  accepted cfg data = true →
  resolve resolveEntity (request_id (message data)) = Some device →
  supportsOTA device = true →
  ieeeAddr device ∉ inProgress w →
  request_type data = "check" →
  answer env n (IsUpdateAvailable device None) = Resolved r →
  dm_type signal = "commandQueryNextImageRequest" →
  dm_device signal = device →
  ota_disable_automatic_update_check cfg = false →
  t2 - (now w + Z.of_N (elapsed env n))
  ≤ ota_update_check_interval cfg * 1000 * 60 →
  let w1 := run env n (onMQTTMessage cfg resolveEntity data) w in
  let w2 := run env' n' (onZigbeeEvent cfg signal) (set_now t2 w1) in
  count is_query (since (length (out w1)) w2) = 0%nat
  ∧ lastChecked w2 = lastChecked w1.
Proof.
  intros Hacc Hres Hota Hfree Htype Hok Hsignal Hdev Hauto Hwithin. cbv zeta.
  destruct (run_check_ok env n data device r w Hacc Hres Hota Hfree Htype Hok)
    as [Hchecked Hlock].
  set (w1 := run env n (onMQTTMessage cfg resolveEntity data) w) in *.
  assert (handled (set_now t2 w1) signal = true) as Hh.
  { unfold handled. cbn [inProgress set_now]. rewrite Hlock, Hsignal, Hdev.
    rewrite bool_decide_eq_true_2 by reflexivity.
    rewrite bool_decide_eq_true_2
      by (unfold supportsOTA in Hota; destruct (definition device); eauto;
          discriminate).
    by rewrite bool_decide_eq_false_2. }
  assert (check cfg (set_now t2 w1) (dm_device signal) = false) as Hskip.
  { rewrite Hdev.
    apply (check_within _ _ _ (now w + Z.of_N (elapsed env n)) t2);
      [|reflexivity|exact Hwithin].
    cbn [lastChecked set_now]. rewrite Hchecked. apply lookup_insert_eq. }
  rewrite <- Hdev in Hota.
  destruct (run_rate_limited cfg env' n' signal _ Hh Hota Hauto Hskip) as [-> _].
  split; [|reflexivity].
  erewrite since_app by (cbn [out log emit set_now]; reflexivity).
  reflexivity.
Qed.

(** ** Progress reports *)

Lemma reported_cons (device : Device) (p : Q) (r : option Q)
    (l : list (Q * option Q)) (w : World) :
  reported (onProgress cfg device) ((p, r) :: l) w
  = drop (length (out w)) (out (onProgress cfg device p r w))
    ++ reported (onProgress cfg device) l (onProgress cfg device p r w).
Proof.
  unfold reported. rewrite deliver_cons.
  destruct (deliver_out_reports cfg device l (onProgress cfg device p r w))
    as (evs & -> & _).
  destruct (onProgress_out cfg device p r w) as (evs' & -> & _).
  rewrite !drop_app_length, <- app_assoc, drop_app_length. reflexivity.
Qed.

(** X11: each progress report of a running update publishes the device's state
    once: [updating], with the progress reported, the remaining time
    rounded when one was reported, and the versions the device's record had
    when the update began.  The reports change neither the busy devices
    nor the times of the last checks. *)
Theorem progress_reports_published (device : Device)
    (l : list (Q * option Q)) (w : World) :
  entity_states (reported (onProgress cfg device) l w)
  = (fun pr : Q * option Q =>
       (ieeeAddr device,
        {| update_available :=
             if advanced_legacy_api cfg then Some false else None;
           update :=
             {| progress := Some (fst pr);
                remaining := Math_round <$> snd pr;
                state := updating;
                installed_version := stored_installed w device;
                latest_version := stored_latest w device |} |})) <$> l
  ∧ inProgress (deliver (onProgress cfg device) l w) = inProgress w
  ∧ lastChecked (deliver (onProgress cfg device) l w) = lastChecked w
  ∧ count is_provider_call (reported (onProgress cfg device) l w) = 0%nat.
Proof.
  split; [|split; [apply deliver_inProgress|split; [apply deliver_lastChecked|]]].
  - revert w. induction l as [|[p r] l IH]; intros w.
    + unfold reported. cbn [deliver foldl]. by rewrite drop_all.
    + rewrite reported_cons, entity_states_app, IH, fmap_cons.
      destruct (onProgress_versions cfg device p r w) as [-> ->].
      f_equal.
      unfold onProgress, otaLog.
      cbn [out publish_when publishState publishEntityState emit
           set_stateStore log].
      rewrite <- !app_assoc, drop_app_length.
      rewrite payload_of_state.
      destruct (advanced_legacy_api cfg); reflexivity.
  - unfold reported.
    destruct (deliver_out_reports cfg device l w) as (evs & -> & Hevs).
    rewrite drop_app_length. apply count_none.
    eapply Forall_impl; [exact Hevs|]. by intros [].
Qed.

(** ** Signals of devices *)

Lemma sync_dispatched_busy (req : MQTTMessage) (device : Device) (w : World) :
  accepted cfg req = true →
  resolve resolveEntity (request_id (message req)) = Some device →
  supportsOTA device = true →
  ieeeAddr device ∉ inProgress w →
  ieeeAddr device ∈ inProgress (fst (sync (onMQTTMessage cfg resolveEntity req) w)).
Proof.
  intros Hacc Hres Hota Hfree. unfold onMQTTMessage.
  rewrite Hacc, (resolved_not_null _ _ _ Hres), Hres, Hota. cbn [negb]. rewrite sync_Get.
  rewrite bool_decide_eq_false_2 by done. rewrite sync_Modify.
  destruct (bool_decide (request_type req = "check")).
  - unfold checkBranch. rewrite !sync_Modify, sync_Await.
    cbn. set_solver.
  - unfold updateBranch, readSoftwareBuildIDAndDateCode. rewrite !sync_Modify.
    destruct (find _ _); rewrite sync_Await; cbn; set_solver.
Qed.

(** X12: a signal is ignored, the handler returning at once with nothing
    logged, queried, published or answered, exactly when it is of another
    type than the request for the next image, or its device has no
    definition, or a check or an update of its device is in progress;
    any other signal is logged as a request for OTA before anything else.
    A dispatched request puts its device in that state at its first
    await. *)
Theorem signals_ignored (signal : DeviceMessage) :
  (∀ w,
     handled w signal = false
     ↔ dm_type signal ≠ "commandQueryNextImageRequest"
       ∨ definition (dm_device signal) = None
       ∨ ieeeAddr (dm_device signal) ∈ inProgress w)
  ∧ (∀ env n w,
       handled w signal = false →
       sync (onZigbeeEvent cfg signal) w = (w, Done)
       ∧ run env n (onZigbeeEvent cfg signal) w = w)
  ∧ (∀ env n req w,
       accepted cfg req = true →
       resolve resolveEntity (request_id (message req)) = Some (dm_device signal) →
       supportsOTA (dm_device signal) = true →
       ieeeAddr (dm_device signal) ∉ inProgress w →
       let pending := fst (sync (onMQTTMessage cfg resolveEntity req) w) in
       run env n (onZigbeeEvent cfg signal) pending = pending)
  ∧ (∀ w,
       handled w signal = true →
       head (since (length (out w)) (fst (sync (onZigbeeEvent cfg signal) w)))
       = Some (Logged LDebug (requestedText (dm_device signal)))).
Proof.
  assert (∀ w,
            handled w signal = false
            ↔ dm_type signal ≠ "commandQueryNextImageRequest"
              ∨ definition (dm_device signal) = None
              ∨ ieeeAddr (dm_device signal) ∈ inProgress w) as Hwhen.
  { intros w. unfold handled.
    rewrite negb_false_iff, !orb_true_iff, !negb_true_iff,
      !bool_decide_eq_false, bool_decide_eq_true.
    rewrite <- eq_None_not_Some. tauto. }
  assert (∀ env n w,
            handled w signal = false →
            sync (onZigbeeEvent cfg signal) w = (w, Done)
            ∧ run env n (onZigbeeEvent cfg signal) w = w) as Hquiet.
  { intros env n w Hh. unfold onZigbeeEvent.
    rewrite sync_Get, run_Get, Hh. auto. }
  split; [exact Hwhen|]. split; [exact Hquiet|]. split.
  - intros env n req w Hacc Hres Hota Hfree. cbv zeta.
    apply Hquiet, Hwhen. right. right. by apply sync_dispatched_busy.
  - intros w Hh. unfold onZigbeeEvent. rewrite sync_Get, Hh. cbn [negb].
    rewrite sync_Modify.
    destruct (supportsOTA (dm_device signal) &&
              negb (ota_disable_automatic_update_check cfg)).
    + rewrite sync_Get. destruct (check cfg _ _); cbn [negb].
      * rewrite sync_Modify, sync_Await. cbn [fst].
        erewrite since_app
          by (cbn [out emit log set_lastChecked]; rewrite <- ?app_assoc;
              reflexivity).
        reflexivity.
      * rewrite sync_Done. cbn [fst].
        erewrite since_app by (cbn [out emit log]; reflexivity).
        reflexivity.
    + unfold respondNoImage. rewrite sync_Await. cbn [fst].
      erewrite since_app
        by (cbn [out emit log]; rewrite <- ?app_assoc; reflexivity).
      reflexivity.
Qed.

(** X13: the automatic check takes no lock: the handler of a signal leaves the
    set of busy devices as it is, at its first await and at its end, so a
    request for the device that arrives while the automatic query is
    pending is dispatched as if there were none. *)
Theorem automatic_check_takes_no_lock (signal : DeviceMessage) (w : World) :
  inProgress (fst (sync (onZigbeeEvent cfg signal) w)) = inProgress w
  ∧ holder (snd (sync (onZigbeeEvent cfg signal) w)) = None
  ∧ (∀ env n, inProgress (run env n (onZigbeeEvent cfg signal) w) = inProgress w)
  ∧ (∀ req device,
       accepted cfg req = true →
       resolve resolveEntity (request_id (message req)) = Some device →
       supportsOTA device = true →
       ieeeAddr device ∉ inProgress w →
       dispatched
         (snd (sync (onMQTTMessage cfg resolveEntity req)
                 (fst (sync (onZigbeeEvent cfg signal) w))))
       = Some (if bool_decide (request_type req = "check")
               then CheckAction else UpdateAction)).
Proof.
  assert (inProgress (fst (sync (onZigbeeEvent cfg signal) w)) = inProgress w
          ∧ holder (snd (sync (onZigbeeEvent cfg signal) w)) = None)
    as [Hlock Hnone].
  { unfold onZigbeeEvent. rewrite sync_Get.
    destruct (handled w signal); cbn [negb]; [|by split].
    rewrite sync_Modify.
    destruct (supportsOTA (dm_device signal) &&
              negb (ota_disable_automatic_update_check cfg)).
    - rewrite sync_Get. destruct (check cfg _ _); cbn [negb]; by split.
    - by split. }
  split; [exact Hlock|]. split; [exact Hnone|]. split.
  - intros env n.
    destruct (advanced_legacy_api cfg) eqn:Hlegacy.
    all: name_run; unfold onZigbeeEvent; rewrite run_Get.
    all: destruct (handled w signal); cbn [negb]; [|by intros <-].
    all: rewrite run_Modify.
    all: destruct (supportsOTA (dm_device signal) &&
                   negb (ota_disable_automatic_update_check cfg)).
    all: try (rewrite run_Get; destruct (check cfg _ _); cbn [negb];
              [|by intros <-]).
    all: unfold afterAutomaticCheck, respondNoImage.
    all: exec env.
    all: by intros <-.
  - intros req device Hacc Hres Hota Hfree.
    unfold onMQTTMessage.
  rewrite Hacc, (resolved_not_null _ _ _ Hres), Hres, Hota. cbn [negb].
    rewrite sync_Get, Hlock.
    rewrite bool_decide_eq_false_2 by done. rewrite sync_Modify.
    destruct (bool_decide (request_type req = "check")).
    + reflexivity.
    + unfold updateBranch, readSoftwareBuildIDAndDateCode.
      rewrite !sync_Modify. destruct (find _ _); reflexivity.
Qed.

(** ** Every request *)

Lemma report_not_update_call e :
  is_report_event e = true → is_update_call e = false.
Proof. by destruct e. Qed.

Lemma report_not_query e : is_report_event e = true → is_query e = false.
Proof. by destruct e. Qed.

Lemma respond_run_facts (env : Env) (n : nat) (req : MQTTMessage)
    (err : option string) (f : World → World) (b : bool) (text : LogText)
    (meta : OtaLogMeta) (w : World) :
  (∀ w0, inProgress (f w0) = inProgress w0 ∧ lastChecked (f w0) = lastChecked w0
         ∧ stateStore (f w0) = stateStore w0
         ∧ out (f w0)
           = out w0 ++ (if b
                        then [Published "bridge/log" (OtaUpdateLog text meta)]
                        else [])) →
  let w' := run env n (Modify f (respond cfg req (responseOf req) err None)) w in
  answered_once cfg req (since (length (out w)) w')
  ∧ count is_update_call (since (length (out w)) w') = 0%nat
  ∧ log_statuses (since (length (out w)) w')
    = (if b then [meta_status meta] else [])
  ∧ lastChecked w' = lastChecked w
  ∧ stateStore w' = stateStore w.
Proof.
  intros Hf. cbv zeta.
  destruct (Hf w) as (Hlock & Hchecked & Hstore & Hout).
  name_run. rewrite run_Modify. set (w1 := f w) in *. clearbody w1.
  unfold respond, logError, answered_once.
  destruct (Regex.matches (legacyTopicRegex cfg) (topic req)).
  all: exec env.
  all: intros <-.
  all: cbn [lastChecked stateStore log emit set_now].
  all: rewrite Hchecked, Hstore.
  all: (split; [|split; [|split; [|by split]]]).
  all: try (erewrite since_app
              by (cbn [out log emit set_now]; rewrite Hout, <- ?app_assoc;
                  reflexivity)).
  all: destruct b; cbn [app]; try reflexivity.
  all: try (exists (getResponse (message req) (responseOf req) None);
            split; reflexivity).
  all: eexists; split; [|reflexivity]; reflexivity.
Qed.

Lemma deliver_statuses (device : Device) (l : list (Q * option Q)) (w : World) :
  log_statuses (reported (onProgress cfg device) l w)
  = if advanced_legacy_api cfg then replicate (length l) "update_progress"
    else [].
Proof.
  revert w. induction l as [|[p r] l IH]; intros w.
  - unfold reported. cbn [deliver foldl]. rewrite drop_all.
    by destruct (advanced_legacy_api cfg).
  - rewrite reported_cons. unfold log_statuses at 1. rewrite omap_app.
    fold (log_statuses (reported (onProgress cfg device) l
                          (onProgress cfg device p r w))).
    rewrite IH.
    unfold onProgress, otaLog.
    cbn [out publish_when publishState publishEntityState emit
         set_stateStore log].
    rewrite <- !app_assoc, drop_app_length.
    destruct (advanced_legacy_api cfg); reflexivity.
Qed.

(** Note what the reports of the pending update publish on [bridge/log],
    before the world they leave is abstracted. *)
Ltac note_statuses :=
  match goal with
  | |- context [deliver (onProgress ?c ?d) ?l ?W] =>
      let Hstat := fresh "Hstat" in
      pose proof (deliver_statuses d l W) as Hstat;
      unfold reported in Hstat
  end.

Lemma check_run_facts (env : Env) (n : nat) (req : MQTTMessage)
    (device : Device) (w : World) :
  let w' :=
    run env n
      (Modify (set_inProgress (fun s => {[ieeeAddr device]} ∪ s))
         (checkBranch cfg req device)) w in
  answered_once cfg req (since (length (out w)) w')
  ∧ count is_update_call (since (length (out w)) w') = 0%nat
  ∧ count is_query (since (length (out w)) w') = 1%nat
  ∧ log_statuses (since (length (out w)) w')
    = (if advanced_legacy_api cfg
       then ["checking_if_available";
             match answer env n (IsUpdateAvailable device None) with
             | Resolved r =>
                 if res_available r then "available" else "not_available"
             | Rejected _ => "check_failed"
             end]
       else [])
  ∧ lastChecked w'
    = match answer env n (IsUpdateAvailable device None) with
      | Resolved _ =>
          <[ieeeAddr device := now w + Z.of_N (elapsed env n)]> (lastChecked w)
      | Rejected _ => lastChecked w
      end
  ∧ (∀ a, a ≠ ieeeAddr device → stateStore w' !! a = stateStore w !! a).
Proof.
  cbv zeta.
  destruct (advanced_legacy_api cfg) eqn:Hlegacy.
  all: name_run; step.
  all: unfold checkBranch, afterCheck, respond, logError, answered_once.
  all: destruct (Regex.matches (legacyTopicRegex cfg) (topic req)).
  all: exec env.
  all: intros <-.
  all: (split;
        [|split;
          [since_is; reflexivity
          |split;
            [since_is; reflexivity
            |split; [since_is; reflexivity|split; [reflexivity|]]]]]).
  all: try (intros other Hother; all_fields;
            rewrite ?lookup_insert_ne by done; reflexivity).
  all: try (eexists; split; [|since_is; reflexivity]; reflexivity).
  all: exists (getResponse (message req) (responseOf req) None);
       split; [reflexivity | since_is; reflexivity].
Qed.

Lemma update_run_facts (env : Env) (n : nat) (req : MQTTMessage)
    (device : Device) (w : World) :
  let w' :=
    run env n
      (Modify (set_inProgress (fun s => {[ieeeAddr device]} ∪ s))
         (updateBranch cfg req device)) w in
  answered_once cfg req (since (length (out w)) w')
  ∧ count is_update_call (since (length (out w)) w') = 1%nat
  ∧ count is_query (since (length (out w)) w') = 0%nat
  ∧ log_statuses (since (length (out w)) w')
    = (if advanced_legacy_api cfg
       then "update_in_progress"
            :: replicate (length (reports env (S n))) "update_progress"
            ++ [match answer env (S n) (UpdateToLatest device) with
                | Resolved _ => "update_succeeded"
                | Rejected _ => "update_failed"
                end]
       else [])
  ∧ lastChecked w' = lastChecked w
  ∧ (∀ a, a ≠ ieeeAddr device → stateStore w' !! a = stateStore w !! a).
Proof.
  cbv zeta.
  destruct (advanced_legacy_api cfg) eqn:Hlegacy.
  all: name_run; step.
  all: unfold updateBranch, readSoftwareBuildIDAndDateCode, afterFirstRead,
         afterUpdate, afterSecondRead, updateFailed,
         readSoftwareBuildIDAndDateCode, respond, logError, answered_once.
  all: destruct (Regex.matches (legacyTopicRegex cfg) (topic req)).
  all: exec env.
  all: intros <-; note_statuses; delivered.
  all: cbn [out inProgress lastChecked stateStore now emit log set_now
            set_lastChecked set_stateStore set_inProgress publish_when otaLog]
         in Hstat.
  all: rewrite Hout, drop_app_length, Hlegacy in Hstat.
  all: (split;
        [|split;
          [since_reports; count_reports_in report_not_update_call Hevs
          |split;
            [since_reports; count_reports_in report_not_query Hevs
            |split;
              [since_reports; unfold log_statuses; cbn [omap list_omap];
               rewrite omap_app; fold (log_statuses evs); rewrite Hstat;
               reflexivity
              |split; [all_fields; by rewrite Hchecked|]]]]]).
  all: try (intros other Hne; all_fields;
            rewrite ?lookup_insert_ne, ?lookup_alter_ne by done;
            by apply Hother).
  all: try (eexists;
            split;
            [|since_reports; unfold responses; cbn [omap list_omap];
              rewrite omap_app; fold (responses evs);
              rewrite (responses_reports evs Hevs); reflexivity];
            reflexivity).
  all: exists (getResponse (message req) (responseOf req) None);
       (split;
        [reflexivity
        |since_reports; unfold responses; cbn [omap list_omap];
         rewrite omap_app; fold (responses evs);
         rewrite (responses_reports evs Hevs); reflexivity]).
Qed.


Lemma quiet_step_id (w0 : World) :
  inProgress w0 = inProgress w0 ∧ lastChecked w0 = lastChecked w0
  ∧ stateStore w0 = stateStore w0 ∧ out w0 = out w0 ++ [].
Proof. repeat (split; [reflexivity|]). by rewrite app_nil_r. Qed.

(** The facts of the three branches, for any accepted request. *)
Lemma request_run_facts (env : Env) (n : nat) (req : MQTTMessage) (w : World) :
  accepted cfg req = true →
  is_null (message req) = false →
  let w' := run env n (onMQTTMessage cfg resolveEntity req) w in
  answered_once cfg req (since (length (out w)) w')
  ∧ count is_update_call (since (length (out w)) w')
    = match resolve resolveEntity (request_id (message req)) with
      | Some device =>
          if supportsOTA device
             && negb (bool_decide (ieeeAddr device ∈ inProgress w))
             && negb (bool_decide (request_type req = "check"))
          then 1%nat else 0%nat
      | None => 0%nat
      end
  ∧ log_statuses (since (length (out w)) w')
    = (if advanced_legacy_api cfg
       then
         match resolve resolveEntity (request_id (message req)) with
         | None => []
         | Some device =>
             if negb (supportsOTA device) then ["not_supported"]
             else if bool_decide (ieeeAddr device ∈ inProgress w) then []
             else if bool_decide (request_type req = "check") then
               ["checking_if_available";
                match answer env n (IsUpdateAvailable device None) with
                | Resolved r =>
                    if res_available r then "available" else "not_available"
                | Rejected _ => "check_failed"
                end]
             else
               "update_in_progress"
               :: replicate (length (reports env (S n))) "update_progress"
               ++ [match answer env (S n) (UpdateToLatest device) with
                   | Resolved _ => "update_succeeded"
                   | Rejected _ => "update_failed"
                   end]
         end
       else [])
  ∧ lastChecked w'
    = match resolve resolveEntity (request_id (message req)) with
      | Some device =>
          if supportsOTA device
             && negb (bool_decide (ieeeAddr device ∈ inProgress w))
             && bool_decide (request_type req = "check")
          then
            match answer env n (IsUpdateAvailable device None) with
            | Resolved _ =>
                <[ieeeAddr device := now w + Z.of_N (elapsed env n)]>
                  (lastChecked w)
            | Rejected _ => lastChecked w
            end
          else lastChecked w
      | None => lastChecked w
      end
  ∧ (∀ a,
       (∀ device,
          resolve resolveEntity (request_id (message req)) = Some device →
          ieeeAddr device ≠ a) →
       stateStore w' !! a = stateStore w !! a).
Proof.
  intros Hacc Hbody. cbv zeta. unfold onMQTTMessage.
  rewrite Hacc, Hbody. cbn [negb].
  destruct (resolve resolveEntity (request_id (message req))) as [device|].
  - destruct (supportsOTA device); cbn [negb andb].
    + rewrite run_Get.
      destruct (bool_decide (ieeeAddr device ∈ inProgress w)); cbn [negb andb].
      * destruct (respond_run_facts env n req (Some (inProgressText device))
                    (fun w0 => w0) false (Text EmptyString)
                    {| meta_status := EmptyString; meta_device := EmptyString;
                       meta_extra := NoExtra |} w quiet_step_id)
          as (Ha & Hc & Hp & Hl & Hs).
        rewrite run_Modify in Ha, Hc, Hp, Hl, Hs.
        split; [exact Ha|]. split; [exact Hc|].
        split; [rewrite Hp; by destruct (advanced_legacy_api cfg)|].
        split; [exact Hl|].
        intros a _. by rewrite Hs.
      * destruct (bool_decide (request_type req = "check")); cbn [negb].
        -- destruct (check_run_facts env n req device w)
             as (Ha & Hc & _ & Hp & Hl & Hf).
           split; [exact Ha|]. split; [exact Hc|]. split; [exact Hp|].
           split; [exact Hl|].
           intros a Ha'. apply Hf. intros ->. by apply (Ha' device).
        -- destruct (update_run_facts env n req device w)
             as (Ha & Hc & _ & Hp & Hl & Hf).
           split; [exact Ha|]. split; [exact Hc|]. split; [exact Hp|].
           split; [exact Hl|].
           intros a Ha'. apply Hf. intros ->. by apply (Ha' device).
    + destruct (respond_run_facts env n req (Some (notSupportedText device))
                  (otaLog cfg (Text (notSupportedText device)) "not_supported"
                     device NoExtra)
                  (advanced_legacy_api cfg) (Text (notSupportedText device))
                  {| meta_status := "not_supported"; meta_device := name device;
                     meta_extra := NoExtra |} w)
        as (Ha & Hc & Hp & Hl & Hs).
      { intros w0. by repeat split. }
      split; [exact Ha|]. split; [exact Hc|]. split; [exact Hp|].
      split; [exact Hl|].
      intros a _. by rewrite Hs.
  - destruct (respond_run_facts env n req
                (Some (doesNotExistText (id_text (request_id (message req)))))
                (fun w0 => w0) false (Text EmptyString)
                {| meta_status := EmptyString; meta_device := EmptyString;
                   meta_extra := NoExtra |} w quiet_step_id)
      as (Ha & Hc & Hp & Hl & Hs).
    rewrite run_Modify in Ha, Hc, Hp, Hl, Hs.
    split; [exact Ha|]. split; [exact Hc|].
    split; [rewrite Hp; by destruct (advanced_legacy_api cfg)|].
    split; [exact Hl|].
    intros a _. by rewrite Hs.
Qed.

(** A request with the body [null]: the handler throws, and that is
    all. *)
Lemma run_null_body (env : Env) (n : nat) (req : MQTTMessage) (w : World) :
  accepted cfg req = true →
  is_null (message req) = true →
  run env n (onMQTTMessage cfg resolveEntity req) w
  = emit (Thrown "TypeError") w
  ∧ since (length (out w)) (run env n (onMQTTMessage cfg resolveEntity req) w)
    = [Thrown "TypeError"].
Proof.
  intros Hacc Hbody. unfold onMQTTMessage. rewrite Hacc, Hbody.
  split; [reflexivity|].
  cbn [negb run throwTypeError]. by apply since_app.
Qed.


(** X15: a request calls the provider's [updateToLatest] exactly once when it
    is dispatched as an update, whatever the identity read before it gave,
    and never otherwise. *)
Theorem update_called_once (env : Env) (n : nat) (req : MQTTMessage)
    (w : World) :
  count is_update_call
    (since (length (out w))
       (run env n (onMQTTMessage cfg resolveEntity req) w))
  = match resolve resolveEntity (request_id (message req)) with
    | Some device =>
        if accepted cfg req
           && supportsOTA device
           && negb (bool_decide (ieeeAddr device ∈ inProgress w))
           && negb (bool_decide (request_type req = "check"))
        then 1%nat else 0%nat
    | None => 0%nat
    end.
Proof.
  destruct (accepted cfg req) eqn:Hacc.
  - destruct (is_null (message req)) eqn:Hbody.
    + rewrite (proj2 (run_null_body env n req w Hacc Hbody)).
      by rewrite (proj2 (null_unresolved _ Hbody)).
    + exact (proj1 (proj2 (request_run_facts env n req w Hacc Hbody))).
  - unfold onMQTTMessage. rewrite Hacc. cbn [negb andb run].
    unfold since. rewrite drop_all.
    by destruct (resolve resolveEntity (request_id (message req))).
Qed.

(** X16: the times of the last checks change in one case only: a request for
    a check, dispatched, whose availability query succeeds sets the time of
    its device to the time at which the query returned.  A check that
    fails, an update however it ends, and a request that is turned down or
    not accepted leave all times as they were. *)
Theorem last_checked_by_request (env : Env) (n : nat) (req : MQTTMessage)
    (w : World) :
  lastChecked (run env n (onMQTTMessage cfg resolveEntity req) w)
  = match resolve resolveEntity (request_id (message req)) with
    | Some device =>
        if accepted cfg req
           && supportsOTA device
           && negb (bool_decide (ieeeAddr device ∈ inProgress w))
           && bool_decide (request_type req = "check")
        then
          match answer env n (IsUpdateAvailable device None) with
          | Resolved _ =>
              <[ieeeAddr device := now w + Z.of_N (elapsed env n)]>
                (lastChecked w)
          | Rejected _ => lastChecked w
          end
        else lastChecked w
    | None => lastChecked w
    end.
Proof.
  destruct (accepted cfg req) eqn:Hacc.
  - destruct (is_null (message req)) eqn:Hbody.
    + rewrite (proj1 (run_null_body env n req w Hacc Hbody)).
      by rewrite (proj2 (null_unresolved _ Hbody)).
    + exact (proj1 (proj2 (proj2 (proj2
               (request_run_facts env n req w Hacc Hbody))))).
  - unfold onMQTTMessage. rewrite Hacc. cbn [negb andb run].
    by destruct (resolve resolveEntity (request_id (message req))).
Qed.

(** X17: a request changes the stored record of no device but the one it
    names. *)
Theorem request_touches_its_device_only (env : Env) (n : nat)
    (req : MQTTMessage) (w : World) (a : string) :
  (∀ device,
     resolve resolveEntity (request_id (message req)) = Some device →
     ieeeAddr device ≠ a) →
  stateStore (run env n (onMQTTMessage cfg resolveEntity req) w) !! a
  = stateStore w !! a.
Proof.
  intros Hother.
  destruct (accepted cfg req) eqn:Hacc.
  - destruct (is_null (message req)) eqn:Hbody.
    + by rewrite (proj1 (run_null_body env n req w Hacc Hbody)).
    + exact (proj2 (proj2 (proj2 (proj2
               (request_run_facts env n req w Hacc Hbody)))) a Hother).
  - unfold onMQTTMessage. by rewrite Hacc.
Qed.

(** X18: what a request publishes on [bridge/log]: nothing with the legacy
    setting off; with it on, the statuses in order are [not_supported] for
    a device without OTA support, nothing for an unknown or a busy device,
    [checking_if_available] and the outcome for a check, and for an update
    [update_in_progress], one [update_progress] for each progress report,
    and the outcome. *)
Theorem legacy_log_statuses (env : Env) (n : nat) (req : MQTTMessage)
    (w : World) :
  accepted cfg req = true →
  log_statuses
    (since (length (out w))
       (run env n (onMQTTMessage cfg resolveEntity req) w))
  = if advanced_legacy_api cfg
    then
      match resolve resolveEntity (request_id (message req)) with
      | None => []
      | Some device =>
          if negb (supportsOTA device) then ["not_supported"]
          else if bool_decide (ieeeAddr device ∈ inProgress w) then []
          else if bool_decide (request_type req = "check") then
            ["checking_if_available";
             match answer env n (IsUpdateAvailable device None) with
             | Resolved r =>
                 if res_available r then "available" else "not_available"
             | Rejected _ => "check_failed"
             end]
          else
            "update_in_progress"
            :: replicate (length (reports env (S n))) "update_progress"
            ++ [match answer env (S n) (UpdateToLatest device) with
                | Resolved _ => "update_succeeded"
                | Rejected _ => "update_failed"
                end]
      end
    else [].
Proof.
  intros Hacc.
  destruct (is_null (message req)) eqn:Hbody.
  - rewrite (proj2 (run_null_body env n req w Hacc Hbody)).
    rewrite (proj2 (null_unresolved _ Hbody)).
    by destruct (advanced_legacy_api cfg).
  - exact (proj1 (proj2 (proj2 (request_run_facts env n req w Hacc Hbody)))).
Qed.

(** ** One operation after the other *)

Lemma run_request_inProgress (env : Env) (n : nat) (req : MQTTMessage)
    (w : World) :
  inProgress (run env n (onMQTTMessage cfg resolveEntity req) w) = inProgress w.
Proof.
  unfold onMQTTMessage.
  destruct (accepted cfg req); [|reflexivity].
  destruct (is_null (message req)); [reflexivity|].
  destruct (resolve _ _) as [device|]; cbn [negb];
    [|apply run_respond_inProgress].
  destruct (supportsOTA device); cbn [negb]; step;
    [|by rewrite run_respond_inProgress].
  case_bool_decide as Hbusy; [apply run_respond_inProgress|].
  by apply run_dispatched_inProgress.
Qed.

(** X19: the lock of a device goes round: while a dispatched request is
    pending, the next request for the device is turned down with the
    error; once the first has finished, however it ended, the next is
    dispatched again. *)
Theorem lock_round_trip (env : Env) (n : nat) (first next : MQTTMessage)
    (device : Device) (w : World) :
  accepted cfg first = true →
  resolve resolveEntity (request_id (message first)) = Some device →
  accepted cfg next = true →
  resolve resolveEntity (request_id (message next)) = Some device →
  supportsOTA device = true →
  ieeeAddr device ∉ inProgress w →
  let pending := fst (sync (onMQTTMessage cfg resolveEntity first) w) in
  let finished := run env n (onMQTTMessage cfg resolveEntity first) w in
  sync (onMQTTMessage cfg resolveEntity next) pending
  = sync (respond cfg next (responseOf next) (Some (inProgressText device)) None)
      pending
  ∧ dispatched (snd (sync (onMQTTMessage cfg resolveEntity next) finished))
    = Some (if bool_decide (request_type next = "check")
            then CheckAction else UpdateAction).
Proof.
  intros Hacc1 Hres1 Hacc2 Hres2 Hota Hfree. cbv zeta. split.
  - pose proof (sync_dispatched_busy first device w Hacc1 Hres1 Hota Hfree)
      as Hbusy.
    unfold onMQTTMessage at 1.
    rewrite Hacc2, (resolved_not_null _ _ _ Hres2), Hres2, Hota. cbn [negb].
    rewrite sync_Get. by rewrite bool_decide_eq_true_2.
  - unfold onMQTTMessage at 1.
    rewrite Hacc2, (resolved_not_null _ _ _ Hres2), Hres2, Hota. cbn [negb].
    rewrite sync_Get, run_request_inProgress.
    rewrite bool_decide_eq_false_2 by done. rewrite sync_Modify.
    destruct (bool_decide (request_type next = "check")).
    + reflexivity.
    + unfold updateBranch, readSoftwareBuildIDAndDateCode.
      rewrite !sync_Modify. destruct (find _ _); reflexivity.
Qed.

(** ** The automatic check, run to its end *)

(** The endpoint the closing response is sent from. *)
Lemma response_endpoint_choice (signal : DeviceMessage) :
  let endpoint :=
    default (dm_endpoint signal)
      (find (supportsOutputCluster "genOta") (endpoints (dm_device signal))) in
  (endpoint ∈ endpoints (dm_device signal)
   ∧ supportsOutputCluster "genOta" endpoint = true)
  ∨ (endpoint = dm_endpoint signal
     ∧ Forall (fun e => supportsOutputCluster "genOta" e = false)
         (endpoints (dm_device signal))).
Proof.
  cbv zeta. induction (endpoints (dm_device signal)) as [|e l IH].
  - right. by split.
  - cbn [find]. destruct (supportsOutputCluster "genOta" e) eqn:He.
    + left. split; [apply list_elem_of_here | exact He].
    + destruct IH as [[Hin Hs] | [Heq Hall]].
      * left. split; [by apply list_elem_of_further | exact Hs].
      * right. split; [exact Heq | by constructor].
Qed.

(** X20: when the automatic check of a device finds a result, the result is
    published as the device's state, once, and stored; the time of the last
    check is the time the signal was handled; the update, when there is
    one, is announced in the log at level info; and the device is sent
    NO_IMAGE_AVAILABLE, once.  No response goes to the bus and the busy
    devices are as before. *)
Theorem automatic_check_found (env : Env) (n : nat) (signal : DeviceMessage)
    (r : OtaUpdateAvailableResult) (w : World) :
  handled w signal = true →
  supportsOTA (dm_device signal) = true →
  ota_disable_automatic_update_check cfg = false →
  check cfg w (dm_device signal) = true →
  answer env n (IsUpdateAvailable (dm_device signal) (Some (dm_data signal)))
  = Resolved r →
  let device := dm_device signal in
  let w' := run env n (onZigbeeEvent cfg signal) w in
  let found :=
    {| progress := None; remaining := None;
       state := if res_available r then available else idle;
       installed_version := Num (currentFileVersion r);
       latest_version := Num (otaFileVersion r) |} in
  entity_states (since (length (out w)) w')
  = [(ieeeAddr device,
      {| update_available :=
           if advanced_legacy_api cfg then Some (res_available r) else None;
         update := found |})]
  ∧ stateStore w' !! ieeeAddr device
    = Some (merge_update found (stateStore w !! ieeeAddr device))
  ∧ lastChecked w' = <[ieeeAddr device := now w]> (lastChecked w)
  ∧ inProgress w' = inProgress w
  ∧ responses (since (length (out w)) w') = []
  ∧ count is_no_image_response (since (length (out w)) w') = 1%nat
  ∧ (Logged LInfo (updateAvailableText device) ∈ since (length (out w)) w'
     ↔ res_available r = true).
Proof.
  intros Hh Hota Hauto Hdue Hok. cbv zeta.
  destruct (advanced_legacy_api cfg) eqn:Hlegacy.
  all: name_run; unfold onZigbeeEvent.
  all: rewrite !run_Get, Hh, Hota, Hauto; cbn [negb andb].
  all: rewrite run_Modify, run_Get.
  all: unfold check in Hdue |- *; cbn [lastChecked now log emit]; rewrite Hdue.
  all: unfold afterAutomaticCheck, respondNoImage.
  all: unfold publishState, getEntityPublishPayload, legacyApi.
  all: exec env.
  all: intros <-.
  all: (split; [since_is; reflexivity|]).
  all: (split; [all_fields; rewrite lookup_insert_eq; reflexivity|]).
  all: (split; [reflexivity|]).
  all: (split; [reflexivity|]).
  all: (split; [since_is; reflexivity|]).
  all: (split; [since_is; reflexivity|]).
  all: since_is; cbn [app].
  all: split.
  all: try discriminate.
  all: try (intros _; reflexivity).
  all: try solve [intros _; find_event].
  all: rewrite ?elem_of_cons, elem_of_nil; intuition discriminate.
Qed.

(** X21: when the automatic check of a device fails, the failure is logged at
    level debug only, the device's state is published as [idle] with the
    versions of its stored record, and the time of the last check is set
    all the same: the failed check is not tried again before the interval
    is over.  The device is sent NO_IMAGE_AVAILABLE, once. *)
Theorem automatic_check_failed (env : Env) (n : nat) (signal : DeviceMessage)
    (e : JsError) (w : World) :
  handled w signal = true →
  supportsOTA (dm_device signal) = true →
  ota_disable_automatic_update_check cfg = false →
  check cfg w (dm_device signal) = true →
  answer env n (IsUpdateAvailable (dm_device signal) (Some (dm_data signal)))
  = Rejected e →
  let device := dm_device signal in
  let w' := run env n (onZigbeeEvent cfg signal) w in
  let kept :=
    {| progress := None; remaining := None; state := idle;
       installed_version := stored_installed w device;
       latest_version := stored_latest w device |} in
  entity_states (since (length (out w)) w')
  = [(ieeeAddr device,
      {| update_available :=
           if advanced_legacy_api cfg then Some false else None;
         update := kept |})]
  ∧ stateStore w' !! ieeeAddr device
    = Some (merge_update kept (stateStore w !! ieeeAddr device))
  ∧ lastChecked w' = <[ieeeAddr device := now w]> (lastChecked w)
  ∧ inProgress w' = inProgress w
  ∧ responses (since (length (out w)) w') = []
  ∧ count is_no_image_response (since (length (out w)) w') = 1%nat
  ∧ Logged LDebug (checkFailedText device e) ∈ since (length (out w)) w'
  ∧ count (fun ev => match ev with Logged LError _ => true | _ => false end)
      (since (length (out w)) w') = 0%nat
  ∧ check cfg (set_now (now w + ota_update_check_interval cfg * 1000 * 60) w')
      device = false.
Proof.
  intros Hh Hota Hauto Hdue Hfail. cbv zeta.
  destruct (advanced_legacy_api cfg) eqn:Hlegacy.
  all: name_run; unfold onZigbeeEvent.
  all: rewrite !run_Get, Hh, Hota, Hauto; cbn [negb andb].
  all: rewrite run_Modify, run_Get.
  all: unfold check in Hdue |- *; cbn [lastChecked now log emit]; rewrite Hdue.
  all: unfold afterAutomaticCheck, respondNoImage.
  all: unfold publishState, getEntityPublishPayload, legacyApi.
  all: unfold stored_installed, stored_latest.
  all: exec env.
  all: intros <-.
  all: (split; [since_is; reflexivity|]).
  all: (split; [all_fields; rewrite lookup_insert_eq; reflexivity|]).
  all: (split; [reflexivity|]).
  all: (split; [reflexivity|]).
  all: (split; [since_is; reflexivity|]).
  all: (split; [since_is; reflexivity|]).
  all: (split; [since_is; cbn [app]; find_event|]).
  all: (split; [since_is; reflexivity|]).
  all: all_fields; rewrite lookup_insert_eq; apply Z.ltb_ge;
       unfold updateCheckInterval; lia.
Qed.

(** X22: the closing response of a handled signal that the rate limit does not
    stop goes out from the first endpoint of the device with [genOta] among
    its output clusters, or from the endpoint the signal came in on when
    there is none; it carries the status [0x98] and the transaction
    sequence number of the signal, and it is the last call the handler
    makes. *)
Theorem no_image_response_addressed (env : Env) (n : nat)
    (signal : DeviceMessage) (w : World) :
  handled w signal = true →
  supportsOTA (dm_device signal) = false
  ∨ ota_disable_automatic_update_check cfg = true
  ∨ check cfg w (dm_device signal) = true →
  let w' := run env n (onZigbeeEvent cfg signal) w in
  ∃ endpoint,
    last (List.filter
            (fun ev => match ev with Called _ => true | _ => false end)
            (since (length (out w)) w'))
    = Some (Called (CommandResponse endpoint 152 (dm_tsn signal)))
    ∧ ((endpoint ∈ endpoints (dm_device signal)
        ∧ supportsOutputCluster "genOta" endpoint = true)
       ∨ (endpoint = dm_endpoint signal
          ∧ Forall (fun e => supportsOutputCluster "genOta" e = false)
              (endpoints (dm_device signal)))).
Proof.
  intros Hh Hcase. cbv zeta.
  exists (default (dm_endpoint signal)
            (find (supportsOutputCluster "genOta") (endpoints (dm_device signal)))).
  split; [|apply response_endpoint_choice].
  destruct (advanced_legacy_api cfg) eqn:Hlegacy.
  all: name_run; unfold onZigbeeEvent.
  all: rewrite !run_Get, Hh; cbn [negb]; rewrite run_Modify.
  all: destruct (supportsOTA (dm_device signal)) eqn:Hota;
       destruct (ota_disable_automatic_update_check cfg) eqn:Hauto;
       cbn [negb andb].
  all: try (rewrite run_Get;
            destruct Hcase as [?|[?|Hdue]]; try discriminate;
            unfold check in Hdue |- *; cbn [lastChecked now log emit];
            rewrite Hdue).
  all: unfold afterAutomaticCheck, respondNoImage.
  all: set (endpoint := default _ (find _ _)).
  all: exec env.
  all: intros <-.
  all: since_is; reflexivity.
Qed.

(** X23: whatever its outcome, the handler of a signal answers nothing on the
    bus, never starts an update, emits no reconfigure and no
    devices-changed event, and changes the stored record and the time of
    the last check of no device but the one that sent the signal. *)
Theorem signal_effects_confined (env : Env) (n : nat) (signal : DeviceMessage)
    (w : World) :
  let w' := run env n (onZigbeeEvent cfg signal) w in
  responses (since (length (out w)) w') = []
  ∧ count is_update_call (since (length (out w)) w') = 0%nat
  ∧ count is_reconfigure (since (length (out w)) w') = 0%nat
  ∧ count is_devices_changed (since (length (out w)) w') = 0%nat
  ∧ (∀ a, a ≠ ieeeAddr (dm_device signal) →
       stateStore w' !! a = stateStore w !! a
       ∧ lastChecked w' !! a = lastChecked w !! a).
Proof.
  cbv zeta.
  destruct (advanced_legacy_api cfg) eqn:Hlegacy.
  all: name_run; unfold onZigbeeEvent; rewrite run_Get.
  all: destruct (handled w signal); cbn [negb].
  all: try rewrite run_Modify.
  all: try destruct (supportsOTA (dm_device signal) &&
                     negb (ota_disable_automatic_update_check cfg)).
  all: try (rewrite run_Get; destruct (check cfg _ _); cbn [negb]).
  all: unfold afterAutomaticCheck, respondNoImage.
  all: exec env.
  all: intros <-.
  all: do 4 (split; [first [since_is; reflexivity
                           | unfold since; by rewrite drop_all]|]).
  all: intros other Hother; all_fields;
       rewrite ?lookup_insert_ne by done; by split.
Qed.


(** ** Requests on the legacy topic *)

(** X24: for a base topic of plain text and under the legacy setting, a
    request on the legacy topic is accepted, its type is the rest of the
    topic when that holds no further [/], and whatever happens no response
    is published for it. *)
Theorem legacy_request_unanswered (env : Env) (n : nat) (seg : string)
    (body : Message) (w : World) :
  Regex.plain_source (mqtt_base_topic cfg) = true →
  advanced_legacy_api cfg = true →
  seg ≠ "" → single_line seg = true → occurs "/" seg = false →
  let req :=
    {| topic := (mqtt_base_topic cfg +:+ "/bridge/ota_update/") +:+ seg;
       message := body |} in
  accepted cfg req = true
  ∧ request_type req = seg
  ∧ responses
      (since (length (out w))
         (run env n (onMQTTMessage cfg resolveEntity req) w)) = [].
Proof.
  intros Hplain Hon Hne Hline Hseg. cbv zeta.
  set (req := {| topic := _; message := body |}).
  assert (Regex.matches (legacyTopicRegex cfg) (topic req) = true) as Hlegacy.
  { apply (legacy_match_iff _ Hplain). by exists seg. }
  assert (accepted cfg req = true) as Hacc.
  { unfold accepted, legacyApi. by rewrite Hon, Hlegacy. }
  split; [exact Hacc|]. split.
  - subst req.
    replace ((mqtt_base_topic cfg +:+ "/bridge/ota_update/") +:+ seg)
      with ((mqtt_base_topic cfg +:+ "/bridge/ota_update") +:+ "/" +:+ seg)
      by (by rewrite !append_assoc).
    by apply request_type_segment.
  - destruct (is_null (message req)) eqn:Hbody.
    + by rewrite (proj2 (run_null_body env n req w Hacc Hbody)).
    + destruct (proj1 (request_run_facts env n req w Hacc Hbody))
        as (r & _ & ->).
      by rewrite Hlegacy.
Qed.

(** ** Dispatch *)

(** C10: an accepted request for a device that is known, supports OTA and
    is not busy is dispatched by the last segment of its topic alone.  When
    that is exactly [check], the handler waits for the availability query
    first, makes that query once and never calls [updateToLatest];
    otherwise it begins with the identity read of an update, calls
    [updateToLatest] once and makes no availability query.  The pattern of
    the current protocol is not anchored at its end: for a base topic of
    plain text, whatever follows [check] or [update] in the topic, the
    request is accepted, and what follows belongs to its type. *)
Theorem dispatch_by_last_segment :
  (∀ env n data device w,
     accepted cfg data = true →
     resolve resolveEntity (request_id (message data)) = Some device →
     supportsOTA device = true →
     ieeeAddr device ∉ inProgress w →
     let w' := run env n (onMQTTMessage cfg resolveEntity data) w in
     dispatched (snd (sync (onMQTTMessage cfg resolveEntity data) w))
     = Some (if bool_decide (request_type data = "check")
             then CheckAction else UpdateAction)
     ∧ count is_query (since (length (out w)) w')
       = (if bool_decide (request_type data = "check") then 1 else 0)%nat
     ∧ count is_update_call (since (length (out w)) w')
       = (if bool_decide (request_type data = "check") then 0 else 1)%nat)
  ∧ (Regex.plain_source (mqtt_base_topic cfg) = true →
     ∀ keyword rest body,
       keyword = "update" ∨ keyword = "check" →
       let data :=
         {| topic := (mqtt_base_topic cfg +:+ "/bridge/request/device/ota_update/")
                     +:+ keyword +:+ rest;
            message := body |} in
       accepted cfg data = true
       ∧ (occurs "/" (keyword +:+ rest) = false →
          request_type data = keyword +:+ rest)).
Proof.
  split.
  - intros env n data device w Hacc Hres Hota Hfree. cbv zeta.
    unfold onMQTTMessage.
    rewrite Hacc, (resolved_not_null _ _ _ Hres), Hres, Hota. cbn [negb].
    rewrite sync_Get, run_Get.
    rewrite bool_decide_eq_false_2 by done.
    destruct (bool_decide (request_type data = "check")).
    + destruct (check_run_facts env n data device w) as (_ & Hu & Hq & _).
      split; [reflexivity|]. by split.
    + destruct (update_run_facts env n data device w) as (_ & Hu & Hq & _).
      split; [|by split].
      rewrite sync_Modify. unfold updateBranch, readSoftwareBuildIDAndDateCode.
      rewrite !sync_Modify. destruct (find _ _); reflexivity.
  - intros Hplain keyword rest body Hk. cbv zeta. split.
    + unfold accepted. cbn [topic].
      rewrite current_topic_matches by done.
      by rewrite andb_false_r.
    + intros Hseg.
      replace ((mqtt_base_topic cfg +:+ "/bridge/request/device/ota_update/")
               +:+ keyword +:+ rest)
        with ((mqtt_base_topic cfg +:+ "/bridge/request/device/ota_update")
              +:+ "/" +:+ keyword +:+ rest)
        by (by rewrite !append_assoc).
      by apply request_type_segment.
Qed.

End Further.

(** * The further properties on the sample data *)

Section FurtherOnSamples.

#[local] Existing Instance Sample.engine.

(** The legacy topic of a check is matched by the legacy pattern; with a
    line separator in what follows the prefix it is not. *)
Lemma legacy_topic_shape_witness :
  Regex.matches (legacyTopicRegex Sample.cfg) (topic Sample.legacy_check_request)
  = true
  ∧ Regex.matches (legacyTopicRegex Sample.cfg)
      ("zigbee2mqtt/bridge/ota_update/a" +:+ Regex.line_separator +:+ "b")
    = false.
Proof.
  split; [|reflexivity].
  apply (proj2 (legacy_topic_shape Sample.cfg (topic Sample.legacy_check_request)
                  eq_refl)).
  exists "check". by repeat split.
Defined.

(** The legacy topic with the legacy setting off. *)
Lemma legacy_topic_needs_legacy_api_witness :
  run Sample.env_ok 0
    (onMQTTMessage Sample.cfg Sample.directory Sample.legacy_check_request)
    Sample.rest
  = Sample.rest.
Proof.
  exact (proj2 (proj2 (legacy_topic_needs_legacy_api Sample.cfg Sample.directory
                         Sample.env_ok 0%nat Sample.legacy_check_request
                         Sample.rest eq_refl eq_refl eq_refl))).
Defined.

(** The topic of a check in capitals is matched as well. *)
Lemma current_topic_ignores_case_witness :
  Regex.matches (topicRegex Sample.cfg) Sample.shouted_topic = true.
Proof.
  rewrite <- (current_topic_ignores_case Sample.cfg
                (topic Sample.check_request) Sample.shouted_topic eq_refl).
  reflexivity.
Defined.

(** The type of the request on [.../ota_update/checking]. *)
Lemma request_type_last_segment_witness :
  request_type Sample.checking_request = "checking".
Proof.
  exact (proj1 (request_type_last_segment (MsgObject (Some "bulb") None))
           "zigbee2mqtt/bridge/request/device/ota_update" "checking" eq_refl).
Defined.

(** Recovery of the bulb and the plug, in either order. *)
Lemma start_order_and_repeat_witness :
  start [Sample.bulb; Sample.plug] Sample.busy
  = start [Sample.plug; Sample.bulb] Sample.busy.
Proof.
  exact (proj1 (start_order_and_repeat [Sample.bulb; Sample.plug]
                  [Sample.plug; Sample.bulb] Sample.busy
                  (perm_swap Sample.plug Sample.bulb []))).
Defined.


(** An update of the sensor, which has no OTA support. *)
Lemma unsupported_device_rejected_witness :
  responses
    (out (run Sample.env_ok 0
            (onMQTTMessage Sample.cfg Sample.directory_with_sensor
               Sample.sensor_request)
            Sample.rest))
  = [("bridge/response/device/ota_update/update",
      {| data := {| id := MsgText "sensor"; updateAvailable := None;
                    from := None; to := None |};
         status := "error";
         error := Some "Device 'sensor' does not support OTA updates";
         transaction := None |})].
Proof.
  pose proof (unsupported_device_rejected Sample.cfg Sample.directory_with_sensor
                Sample.env_ok 0%nat Sample.sensor_request Sample.sensor
                Sample.rest eq_refl eq_refl eq_refl) as H.
  cbv zeta in H. exact (proj1 (proj2 (proj2 (proj2 (proj2 (proj2 (proj2 H))))))).
Defined.

(** A check of the bulb that finds an update: the query took two seconds. *)
Lemma successful_check_publishes_witness :
  (ieeeAddr Sample.bulb ∉ inProgress Sample.rest)
  ∧ lastChecked
      (run Sample.env_ok 0
         (onMQTTMessage Sample.cfg Sample.directory Sample.check_request)
         Sample.rest) !! ieeeAddr Sample.bulb
    = Some 1700000002000.
Proof.
  assert (ieeeAddr Sample.bulb ∉ inProgress Sample.rest) as Hfree
    by apply not_elem_of_empty.
  split; [exact Hfree|].
  pose proof (successful_check_publishes Sample.cfg Sample.directory
                Sample.env_ok 0%nat Sample.check_request Sample.bulb
                {| res_available := true; currentFileVersion := 5;
                   otaFileVersion := 7 |}
                Sample.rest eq_refl eq_refl eq_refl Hfree eq_refl eq_refl) as H.
  cbv zeta in H. exact (proj1 (proj2 (proj2 H))).
Defined.

(** The bulb asks for its next image five minutes after that check. *)
Lemma manual_check_counts_for_rate_limit_witness :
  (ieeeAddr Sample.bulb ∉ inProgress Sample.rest)
  ∧ count is_query
      (since
         (length
            (out (run Sample.env_ok 0
                    (onMQTTMessage Sample.cfg Sample.directory
                       Sample.check_request)
                    Sample.rest)))
         (run Sample.env_ok 0 (onZigbeeEvent Sample.cfg Sample.signal)
            (set_now (1700000002000 + 5 * 60 * 1000)
               (run Sample.env_ok 0
                  (onMQTTMessage Sample.cfg Sample.directory
                     Sample.check_request)
                  Sample.rest)))) = 0%nat.
Proof.
  assert (ieeeAddr Sample.bulb ∉ inProgress Sample.rest) as Hfree
    by apply not_elem_of_empty.
  split; [exact Hfree|].
  refine (proj1 (manual_check_counts_for_rate_limit Sample.cfg Sample.directory
                   Sample.env_ok Sample.env_ok 0%nat 0%nat
                   Sample.check_request Sample.bulb
                   {| res_available := true; currentFileVersion := 5;
                      otaFileVersion := 7 |}
                   Sample.signal (1700000002000 + 5 * 60 * 1000) Sample.rest
                   eq_refl eq_refl eq_refl Hfree eq_refl eq_refl
                   eq_refl eq_refl eq_refl _)).
  vm_compute. discriminate.
Defined.


(** An update of the bulb leaves the plug without a record. *)
Lemma request_touches_its_device_only_witness :
  stateStore
    (run Sample.env_ok 0
       (onMQTTMessage Sample.cfg Sample.directory Sample.update_request)
       Sample.rest) !! ieeeAddr Sample.plug
  = None.
Proof.
  refine (request_touches_its_device_only Sample.cfg Sample.directory
            Sample.env_ok 0%nat Sample.update_request Sample.rest
            (ieeeAddr Sample.plug) _).
  intros device Hres. vm_compute in Hres. injection Hres as <-.
  intros H. vm_compute in H. discriminate H.
Defined.

(** An attribute report of the bulb is no business of the handler. *)
Lemma signals_ignored_witness :
  run Sample.env_ok 0 (onZigbeeEvent Sample.cfg Sample.report) Sample.rest
  = Sample.rest.
Proof.
  refine (proj2 (proj1 (proj2 (signals_ignored Sample.cfg Sample.directory
                                 Sample.report))
                   Sample.env_ok 0%nat Sample.rest eq_refl)).
Defined.

(** The automatic check of the bulb, never checked before. *)
Lemma automatic_check_found_witness :
  lastChecked
    (run Sample.env_ok 0 (onZigbeeEvent Sample.cfg Sample.signal) Sample.rest)
  = {[ieeeAddr Sample.bulb := 1700000000000]}.
Proof.
  pose proof (automatic_check_found Sample.cfg Sample.env_ok 0%nat Sample.signal
                {| res_available := true; currentFileVersion := 5;
                   otaFileVersion := 7 |}
                Sample.rest eq_refl eq_refl eq_refl eq_refl eq_refl) as H.
  cbv zeta in H. exact (proj1 (proj2 (proj2 H))).
Defined.

(** The automatic check of the bulb fails: its state is published as idle
    with the stored versions. *)
Lemma automatic_check_failed_witness :
  entity_states
    (since 0
       (run Sample.env_fail 0 (onZigbeeEvent Sample.cfg Sample.signal)
          Sample.rest))
  = [(ieeeAddr Sample.bulb,
      {| update_available := None;
         update := {| progress := None; remaining := None; state := idle;
                      installed_version := Num 5;
                      latest_version := Num 7 |} |})].
Proof.
  pose proof (automatic_check_failed Sample.cfg Sample.env_fail 0%nat
                Sample.signal Sample.timeout_error Sample.rest
                eq_refl eq_refl eq_refl eq_refl eq_refl) as H.
  cbv zeta in H. exact (proj1 H).
Defined.

(** The response to the bulb, with the sequence number 17 of its signal. *)
Lemma no_image_response_addressed_witness :
  ∃ endpoint,
    last (List.filter
            (fun ev => match ev with Called _ => true | _ => false end)
            (since 0
               (run Sample.env_ok 0 (onZigbeeEvent Sample.cfg Sample.signal)
                  Sample.rest)))
    = Some (Called (CommandResponse endpoint 152 17))
    ∧ ((endpoint ∈ endpoints Sample.bulb
        ∧ supportsOutputCluster "genOta" endpoint = true)
       ∨ (endpoint = Sample.ep1
          ∧ Forall (fun e => supportsOutputCluster "genOta" e = false)
              (endpoints Sample.bulb))).
Proof.
  exact (no_image_response_addressed Sample.cfg Sample.env_ok 0%nat
           Sample.signal Sample.rest eq_refl (or_intror (or_intror eq_refl))).
Defined.

(** A check requested on the legacy topic, the legacy setting being on. *)
Lemma legacy_request_unanswered_witness :
  accepted Sample.cfg_legacy Sample.legacy_check_request = true
  ∧ request_type Sample.legacy_check_request = "check"
  ∧ responses
      (since 0
         (run Sample.env_ok 0
            (onMQTTMessage Sample.cfg_legacy Sample.directory
               Sample.legacy_check_request)
            Sample.rest)) = [].
Proof.
  refine (legacy_request_unanswered Sample.cfg_legacy Sample.directory
            Sample.env_ok 0%nat "check" (MsgText "bulb") Sample.rest
            eq_refl eq_refl _ eq_refl eq_refl).
  discriminate.
Defined.

(** An update of the bulb with two progress reports, as [bridge/log] shows it. *)
Lemma legacy_log_statuses_witness :
  log_statuses
    (since 0
       (run Sample.env_ok 0
          (onMQTTMessage Sample.cfg_legacy Sample.directory Sample.update_request)
          Sample.rest))
  = ["update_in_progress"; "update_progress"; "update_progress";
     "update_succeeded"].
Proof.
  exact (legacy_log_statuses Sample.cfg_legacy Sample.directory Sample.env_ok
           0%nat Sample.update_request Sample.rest eq_refl).
Defined.

(** After an update of the bulb that failed, a check of the bulb is
    dispatched. *)
Lemma lock_round_trip_witness :
  (ieeeAddr Sample.bulb ∉ inProgress Sample.rest)
  ∧ dispatched
      (snd (sync (onMQTTMessage Sample.cfg Sample.directory Sample.check_request)
              (run Sample.env_fail 0
                 (onMQTTMessage Sample.cfg Sample.directory
                    Sample.update_request)
                 Sample.rest)))
    = Some CheckAction.
Proof.
  assert (ieeeAddr Sample.bulb ∉ inProgress Sample.rest) as Hfree
    by apply not_elem_of_empty.
  split; [exact Hfree|].
  exact (proj2 (lock_round_trip Sample.cfg Sample.directory Sample.env_fail
                  0%nat Sample.update_request Sample.check_request Sample.bulb
                  Sample.rest eq_refl eq_refl eq_refl eq_refl eq_refl Hfree)).
Defined.

(** C10 on the samples: the request on [.../ota_update/checking] is accepted,
    its type is [checking], and it is dispatched as an update: the handler
    calls [updateToLatest] once and makes no availability query. *)
Lemma dispatch_by_last_segment_witness :
  (ieeeAddr Sample.bulb ∉ inProgress Sample.rest)
  ∧ accepted Sample.cfg Sample.checking_request = true
  ∧ request_type Sample.checking_request = "checking"
  ∧ dispatched
      (snd (sync (onMQTTMessage Sample.cfg Sample.directory Sample.checking_request)
              Sample.rest))
    = Some UpdateAction
  ∧ count is_update_call
      (since 0
         (run Sample.env_ok 0
            (onMQTTMessage Sample.cfg Sample.directory Sample.checking_request)
            Sample.rest)) = 1%nat
  ∧ count is_query
      (since 0
         (run Sample.env_ok 0
            (onMQTTMessage Sample.cfg Sample.directory Sample.checking_request)
            Sample.rest)) = 0%nat.
Proof.
  assert (ieeeAddr Sample.bulb ∉ inProgress Sample.rest) as Hfree
    by apply not_elem_of_empty.
  split; [exact Hfree|].
  destruct (proj2 (dispatch_by_last_segment Sample.cfg Sample.directory)
              eq_refl "check" "ing" (MsgObject (Some "bulb") None)
              (or_intror eq_refl)) as [Hacc Htype].
  split; [exact Hacc|]. split; [exact (Htype eq_refl)|].
  destruct (proj1 (dispatch_by_last_segment Sample.cfg Sample.directory)
              Sample.env_ok 0%nat Sample.checking_request Sample.bulb
              Sample.rest Hacc eq_refl eq_refl Hfree) as (Hd & Hq & Hu).
  split; [exact Hd|]. split; [exact Hu | exact Hq].
Defined.

End FurtherOnSamples.
